(** * The TPA session runtime: event manager and session protocol engine

    A shallow embedding of the two TypeScript classes that make up the
    session runtime:

    - [EventManager] (the event router): the registry of stream handlers,
      the system-event emitter, [addHandler], [removeHandler],
      [onSettingChange] and [emit];
    - [TpaSession] (the connection state machine, subscription tracker and
      message classifier): [subscribe], [getSettings], [getSetting],
      [handleMessage], [sanitizeEventData], [updateSubscriptions],
      [handleReconnection] and [send].

    JavaScript exceptions are modelled by the [Result] type, mutable fields
    by explicit state passing, and calls that leave the class (a frame
    written to the socket, an event handed to the router, a timer, a user
    callback) by entries of an effect log. *)

From stdpp Require Import base decidable countable gmap strings list.
From Stdlib Require Import ZArith Lia.

Set Warnings "-register-all".
#[local] Open Scope Z_scope.

(** ** Exceptions *)

(** A thrown JavaScript value. Everything thrown in these classes is an
    [Error] object; only its [message] is ever read. *)
Record JsError := Error { message : string }.

#[global] Instance JsError_eq_dec : EqDecision JsError.
Proof. solve_decision. Defined.

Inductive Result (A : Type) : Type :=
| Ok (a : A)
| Throw (e : JsError).
Arguments Ok {A} a.
Arguments Throw {A} e.

Definition result_bind {A B} (r : Result A) (k : A -> Result B) : Result B :=
  match r with
  | Ok a => k a
  | Throw e => Throw e
  end.

(** [try { body } catch (e) { handler(e) }] for a body that yields a value. *)
Definition try_catch {A} (body : Result A) (handler : JsError -> A) : A :=
  match body with
  | Ok a => a
  | Throw e => handler e
  end.

Definition is_ok {A} (r : Result A) : bool :=
  match r with Ok _ => true | Throw _ => false end.

(** ** Stream and event tags *)

(** The members of the [StreamType] enum, as listed by [StreamDataTypes]. *)
Inductive StreamType : Set :=
| BUTTON_PRESS | HEAD_POSITION | PHONE_NOTIFICATION | TRANSCRIPTION
| TRANSLATION | GLASSES_BATTERY_UPDATE | PHONE_BATTERY_UPDATE
| GLASSES_CONNECTION_STATE | LOCATION_UPDATE | CALENDAR_EVENT | VAD
| NOTIFICATION_DISMISSED | AUDIO_CHUNK | VIDEO | OPEN_DASHBOARD
| START_APP | STOP_APP | ALL | WILDCARD.

#[global] Instance StreamType_eq_dec : EqDecision StreamType.
Proof. solve_decision. Defined.

Definition stream_code (t : StreamType) : nat :=
  match t with
  | BUTTON_PRESS => 0 | HEAD_POSITION => 1 | PHONE_NOTIFICATION => 2
  | TRANSCRIPTION => 3 | TRANSLATION => 4 | GLASSES_BATTERY_UPDATE => 5
  | PHONE_BATTERY_UPDATE => 6 | GLASSES_CONNECTION_STATE => 7
  | LOCATION_UPDATE => 8 | CALENDAR_EVENT => 9 | VAD => 10
  | NOTIFICATION_DISMISSED => 11 | AUDIO_CHUNK => 12 | VIDEO => 13
  | OPEN_DASHBOARD => 14 | START_APP => 15 | STOP_APP => 16 | ALL => 17
  | WILDCARD => 18
  end%nat.

Definition stream_of_code (n : nat) : option StreamType :=
  match n with
  | 0 => Some BUTTON_PRESS | 1 => Some HEAD_POSITION
  | 2 => Some PHONE_NOTIFICATION | 3 => Some TRANSCRIPTION
  | 4 => Some TRANSLATION | 5 => Some GLASSES_BATTERY_UPDATE
  | 6 => Some PHONE_BATTERY_UPDATE | 7 => Some GLASSES_CONNECTION_STATE
  | 8 => Some LOCATION_UPDATE | 9 => Some CALENDAR_EVENT | 10 => Some VAD
  | 11 => Some NOTIFICATION_DISMISSED | 12 => Some AUDIO_CHUNK
  | 13 => Some VIDEO | 14 => Some OPEN_DASHBOARD | 15 => Some START_APP
  | 16 => Some STOP_APP | 17 => Some ALL | 18 => Some WILDCARD
  | _ => None
  end%nat.

#[global] Instance StreamType_countable : Countable StreamType.
Proof. apply (inj_countable stream_code stream_of_code). by intros []. Defined.

(** [EventType = StreamType | keyof SystemEvents]. *)
Inductive EventType : Set :=
| Stream (t : StreamType)
| connected
| disconnected
| error
| settings_update.

#[global] Instance EventType_eq_dec : EqDecision EventType.
Proof. solve_decision. Defined.

#[global] Instance EventType_countable : Countable EventType.
Proof.
  apply (inj_countable
    (fun ev => match ev with
               | Stream t => inl t
               | connected => inr 0%nat
               | disconnected => inr 1%nat
               | error => inr 2%nat
               | settings_update => inr 3%nat
               end)
    (fun c => match c with
              | inl t => Some (Stream t)
              | inr 0%nat => Some connected
              | inr 1%nat => Some disconnected
              | inr 2%nat => Some error
              | inr 3%nat => Some settings_update
              | inr _ => None
              end)).
  by intros [].
Defined.

(** Modelled from the spec: the string values of the [StreamType] members
    are declared in [../streams], outside these sources. The spec writes
    [head_position] for [HEAD_POSITION]; the other members are written the
    same way. The values are used, through [String(event)], in error text
    and in the subscription list on the wire only. *)
Definition stream_name (t : StreamType) : string :=
  match t with
  | BUTTON_PRESS => "button_press" | HEAD_POSITION => "head_position"
  | PHONE_NOTIFICATION => "phone_notification"
  | TRANSCRIPTION => "transcription" | TRANSLATION => "translation"
  | GLASSES_BATTERY_UPDATE => "glasses_battery_update"
  | PHONE_BATTERY_UPDATE => "phone_battery_update"
  | GLASSES_CONNECTION_STATE => "glasses_connection_state"
  | LOCATION_UPDATE => "location_update" | CALENDAR_EVENT => "calendar_event"
  | VAD => "vad" | NOTIFICATION_DISMISSED => "notification_dismissed"
  | AUDIO_CHUNK => "audio_chunk" | VIDEO => "video"
  | OPEN_DASHBOARD => "open_dashboard" | START_APP => "start_app"
  | STOP_APP => "stop_app" | ALL => "all" | WILDCARD => "*"
  end.

Definition event_name (ev : EventType) : string :=
  match ev with
  | Stream t => stream_name t
  | connected => "connected"
  | disconnected => "disconnected"
  | error => "error"
  | settings_update => "settings_update"
  end.

(** ** JavaScript values *)

(** Primitive values: what a setting's [value] field holds. Numbers are
    represented by the integers: [NaN] cannot arrive through [JSON.parse],
    and nothing below does arithmetic on a setting. *)
Inductive Prim : Set :=
| PUndefined
| PNull
| PBool (b : bool)
| PNum (n : Z)
| PStr (s : string).

#[global] Instance Prim_eq_dec : EqDecision Prim.
Proof. solve_decision. Defined.

(** [a !== b] on primitives: comparison by type and value. *)
Definition strict_neq (a b : Prim) : bool := negb (bool_decide (a = b)).

(** Payloads of data streams and outbound messages: the values
    [JSON.parse] produces, [undefined] for an absent field, and [Date]
    objects, which the classes create for time stamps. An object is its
    list of own properties; the first entry for a name is the property. *)
Inductive JsValue : Type :=
| JUndefined
| JNull
| JBool (b : bool)
| JNum (n : Z)
| JStr (s : string)
| JDate (ms : Z)
| JArr (items : list JsValue)
| JObj (props : list (string * JsValue)).

Fixpoint assoc {V} (name : string) (props : list (string * V)) : option V :=
  match props with
  | [] => None
  | (k, v) :: rest => if String.eqb k name then Some v else assoc name rest
  end.

(** [data === null || data === undefined]. *)
Definition is_nullish (v : JsValue) : bool :=
  match v with
  | JUndefined | JNull => true
  | _ => false
  end.

(** [v.name] for the property names read in these classes ([text],
    [position], [buttonId], [pressType], [timestamp]): reading a property
    of [null] or [undefined] throws a [TypeError]; a string, number,
    boolean, array or [Date] has none of these properties. *)
Definition get_prop (v : JsValue) (name : string) : Result JsValue :=
  match v with
  | JUndefined =>
      Throw (Error ("Cannot read properties of undefined (reading '" ++ name ++ "')"))
  | JNull =>
      Throw (Error ("Cannot read properties of null (reading '" ++ name ++ "')"))
  | JObj props =>
      Ok (match assoc name props with Some x => x | None => JUndefined end)
  | _ => Ok JUndefined
  end.

(** [v?.name]. *)
Definition get_prop_opt (v : JsValue) (name : string) : Result JsValue :=
  if is_nullish v then Ok JUndefined else get_prop v name.

(** [typeof v]. *)
Definition typeof (v : JsValue) : string :=
  match v with
  | JUndefined => "undefined"
  | JNull => "object"
  | JBool _ => "boolean"
  | JNum _ => "number"
  | JStr _ => "string"
  | JDate _ | JArr _ | JObj _ => "object"
  end.

(** Truthiness, as tested by [!v] and [v || d]. *)
Definition truthy (v : JsValue) : bool :=
  match v with
  | JUndefined | JNull => false
  | JBool b => b
  | JNum n => negb (n =? 0)
  | JStr s => negb (String.eqb s "")
  | JDate _ | JArr _ | JObj _ => true
  end.

(** [name in v] for an object [v]. *)
Definition has_prop (name : string) (v : JsValue) : bool :=
  match v with
  | JObj props => bool_decide (is_Some (assoc name props))
  | _ => false
  end.

(** The value has an own property [name] holding a string. *)
Definition has_string_prop (name : string) (v : JsValue) : bool :=
  match v with
  | JObj props =>
      match assoc name props with
      | Some (JStr _) => true
      | _ => false
      end
  | _ => false
  end.

(** The value has an own property [name] holding a truthy value. *)
Definition has_truthy_prop (name : string) (v : JsValue) : bool :=
  match v with
  | JObj props =>
      match assoc name props with
      | Some x => truthy x
      | None => false
      end
  | _ => false
  end.

(** ** [TpaSession.sanitizeEventData] *)

Module Sanitizer.

(** The record that replaces a transcription without a string [text]. *)
Definition empty_transcription (now : Z) : JsValue :=
  JObj [("text", JStr ""); ("isFinal", JBool true);
        ("startTime", JNum now); ("endTime", JNum now)].

Definition default_head_position (now : Z) : JsValue :=
  JObj [("position", JStr "up"); ("timestamp", JDate now)].

Definition default_button_press (now : Z) : JsValue :=
  JObj [("buttonId", JStr "unknown"); ("pressType", JStr "short");
        ("timestamp", JDate now)].

(** The body of the [try] block. [now] is the clock, read by [Date.now()]
    and [new Date()]. *)
Definition sanitize_body (now : Z) (streamType : StreamType) (data : JsValue)
  : Result JsValue :=
  if is_nullish data then Ok (JObj [])
  else
    match streamType with
    | TRANSCRIPTION =>
        result_bind (get_prop data "text") (fun text =>
        if negb (String.eqb (typeof text) "string")
        then Ok (empty_transcription now)
        else Ok data)
    | HEAD_POSITION =>
        result_bind (get_prop_opt data "position") (fun position =>
        if negb (String.eqb (typeof position) "string")
        then Ok (default_head_position now)
        else Ok data)
    | BUTTON_PRESS =>
        result_bind (get_prop data "buttonId") (fun buttonId =>
        if negb (truthy buttonId) then Ok (default_button_press now)
        else
          result_bind (get_prop data "pressType") (fun pressType =>
          if negb (truthy pressType) then Ok (default_button_press now)
          else Ok data))
    | _ => Ok data
    end.

(** [sanitizeEventData]: the body, with the [catch] that returns [{}]. *)
Definition sanitizeEventData (now : Z) (streamType : StreamType)
    (data : JsValue) : JsValue :=
  try_catch (sanitize_body now streamType data) (fun _ => JObj []).

(** The minimum shape of a payload of stream [t]: a string [text] for a
    transcription, a string [position] for a head position, [buttonId] and
    [pressType] for a button press. The other streams declare none. *)
Definition min_shape (t : StreamType) (v : JsValue) : bool :=
  match t with
  | TRANSCRIPTION => has_string_prop "text" v
  | HEAD_POSITION => has_string_prop "position" v
  | BUTTON_PRESS => has_prop "buttonId" v && has_prop "pressType" v
  | _ => true
  end.

End Sanitizer.

(** ** Programs over mutable state *)

(** A method body: it reads and writes the fields of its object (the state
    [S]), may throw, and leaves a log of the calls it made to the outside.
    Writes made before a [throw] stay, as in JavaScript. *)
Definition Prog (S L A : Type) : Type := S -> Result A * S * list L.

Section Prog.
Context {S L : Type}.

Definition ret {A} (a : A) : Prog S L A := fun s => (Ok a, s, []).

Definition bind {A B} (m : Prog S L A) (k : A -> Prog S L B) : Prog S L B :=
  fun s =>
    match m s with
    | (Ok a, s1, l1) =>
        match k a s1 with
        | (r, s2, l2) => (r, s2, l1 ++ l2)
        end
    | (Throw e, s1, l1) => (Throw e, s1, l1)
    end.

Definition throw {A} (e : JsError) : Prog S L A := fun s => (Throw e, s, []).

(** [try { m } catch (e) { h(e) }]. *)
Definition catch {A} (m : Prog S L A) (h : JsError -> Prog S L A) : Prog S L A :=
  fun s =>
    match m s with
    | (Ok a, s1, l1) => (Ok a, s1, l1)
    | (Throw e, s1, l1) =>
        match h e s1 with
        | (r, s2, l2) => (r, s2, l1 ++ l2)
        end
    end.

Definition gets {A} (f : S -> A) : Prog S L A := fun s => (Ok (f s), s, []).

Definition modify (f : S -> S) : Prog S L unit := fun s => (Ok tt, f s, []).

Definition tell (x : L) : Prog S L unit := fun s => (Ok tt, s, [x]).

(** A computation that can only fail, run inside a method. *)
Definition lift {A} (r : Result A) : Prog S L A := fun s => (r, s, []).

End Prog.

Notation "x <- m ;; k" := (bind m (fun x => k))
  (at level 100, m at next level, right associativity).
Notation "m ;; k" := (bind m (fun _ => k))
  (at level 100, right associativity).

(** ** Settings and configuration *)

(** Modelled from the spec: [AppSetting] is declared in [../models],
    outside these sources. An entry of [AppSettings] has a [key], a [type]
    tag ([stype] here), a [value] that is a boolean, a number or a string,
    and an optional [defaultValue]; these are also the fields the session
    reads. *)
Record AppSetting := {
  key : string;
  stype : string;
  value : Prim;
  defaultValue : Prim;
}.

#[global] Instance AppSetting_eq_dec : EqDecision AppSetting.
Proof. solve_decision. Defined.

(** [settings.find(s => s.key === key)]. *)
Definition find_setting (k : string) (settings : list AppSetting) : option AppSetting :=
  List.find (fun s => String.eqb (key s) k) settings.

(** Modelled from the spec: [TpaConfig] is declared in [../models] as
    well. An entry of [TpaConfig.settings] is a setting or a
    [{type: 'group', title}] heading, as the annotations in
    [getDefaultSettings] say. *)
Inductive ConfigEntry :=
| Group (title : string)
| Setting (s : AppSetting).

Record TpaConfig := {
  config_name : string;
  config_settings : list ConfigEntry;
}.

(** ** The event manager *)

Module Events.

(** The [data] argument of [emit]: an [AppSettings] array ([connected],
    [settings_update]), a reason string ([disconnected]), an [Error]
    ([error]), the payload of a data stream, or an audio chunk. *)
Inductive Payload :=
| PSettings (settings : list AppSetting)
| PReason (reason : string)
| PError (e : JsError)
| PData (data : JsValue)
| PAudio (byteLength : Z) (sampleRate : option Z) (timestamp : Z).

(** A handler supplied by the application. Two handlers are the same
    JavaScript function when they have the same [hid]; [hrun] tells whether
    a call returns ([None]) or throws. *)
Record Handler := {
  hid : nat;
  hrun : Payload -> option JsError;
}.

(** The callback given to [onSettingChange]. *)
Record SettingCallback := {
  cbid : nat;
  cbrun : Prim -> Prim -> option JsError;
}.

(** The environment of one [settingsHandler] closure: the [key] and
    [handler] arguments of [onSettingChange] and its local
    [previousValue]. *)
Record Closure := {
  ckey : string;
  ccallback : SettingCallback;
  previousValue : Prim;
}.

Definition set_previousValue (v : Prim) (c : Closure) : Closure :=
  {| ckey := ckey c; ccallback := ccallback c; previousValue := v |}.

(** What is registered on the [EventEmitter]: a function of the
    application, or the [settingsHandler] closure number [cid]. *)
Inductive Listener :=
| UserListener (h : Handler)
| SettingsListener (cid : nat).

Definition same_listener (a b : Listener) : bool :=
  match a, b with
  | UserListener h1, UserListener h2 => Nat.eqb (hid h1) (hid h2)
  | SettingsListener c1, SettingsListener c2 => Nat.eqb c1 c2
  | _, _ => false
  end.

(** The fields of [EventManager]: the listeners of [this.emitter] by event
    name, [this.handlers] (a [Set] is the list of its members in insertion
    order), the environments of the [settingsHandler] closures created so
    far, and the [subscribe] callback given to the constructor. *)
Record EventManager := {
  emitter : gmap EventType (list Listener);
  handlers : gmap EventType (list Handler);
  closures : list Closure;
  subscribe : StreamType -> option JsError;
}.

Definition set_emitter (e : gmap EventType (list Listener)) (m : EventManager) :=
  {| emitter := e; handlers := handlers m; closures := closures m;
     subscribe := subscribe m |}.

Definition set_handlers (h : gmap EventType (list Handler)) (m : EventManager) :=
  {| emitter := emitter m; handlers := h; closures := closures m;
     subscribe := subscribe m |}.

Definition set_closures (c : list Closure) (m : EventManager) :=
  {| emitter := emitter m; handlers := handlers m; closures := c;
     subscribe := subscribe m |}.

(** [new EventManager(subscribe)]. *)
Definition new_EventManager (subscribe : StreamType -> option JsError) : EventManager :=
  {| emitter := ∅; handlers := ∅; closures := []; subscribe := subscribe |}.

(** The calls an [EventManager] method makes to functions it was given. *)
Inductive Call :=
| Invoked (hid : nat) (event : EventType) (data : Payload)
| SettingChanged (cbid : nat) (value previous : Prim)
| Subscribed (type : StreamType).

Definition EM := Prog EventManager Call.

(** Calling a function of the application: it returns or throws. *)
Definition call (outcome : option JsError) : EM unit :=
  match outcome with
  | None => ret tt
  | Some e => throw e
  end.

(** *** [Set] operations on [this.handlers] *)

Definition set_has (h : Handler) (hs : list Handler) : bool :=
  existsb (fun h' => Nat.eqb (hid h') (hid h)) hs.

(** [handlers.add(handler)]. *)
Definition set_add (h : Handler) (hs : list Handler) : list Handler :=
  if set_has h hs then hs else hs ++ [h].

(** [handlers.delete(handler)]. *)
Definition set_delete (h : Handler) (hs : list Handler) : list Handler :=
  List.filter (fun h' => negb (Nat.eqb (hid h') (hid h))) hs.

(** *** The [EventEmitter] of [node:events] *)

Definition listeners (ev : EventType) (m : EventManager) : list Listener :=
  default [] (emitter m !! ev).

(** [this.emitter.on(ev, l)]. *)
Definition emitter_on (ev : EventType) (l : Listener) (m : EventManager) : EventManager :=
  set_emitter (<[ev := listeners ev m ++ [l]]> (emitter m)) m.

(** Removes the most recently added instance of [l]. *)
Fixpoint remove_last (l : Listener) (ls : list Listener) : list Listener * bool :=
  match ls with
  | [] => ([], false)
  | x :: rest =>
      match remove_last l rest with
      | (rest', true) => (x :: rest', true)
      | (rest', false) =>
          if same_listener x l then (rest', true) else (x :: rest', false)
      end
  end.

(** [this.emitter.off(ev, l)]. *)
Definition emitter_off (ev : EventType) (l : Listener) (m : EventManager) : EventManager :=
  match emitter m !! ev with
  | None => m
  | Some ls =>
      match fst (remove_last l ls) with
      | [] => set_emitter (delete ev (emitter m)) m
      | ls' => set_emitter (<[ev := ls']> (emitter m)) m
      end
  end.

(** Runs the closure [cid] on its own environment. *)
Definition zoom_closure {A} (cid : nat) (dflt : A) (p : Prog Closure Call A) : EM A :=
  fun m =>
    match closures m !! cid with
    | None => (Ok dflt, m, [])
    | Some c =>
        match p c with
        | (r, c', l) => (r, set_closures (<[cid := c']> (closures m)) m, l)
        end
    end.

(** The [settingsHandler] closure that [onSettingChange] creates. A
    payload that is not an array makes [settings.find] throw; the [catch]
    swallows that as it swallows what the callback throws. *)
Definition settingsHandler (data : Payload) : Prog Closure Call unit :=
  catch
    (settings <- match data with
                 | PSettings settings => ret settings
                 | _ => throw (Error "settings.find is not a function")
                 end;;
     c <- gets (fun c => c);;
     match find_setting (ckey c) settings with
     | Some setting =>
         if strict_neq (value setting) (previousValue c) then
           let newValue := value setting in
           tell (SettingChanged (cbid (ccallback c)) newValue (previousValue c));;
           lift (match cbrun (ccallback c) newValue (previousValue c) with
                 | None => Ok tt
                 | Some e => Throw e
                 end);;
           modify (set_previousValue newValue)
         else ret tt
     | None => ret tt
     end)
    (fun _ => ret tt).

Definition call_listener (ev : EventType) (data : Payload) (l : Listener) : EM unit :=
  match l with
  | UserListener h => tell (Invoked (hid h) ev data);; call (hrun h data)
  | SettingsListener cid => zoom_closure cid tt (settingsHandler data)
  end.

(** The listeners are called in the order of registration; what one of
    them throws leaves [emit] at once. *)
Fixpoint run_listeners (ev : EventType) (data : Payload) (ls : list Listener) : EM unit :=
  match ls with
  | [] => ret tt
  | l :: rest => call_listener ev data l;; run_listeners ev data rest
  end.

(** What [emit('error', data)] throws when no listener is registered. *)
Definition unhandled_error (data : Payload) : JsError :=
  match data with
  | PError e => e
  | _ => Error "Unhandled error."
  end.

(** [this.emitter.emit(ev, data)]. An [error] event without a listener is
    thrown. *)
Definition emitter_emit (ev : EventType) (data : Payload) : EM unit :=
  ls <- gets (listeners ev);;
  match ls, ev with
  | [], error => throw (unhandled_error data)
  | _, _ => run_listeners ev data ls
  end.

(** *** The methods of [EventManager] *)

(** [onConnected], [onDisconnected], [onError], [onSettingsUpdate]. *)
Definition onConnected (h : Handler) := emitter_on connected (UserListener h).
Definition onDisconnected (h : Handler) := emitter_on disconnected (UserListener h).
Definition onError (h : Handler) := emitter_on error (UserListener h).
Definition onSettingsUpdate (h : Handler) := emitter_on settings_update (UserListener h).

(** [onSettingChange(key, handler)]; the result is the number of the new
    closure, which stands for the cleanup function. *)
Definition onSettingChange (key : string) (handler : SettingCallback)
    (m : EventManager) : nat * EventManager :=
  let cid := length (closures m) in
  let c := {| ckey := key; ccallback := handler; previousValue := PUndefined |} in
  let m1 := set_closures (closures m ++ [c]) m in
  let m2 := emitter_on settings_update (SettingsListener cid) m1 in
  (cid, emitter_on connected (SettingsListener cid) m2).

(** The cleanup function returned by [onSettingChange]. *)
Definition offSettingChange (cid : nat) (m : EventManager) : EventManager :=
  emitter_off connected (SettingsListener cid)
    (emitter_off settings_update (SettingsListener cid) m).

(** [addHandler(type, handler)]. The [Set] read from the map is the one
    [handlers.add] writes to. *)
Definition addHandler (type : StreamType) (handler : Handler) : EM unit :=
  hs <- gets (fun m => default [] (handlers m !! Stream type));;
  (if Nat.eqb (length hs) 0 then
     modify (fun m => set_handlers (<[Stream type := hs]> (handlers m)) m);;
     tell (Subscribed type);;
     sub <- gets subscribe;;
     call (sub type)
   else ret tt);;
  modify (fun m => set_handlers (<[Stream type := set_add handler hs]> (handlers m)) m).

(** [removeHandler(type, handler)]. *)
Definition removeHandler (type : StreamType) (handler : Handler) : EM unit :=
  hs <- gets (fun m => handlers m !! Stream type);;
  match hs with
  | None => ret tt
  | Some hs =>
      let hs' := set_delete handler hs in
      if Nat.eqb (length hs') 0
      then modify (fun m => set_handlers (delete (Stream type) (handlers m)) m)
      else modify (fun m => set_handlers (<[Stream type := hs']> (handlers m)) m)
  end.

(** The convenience methods: [onTranscription], [onHeadPosition],
    [onButtonPress], [onPhoneNotifications], [onGlassesBattery],
    [onPhoneBattery], [onVoiceActivity], [onLocation], [onCalendarEvent],
    [onAudioChunk], and the generic [on]. *)
Definition onTranscription := addHandler TRANSCRIPTION.
Definition onHeadPosition := addHandler HEAD_POSITION.
Definition onButtonPress := addHandler BUTTON_PRESS.
Definition onPhoneNotifications := addHandler PHONE_NOTIFICATION.
Definition onGlassesBattery := addHandler GLASSES_BATTERY_UPDATE.
Definition onPhoneBattery := addHandler PHONE_BATTERY_UPDATE.
Definition onVoiceActivity := addHandler VAD.
Definition onLocation := addHandler LOCATION_UPDATE.
Definition onCalendarEvent := addHandler CALENDAR_EVENT.
Definition onAudioChunk := addHandler AUDIO_CHUNK.
Definition on (type : StreamType) := addHandler type.

Definition handler_error_text (event : EventType) (e : JsError) : string :=
  "Handler error for event '" ++ event_name event ++ "': " ++ message e.

Definition emission_error_text (event : EventType) (e : JsError) : string :=
  "Event emission error for '" ++ event_name event ++ "': " ++ message e.

(** The [forEach] over [handlersArray]: each handler runs in its own
    [try]; the [catch] emits an [error] event on the emitter, and what that
    emission throws leaves the loop. *)
Fixpoint forEach_handler (event : EventType) (data : Payload) (hs : list Handler) : EM unit :=
  match hs with
  | [] => ret tt
  | h :: rest =>
      catch
        (tell (Invoked (hid h) event data);; call (hrun h data))
        (fun handlerError =>
           if bool_decide (event <> error)
           then emitter_emit error (PError (Error (handler_error_text event handlerError)))
           else ret tt);;
      forEach_handler event data rest
  end.

(** [emit(event, data)]. Console output is not part of the model. *)
Definition emit (event : EventType) (data : Payload) : EM unit :=
  catch
    (emitter_emit event data;;
     hs <- gets (fun m => handlers m !! event);;
     match hs with
     | Some hs => forEach_handler event data hs
     | None => ret tt
     end)
    (fun emitError =>
       if bool_decide (event <> error)
       then catch
              (emitter_emit error (PError (Error (emission_error_text event emitError))))
              (fun _ => ret tt)
       else ret tt).

(** The handlers [emit] called, in order. *)
Definition invoked_ids (event : EventType) (log : list Call) : list nat :=
  omap (fun c => match c with
                 | Invoked h ev _ => if bool_decide (ev = event) then Some h else None
                 | _ => None
                 end) log.

(** The [error] events delivered to the listener [l]. *)
Definition error_events (l : nat) (log : list Call) : list Payload :=
  omap (fun c => match c with
                 | Invoked h error d => if Nat.eqb h l then Some d else None
                 | _ => None
                 end) log.

(** The handlers currently registered for a stream tag. *)
Definition registered (type : StreamType) (m : EventManager) : list Handler :=
  default [] (handlers m !! Stream type).

(** A handler that throws [Error(text)] on every call, and one that always
    returns. *)
Definition throwing_handler (n : nat) (text : string) : Handler :=
  {| hid := n; hrun := fun _ => Some (Error text) |}.

Definition quiet_handler (n : nat) : Handler :=
  {| hid := n; hrun := fun _ => None |}.

(** A listener of the application that never throws. *)
Definition quiet_listener (l : Listener) : Prop :=
  match l with
  | UserListener h => forall d, hrun h d = None
  | SettingsListener _ => False
  end.

Definition listener_id (l : Listener) : nat :=
  match l with
  | UserListener h => hid h
  | SettingsListener cid => cid
  end.

Definition throws (data : Payload) (h : Handler) : bool :=
  bool_decide (is_Some (hrun h data)).

(** The calls of an [emit] in which every handler is isolated from the
    others: each handler of [hs] is called, in order, and each one that
    throws is followed by one [error] event, delivered to the [error]
    listeners [els]. *)
Definition isolated_calls (event : EventType) (data : Payload)
    (els : list Listener) (hs : list Handler) : list Call :=
  flat_map
    (fun h =>
       Invoked (hid h) event data ::
       match hrun h data with
       | Some e =>
           map (fun l => Invoked (listener_id l) error
                           (PError (Error (handler_error_text event e)))) els
       | None => []
       end) hs.

(** Two handlers on the transcription stream, the first of which throws;
    nothing else is registered. *)
Definition two_handlers : EventManager :=
  snd (fst (addHandler TRANSCRIPTION (quiet_handler 2)
    (snd (fst (addHandler TRANSCRIPTION (throwing_handler 1 "boom")
      (new_EventManager (fun _ => None))))))).

(** The state a method leaves, and the calls it made. *)
Definition state_of {A} (x : Result A * EventManager * list Call) : EventManager :=
  snd (fst x).

Definition calls_of {A} (x : Result A * EventManager * list Call) : list Call :=
  snd x.

End Events.

(** ** The session *)

Module Session.

Import Events.

(** The channel handle [this.ws]: its [readyState], and what
    [JSON.stringify] or [ws.send] would throw on the next frame, if
    anything. *)
Record WebSocket := {
  readyState : Z;
  sendError : option string;
}.

(** [TpaSessionConfig]; an optional field that is left out is [None]. *)
Record TpaSessionConfig := {
  packageName : string;
  apiKey : string;
  augmentOSWebsocketUrl : option string;
  autoReconnect : option bool;
  maxReconnectAttempts : option Z;
  reconnectDelay : option Z;
}.

(** The fields of [TpaSession]. [A] is what the [settings] field holds: the
    array itself, or a reference to it where aliasing matters. The
    subscription [Set] is the list of its members in insertion order; the
    attempt counter is a natural number. *)
Record TpaSessionOf (A : Type) := {
  config : TpaSessionConfig;
  ws : option WebSocket;
  sessionId : option string;
  reconnectAttempts : nat;
  subscriptions : list StreamType;
  settings : A;
  tpaConfig : option TpaConfig;
  shouldUpdateSubscriptionsOnSettingsChange : bool;
  subscriptionSettingsHandler : option (list AppSetting -> Result (list StreamType));
  subscriptionUpdateTriggers : list string;
}.
Arguments config {A} _.
Arguments ws {A} _.
Arguments sessionId {A} _.
Arguments reconnectAttempts {A} _.
Arguments subscriptions {A} _.
Arguments settings {A} _.
Arguments tpaConfig {A} _.
Arguments shouldUpdateSubscriptionsOnSettingsChange {A} _.
Arguments subscriptionSettingsHandler {A} _.
Arguments subscriptionUpdateTriggers {A} _.

Abbreviation TpaSession := (TpaSessionOf (list AppSetting)).

Definition set_ws {A} (x : option WebSocket) (s : TpaSessionOf A) : TpaSessionOf A :=
  {| config := config s; ws := x; sessionId := sessionId s;
     reconnectAttempts := reconnectAttempts s; subscriptions := subscriptions s;
     settings := settings s; tpaConfig := tpaConfig s;
     shouldUpdateSubscriptionsOnSettingsChange := shouldUpdateSubscriptionsOnSettingsChange s;
     subscriptionSettingsHandler := subscriptionSettingsHandler s;
     subscriptionUpdateTriggers := subscriptionUpdateTriggers s |}.

Definition set_sessionId {A} (x : option string) (s : TpaSessionOf A) : TpaSessionOf A :=
  {| config := config s; ws := ws s; sessionId := x;
     reconnectAttempts := reconnectAttempts s; subscriptions := subscriptions s;
     settings := settings s; tpaConfig := tpaConfig s;
     shouldUpdateSubscriptionsOnSettingsChange := shouldUpdateSubscriptionsOnSettingsChange s;
     subscriptionSettingsHandler := subscriptionSettingsHandler s;
     subscriptionUpdateTriggers := subscriptionUpdateTriggers s |}.

Definition set_reconnectAttempts {A} (x : nat) (s : TpaSessionOf A) : TpaSessionOf A :=
  {| config := config s; ws := ws s; sessionId := sessionId s;
     reconnectAttempts := x; subscriptions := subscriptions s;
     settings := settings s; tpaConfig := tpaConfig s;
     shouldUpdateSubscriptionsOnSettingsChange := shouldUpdateSubscriptionsOnSettingsChange s;
     subscriptionSettingsHandler := subscriptionSettingsHandler s;
     subscriptionUpdateTriggers := subscriptionUpdateTriggers s |}.

Definition set_subscriptions {A} (x : list StreamType) (s : TpaSessionOf A) : TpaSessionOf A :=
  {| config := config s; ws := ws s; sessionId := sessionId s;
     reconnectAttempts := reconnectAttempts s; subscriptions := x;
     settings := settings s; tpaConfig := tpaConfig s;
     shouldUpdateSubscriptionsOnSettingsChange := shouldUpdateSubscriptionsOnSettingsChange s;
     subscriptionSettingsHandler := subscriptionSettingsHandler s;
     subscriptionUpdateTriggers := subscriptionUpdateTriggers s |}.

Definition set_settings {A B} (x : B) (s : TpaSessionOf A) : TpaSessionOf B :=
  {| config := config s; ws := ws s; sessionId := sessionId s;
     reconnectAttempts := reconnectAttempts s; subscriptions := subscriptions s;
     settings := x; tpaConfig := tpaConfig s;
     shouldUpdateSubscriptionsOnSettingsChange := shouldUpdateSubscriptionsOnSettingsChange s;
     subscriptionSettingsHandler := subscriptionSettingsHandler s;
     subscriptionUpdateTriggers := subscriptionUpdateTriggers s |}.

Definition set_tpaConfig {A} (x : option TpaConfig) (s : TpaSessionOf A) : TpaSessionOf A :=
  {| config := config s; ws := ws s; sessionId := sessionId s;
     reconnectAttempts := reconnectAttempts s; subscriptions := subscriptions s;
     settings := settings s; tpaConfig := x;
     shouldUpdateSubscriptionsOnSettingsChange := shouldUpdateSubscriptionsOnSettingsChange s;
     subscriptionSettingsHandler := subscriptionSettingsHandler s;
     subscriptionUpdateTriggers := subscriptionUpdateTriggers s |}.

Definition set_subscriptionSettings {A} (triggers : list string)
    (handler : list AppSetting -> Result (list StreamType))
    (s : TpaSessionOf A) : TpaSessionOf A :=
  {| config := config s; ws := ws s; sessionId := sessionId s;
     reconnectAttempts := reconnectAttempts s; subscriptions := subscriptions s;
     settings := settings s; tpaConfig := tpaConfig s;
     shouldUpdateSubscriptionsOnSettingsChange := true;
     subscriptionSettingsHandler := Some handler;
     subscriptionUpdateTriggers := triggers |}.

(** What a session method does outside its own fields: it hands an event
    to [this.events.emit], writes a frame to the socket (the frame is
    [JSON.stringify] of the logged message), closes the socket, arms a
    timer and awaits it, or calls [connect]. *)
Inductive Effect :=
| Emit (event : EventType) (data : Payload)
| WsSend (message : JsValue)
| WsClose
| Wait (delay : Z)
| Connect (sessionId : option string).

Definition M := Prog TpaSession Effect.

(** [this.events.emit(event, data)]: [EventManager.emit] never throws
    (see [Events.emit]), so the call returns, and the session records that
    it made it. What the listeners and handlers do in their turn, when they
    call back into the session (the handlers of [handler.ts] write frames
    through [session.layouts]), is not among the effects of the session
    method that emitted the event. *)
Definition events_emit (event : EventType) (data : Payload) : M unit :=
  tell (Emit event data).

Definition emit_error (text : string) : M unit :=
  events_emit error (PError (Error text)).

(** [x || d] on an optional number: [undefined] and [0] give [d]. *)
Definition or_default (x : option Z) (d : Z) : Z :=
  match x with
  | Some n => if n =? 0 then d else n
  | None => d
  end.

(** [!!x] on an optional string: [null] and [''] are falsy. *)
Definition truthy_string (x : option string) : bool :=
  match x with
  | Some s => negb (String.eqb s "")
  | None => false
  end.

(** The constructor: the defaults, overridden by what [config] provides. *)
Definition new_TpaSession (cfg : TpaSessionConfig) : TpaSession :=
  {| config :=
       {| packageName := packageName cfg;
          apiKey := apiKey cfg;
          augmentOSWebsocketUrl :=
            Some (default "ws://dev.augmentos.org/tpa-ws" (augmentOSWebsocketUrl cfg));
          autoReconnect := Some (default false (autoReconnect cfg));
          maxReconnectAttempts := Some (default 0 (maxReconnectAttempts cfg));
          reconnectDelay := Some (default 1000 (reconnectDelay cfg)) |};
     ws := None;
     sessionId := None;
     reconnectAttempts := 0%nat;
     subscriptions := [];
     settings := [];
     tpaConfig := None;
     shouldUpdateSubscriptionsOnSettingsChange := false;
     subscriptionSettingsHandler := None;
     subscriptionUpdateTriggers := [] |}.

(** [this.subscriptions.add(type)]. *)
Definition subs_add (t : StreamType) (subs : list StreamType) : list StreamType :=
  if bool_decide (t ∈ subs) then subs else subs ++ [t].

(** The [Set] after [clear()] and one [add] per element of [tags]. *)
Definition subs_of_list (tags : list StreamType) : list StreamType :=
  fold_left (fun acc t => subs_add t acc) tags [].

(** An open socket that accepts frames, and one that is still connecting. *)
Definition open_socket : WebSocket := {| readyState := 1; sendError := None |}.
Definition connecting_socket : WebSocket := {| readyState := 0; sendError := None |}.

(** The configuration of the example in the class comment, with automatic
    reconnection switched on. *)
Definition example_config : TpaSessionConfig :=
  {| packageName := "org.example.myapp"; apiKey := "your_api_key";
     augmentOSWebsocketUrl := None; autoReconnect := Some true;
     maxReconnectAttempts := None; reconnectDelay := None |}.

(** [this.ws?.readyState === 1], also written [this.ws && this.ws.readyState === 1]. *)
Definition is_open (w : option WebSocket) : bool :=
  match w with
  | Some sock => readyState sock =? 1
  | None => false
  end.

(** The [stateMap] of [send], with its [|| 'UNKNOWN']. *)
Definition stateName (readyState : Z) : string :=
  if readyState =? 0 then "CONNECTING"
  else if readyState =? 1 then "OPEN"
  else if readyState =? 2 then "CLOSING"
  else if readyState =? 3 then "CLOSED"
  else "UNKNOWN".

(** [obj.name = v] on an object. *)
Fixpoint set_assoc (name : string) (v : JsValue) (props : list (string * JsValue))
  : list (string * JsValue) :=
  match props with
  | [] => [(name, v)]
  | (k, x) :: rest =>
      if String.eqb k name then (k, v) :: rest else (k, x) :: set_assoc name v rest
  end.

Definition set_prop (name : string) (v : JsValue) (obj : JsValue) : JsValue :=
  match obj with
  | JObj props => JObj (set_assoc name v props)
  | _ => obj
  end.

(** [x instanceof Date]. *)
Definition is_date (v : JsValue) : bool :=
  match v with JDate _ => true | _ => false end.

(** [!('timestamp' in message) || !(message.timestamp instanceof Date)]. *)
Definition needs_timestamp (message : JsValue) : Result bool :=
  if negb (has_prop "timestamp" message) then Ok true
  else result_bind (get_prop message "timestamp")
         (fun stamp => Ok (negb (is_date stamp))).

(** Modelled from the spec: the string values of [TpaToCloudMessageType]
    are declared outside these sources; the spec names the two outbound
    messages [CONNECTION_INIT] and [SUBSCRIPTION_UPDATE]. *)
Definition CONNECTION_INIT : string := "CONNECTION_INIT".
Definition SUBSCRIPTION_UPDATE : string := "SUBSCRIPTION_UPDATE".

(** The text [s] between double quotes. *)
Definition quoted (s : string) : string :=
  String (Ascii.ascii_of_nat 34) (s ++ String (Ascii.ascii_of_nat 34) "").

Definition js_string_opt (x : option string) : JsValue :=
  match x with Some s => JStr s | None => JNull end.

Section WithEnvironment.

(** The clock, read by [new Date()] and [Date.now()]. *)
Variable now : Z.

(** [validateTpaConfig], imported from [./augmentos]. *)
Variable validateTpaConfig : TpaConfig -> bool.

(** [send(message)]: the [try] block. *)
Definition send_body (message : JsValue) : M unit :=
  w <- gets ws;;
  match w with
  | None => throw (Error "WebSocket connection not established")
  | Some sock =>
      if negb (readyState sock =? 1) then
        throw (Error ("WebSocket not connected (current state: "
                      ++ stateName (readyState sock) ++ ")"))
      else if negb (truthy message) || negb (String.eqb (typeof message) "object") then
        throw (Error "Invalid message: must be an object")
      else if negb (has_prop "type" message) then
        throw (Error ("Invalid message: missing " ++ quoted "type" ++ " property"))
      else
        stale <- lift (needs_timestamp message);;
        let message :=
          if stale then set_prop "timestamp" (JDate now) message else message in
        match sendError sock with
        | Some text => throw (Error ("Failed to send message: " ++ text))
        | None => tell (WsSend message)
        end
  end.

(** [send(message)]: the [catch] emits the error and throws it again. *)
Definition send (message : JsValue) : M unit :=
  catch (send_body message)
        (fun err => events_emit error (PError err);; throw err).

Definition subscription_update (pkg : string) (subs : list StreamType)
    (sid : option string) : JsValue :=
  JObj [("type", JStr SUBSCRIPTION_UPDATE);
        ("packageName", JStr pkg);
        ("subscriptions", JArr (map (fun t => JStr (stream_name t)) subs));
        ("sessionId", js_string_opt sid);
        ("timestamp", JDate now)].

(** [updateSubscriptions()]. *)
Definition updateSubscriptions : M unit :=
  s <- gets (fun s => s);;
  send (subscription_update (packageName (config s)) (subscriptions s) (sessionId s)).

(** [sendConnectionInit()]. *)
Definition sendConnectionInit : M unit :=
  s <- gets (fun s => s);;
  send (JObj [("type", JStr CONNECTION_INIT);
              ("sessionId", js_string_opt (sessionId s));
              ("packageName", JStr (packageName (config s)));
              ("apiKey", JStr (apiKey (config s)));
              ("timestamp", JDate now)]).

(** [subscribe(type)]. *)
Definition subscribe (type : StreamType) : M unit :=
  modify (fun s => set_subscriptions (subs_add type (subscriptions s)) s);;
  w <- gets ws;;
  if is_open w then updateSubscriptions else ret tt.

(** [disconnect()]. *)
Definition disconnect : M unit :=
  w <- gets ws;;
  (match w with
   | Some _ => tell WsClose;; modify (set_ws None)
   | None => ret tt
   end);;
  modify (set_sessionId None);;
  modify (set_subscriptions []);;
  modify (set_reconnectAttempts 0%nat).

(** [getSettings()]: on values, the copy is the array's contents. *)
Definition getSettings : M (list AppSetting) := gets settings.

(** [getSetting(key)]. *)
Definition getSetting (k : string) : M Prim :=
  st <- gets settings;;
  ret (match find_setting k st with
       | Some setting => value setting
       | None => PUndefined
       end).

(** [updateSubscriptionsFromSettings()]. *)
Definition updateSubscriptionsFromSettings : M unit :=
  h <- gets subscriptionSettingsHandler;;
  match h with
  | None => ret tt
  | Some handler =>
      catch
        (st <- gets settings;;
         newSubscriptions <- lift (handler st);;
         modify (set_subscriptions []);;
         modify (fun s => set_subscriptions
                            (fold_left (fun acc t => subs_add t acc) newSubscriptions
                                       (subscriptions s)) s);;
         w <- gets ws;;
         if is_open w then updateSubscriptions else ret tt)
        (fun error => emit_error ("Failed to update subscriptions: " ++ message error))
  end.

(** [setSubscriptionSettings(options)]. *)
Definition setSubscriptionSettings (updateOnChange : list string)
    (handler : list AppSetting -> Result (list StreamType)) : M unit :=
  modify (set_subscriptionSettings updateOnChange handler);;
  st <- gets settings;;
  if Nat.ltb 0 (length st) then updateSubscriptionsFromSettings else ret tt.

(** [updateSettingsForTesting(newSettings)]. *)
Definition updateSettingsForTesting (newSettings : list AppSetting) : M unit :=
  modify (set_settings newSettings);;
  events_emit settings_update (PSettings newSettings);;
  should <- gets shouldUpdateSubscriptionsOnSettingsChange;;
  if should then updateSubscriptionsFromSettings else ret tt.

(** The [filter] of [getDefaultSettings]: [s.type !== 'group']. *)
Definition non_group (e : ConfigEntry) : option AppSetting :=
  match e with
  | Group _ => None
  | Setting s => if String.eqb (stype s) "group" then None else Some s
  end.

(** The [map] of [getDefaultSettings]: [{...s, value: s.defaultValue}]. *)
Definition with_default_value (s : AppSetting) : AppSetting :=
  {| key := key s; stype := stype s; value := defaultValue s;
     defaultValue := defaultValue s |}.

(** [getDefaultSettings()]. *)
Definition getDefaultSettings : M (list AppSetting) :=
  c <- gets tpaConfig;;
  match c with
  | None => throw (Error "TPA configuration not loaded. Call loadConfigFromJson first.")
  | Some c => ret (map with_default_value (omap non_group (config_settings c)))
  end.

(** A decoded inbound message, by the type guard that accepts it:
    [null] or [undefined], an object without [type], an [ArrayBuffer], the
    message kinds of [CloudToTpaMessage], and an object with any other
    [type]. An optional field that is absent (or falsy) is [None]; a
    [streamType] that is not a member of [StreamType] is [None] as well. *)
Inductive CloudToTpaMessage :=
| NoMessage
| Untyped
| Binary (byteLength : Z)
| TpaConnectionAck (settings : option (list AppSetting)) (config : option TpaConfig)
| TpaConnectionError (message : option string)
| AudioChunk (byteLength : Z) (sampleRate : option Z) (timestamp : Z)
| DataStream (streamType : option StreamType) (data : JsValue)
| SettingsUpdate (settings : option (list AppSetting))
| AppStopped (reason : option string)
| Unrecognized (type : string).

(** [validateMessage(message)]. *)
Definition validateMessage (message : CloudToTpaMessage) : bool :=
  match message with
  | Binary _ => true
  | NoMessage => false
  | Untyped => false
  | _ => true
  end.

(** [handleBinaryMessage(buffer)]. *)
Definition handleBinaryMessage (byteLength : Z) : M unit :=
  catch
    (subs <- gets subscriptions;;
     if negb (bool_decide (AUDIO_CHUNK ∈ subs)) then ret tt
     else if byteLength =? 0 then emit_error "Received empty binary message"
     else events_emit (Stream AUDIO_CHUNK) (PAudio byteLength (Some 16000) now))
    (fun error => emit_error ("Error processing binary message: " ++ message error)).

(** The callback of [subscriptionUpdateTriggers.some(...)] in the
    settings-update branch. *)
Definition trigger_fired (prevSettings newSettings : list AppSetting) (k : string) : bool :=
  match find_setting k prevSettings, find_setting k newSettings with
  | None, Some _ => true
  | Some oldSetting, Some newSetting => strict_neq (value oldSetting) (value newSetting)
  | _, None => false
  end.

(** The connection-ack branch of [handleMessage]. *)
Definition handleConnectionAck (msg_settings : option (list AppSetting))
    (msg_config : option TpaConfig) : M unit :=
  modify (set_settings (default [] msg_settings));;
  (match msg_config with
   | Some c => if validateTpaConfig c then modify (set_tpaConfig (Some c)) else ret tt
   | None => ret tt
   end);;
  s <- gets (fun s => s);;
  (if Nat.eqb (length (settings s)) 0 && bool_decide (is_Some (tpaConfig s)) then
     catch (d <- getDefaultSettings;; modify (set_settings d)) (fun _ => ret tt)
   else ret tt);;
  st <- gets settings;;
  events_emit connected (PSettings st);;
  updateSubscriptions;;
  should <- gets shouldUpdateSubscriptionsOnSettingsChange;;
  if should && Nat.ltb 0 (length st) then updateSubscriptionsFromSettings else ret tt.

(** The settings-update branch of [handleMessage]. *)
Definition handleSettingsUpdate (msg_settings : option (list AppSetting)) : M unit :=
  prevSettings <- gets settings;;
  modify (set_settings (default [] msg_settings));;
  st <- gets settings;;
  events_emit settings_update (PSettings st);;
  should <- gets shouldUpdateSubscriptionsOnSettingsChange;;
  if should then
    triggers <- gets subscriptionUpdateTriggers;;
    let shouldUpdateSubs := existsb (trigger_fired prevSettings st) triggers in
    if shouldUpdateSubs then updateSubscriptionsFromSettings else ret tt
  else ret tt.

(** [handleMessage(message)]. *)
Definition handleMessage (msg : CloudToTpaMessage) : M unit :=
  catch
    (if negb (validateMessage msg) then emit_error "Invalid message format received"
     else
       match msg with
       | Binary byteLength => handleBinaryMessage byteLength
       | _ =>
           catch
             (match msg with
              | TpaConnectionAck st c => handleConnectionAck st c
              | TpaConnectionError text =>
                  emit_error (if truthy_string text then default "" text
                              else "Unknown connection error")
              | AudioChunk len rate ts =>
                  subs <- gets subscriptions;;
                  if bool_decide (AUDIO_CHUNK ∈ subs)
                  then events_emit (Stream AUDIO_CHUNK) (PAudio len rate ts)
                  else ret tt
              | DataStream streamType data =>
                  subs <- gets subscriptions;;
                  match streamType with
                  | Some t =>
                      if bool_decide (t ∈ subs)
                      then events_emit (Stream t)
                             (PData (Sanitizer.sanitizeEventData now t data))
                      else ret tt
                  | None => ret tt
                  end
              | SettingsUpdate st => handleSettingsUpdate st
              | AppStopped reason =>
                  events_emit disconnected
                    (PReason ("App stopped: "
                              ++ (if truthy_string reason then default "" reason
                                  else "unknown")))
              | Unrecognized type =>
                  emit_error ("Unrecognized message type: " ++ type)
              | _ => ret tt
              end)
             (fun processingError =>
                emit_error ("Error processing message: " ++ message processingError))
       end)
    (fun error =>
       emit_error ("Unexpected error in message handler: " ++ message error)).

(** [connect(sessionId)], awaited: the upgrade request, the handshake and
    the five-second timer are the environment's; what matters to
    [handleReconnection] is whether the promise resolves or rejects. *)
Variable connect : option string -> M unit.

(** The guard of [handleReconnection]. *)
Definition reconnection_blocked (s : TpaSession) : bool :=
  negb (default false (autoReconnect (config s)))
  || negb (truthy_string (sessionId s))
  || (or_default (maxReconnectAttempts (config s)) 5 <=? Z.of_nat (reconnectAttempts s)).

(** The delay of the next attempt. *)
Definition reconnection_delay (s : TpaSession) : Z :=
  or_default (reconnectDelay (config s)) 1000 * 2 ^ Z.of_nat (reconnectAttempts s).

(** [handleReconnection()] up to its first [await]: the guard, the delay,
    the counter, the timer. The result is the delay the timer was armed
    with, if any. *)
Definition handleReconnection_arm : M (option Z) :=
  s <- gets (fun s => s);;
  if reconnection_blocked s then ret None
  else
    let delay := reconnection_delay s in
    modify (set_reconnectAttempts (S (reconnectAttempts s)));;
    tell (Wait delay);;
    ret (Some delay).

(** [handleReconnection()] once the timer has fired. *)
Definition handleReconnection_resume : M unit :=
  catch
    (sid <- gets sessionId;;
     tell (Connect sid);;
     connect sid;;
     modify (set_reconnectAttempts 0%nat))
    (fun _ => emit_error "Reconnection failed").

(** [handleReconnection()], run without interruption. *)
Definition handleReconnection : M unit :=
  armed <- handleReconnection_arm;;
  match armed with
  | None => ret tt
  | Some _ => handleReconnection_resume
  end.

(** The channel closes [n] times in a row, and each close runs
    [handleReconnection] to its end. *)
Fixpoint closes (n : nat) : M unit :=
  match n with
  | O => ret tt
  | S n' => handleReconnection;; closes n'
  end.

(** What a recomputation of the subscriptions from the settings comes to
    on an open channel that accepts frames: the handler's tags replace the
    subscription set and the new list is pushed; a handler that throws
    leaves the set alone and produces an [error] event. *)
Definition recomputed (s : TpaSession) : TpaSession * list Effect :=
  match subscriptionSettingsHandler s with
  | None => (s, [])
  | Some handler =>
      match handler (settings s) with
      | Ok tags =>
          (set_subscriptions (subs_of_list tags) s,
           [WsSend (subscription_update (packageName (config s))
                      (subs_of_list tags) (sessionId s))])
      | Throw e =>
          (s, [Emit error
                 (PError (Error ("Failed to update subscriptions: " ++ message e)))])
      end
  end.

End WithEnvironment.

(** The timers awaited and the [connect] calls of a log, in order. *)
Definition reconnect_steps (log : list Effect) : list Effect :=
  List.filter (fun e => match e with Wait _ | Connect _ => true | _ => false end) log.

(** The steps of [k] reconnection attempts in a row that start with the
    counter at [a]: the attempts are numbered [a + 1], ..., [a + k], and
    attempt [N] waits [base * 2 ^ (N - 1)], then calls [connect] with the
    session id. *)
Definition backoff_steps (base : Z) (a : nat) (sid : option string) (k : nat)
  : list Effect :=
  flat_map (fun N => [Wait (base * 2 ^ (Z.of_nat N - 1)); Connect sid])
           (seq (S a) k).

(** A [connect] whose promise resolves, seen from its caller: it changes
    no field. *)
Definition resolving_connect (sid : option string) : M unit := ret tt.

(** [connect(sessionId)] against a peer that never answers, up to the
    rejection of its promise: the assignment of [this.sessionId], the close
    of a socket that is not closed yet, the check of the configured URL,
    and the five-second timeout, which emits an [error] event and rejects.
    The upgrade request itself is the environment's. *)
Definition unanswered_connect (sid : option string) : M unit :=
  modify (set_sessionId sid);;
  w <- gets ws;;
  (match w with
   | Some sock =>
       if negb (readyState sock =? 3) then tell WsClose;; modify (set_ws None)
       else ret tt
   | None => ret tt
   end);;
  url <- gets (fun s => augmentOSWebsocketUrl (config s));;
  if negb (truthy_string url) then throw (Error "WebSocket URL is required")
  else
    emit_error "Connection timeout after 5000ms";;
    throw (Error "Connection timeout").

(** The example configuration with the maximum set to zero, and a session
    built from it that has been given a session id. *)
Definition zero_maximum_config : TpaSessionConfig :=
  {| packageName := "org.example.myapp"; apiKey := "your_api_key";
     augmentOSWebsocketUrl := None; autoReconnect := Some true;
     maxReconnectAttempts := Some 0; reconnectDelay := None |}.

Definition zero_maximum_session : TpaSession :=
  set_sessionId (Some "session_123") (new_TpaSession zero_maximum_config).

(** The value of the key [k] in a settings list, if the list has the key,
    as [getSetting] reads it: the value of a watched key that a settings
    update compares. *)
Definition setting_value (k : string) (st : list AppSetting) : option Prim :=
  value <$> find_setting k st.

(** A session of the example configuration on an open channel, with a
    handler registered for transcriptions. *)
Definition example_session : TpaSession :=
  set_ws (Some open_socket)
    (set_subscriptions [TRANSCRIPTION]
       (set_sessionId (Some "session_123") (new_TpaSession example_config))).

Definition vol_setting : AppSetting :=
  {| key := "vol"; stype := "slider"; value := PNum 5; defaultValue := PNum 1 |}.

Definition captions_setting (on : bool) : AppSetting :=
  {| key := "captions"; stype := "toggle"; value := PBool on;
     defaultValue := PBool false |}.

(** A subscription handler: transcriptions when captions are switched on. *)
Definition captions_handler (st : list AppSetting) : Result (list StreamType) :=
  match find_setting "captions" st with
  | Some setting =>
      if bool_decide (value setting = PBool true) then Ok [TRANSCRIPTION] else Ok []
  | None => Ok []
  end.

(** A configuration with a heading and two settings; captions are on by
    default. *)
Definition example_tpa_config : TpaConfig :=
  {| config_name := "Example";
     config_settings :=
       [Group "Audio";
        Setting vol_setting;
        Setting {| key := "captions"; stype := "toggle"; value := PBool false;
                   defaultValue := PBool true |}] |}.

(** A session that watches the captions setting, with captions on and the
    transcription stream subscribed. *)
Definition captions_session : TpaSession :=
  set_settings [captions_setting true]
    (set_subscriptionSettings ["captions"] captions_handler example_session).

(** The [Connect] entries of a log. *)
Definition connect_calls (log : list Effect) : list (option string) :=
  omap (fun e => match e with Connect sid => Some sid | _ => None end) log.

(** The [error] events of a log. *)
Definition error_emits (log : list Effect) : list Payload :=
  omap (fun e => match e with Emit error d => Some d | _ => None end) log.

(** The frames of a log. *)
Definition frames (log : list Effect) : list JsValue :=
  omap (fun e => match e with WsSend f => Some f | _ => None end) log.

End Session.

(** ** The session and its event manager *)

Module Runtime.

Import Events Session.

(** The events of a session log reach the event manager in the order in
    which the session emitted them. *)
Fixpoint route (log : list Effect) : EM unit :=
  match log with
  | [] => ret tt
  | Emit event data :: rest => emit event data;; route rest
  | _ :: rest => route rest
  end.

(** An event manager with one handler for head positions and one [error]
    listener, both of which return. *)
Definition listening : EventManager :=
  onError (quiet_handler 9)
    (snd (fst (onHeadPosition (quiet_handler 1) (new_EventManager (fun _ => None))))).

End Runtime.

(** ** Settings as heap objects *)

(** [getSettings] returns a new array that holds the same setting objects.
    Where the identity of the array matters, [this.settings] is a
    reference into a store of arrays and setting objects. *)
Module Aliasing.

Import Session.

Definition loc := positive.

Inductive Cell :=
| ArrayCell (elems : list loc)
| SettingCell (s : AppSetting).

Abbreviation heap := (gmap loc Cell).

Abbreviation RefSession := (TpaSessionOf loc).

(** The elements of the array at [a]. *)
Definition array_at (h : heap) (a : loc) : list loc :=
  match h !! a with
  | Some (ArrayCell elems) => elems
  | _ => []
  end.

Definition setting_at (h : heap) (r : loc) : option AppSetting :=
  match h !! r with
  | Some (SettingCell s) => Some s
  | _ => None
  end.

(** The settings an array of references denotes. *)
Definition settings_value (h : heap) (a : loc) : list AppSetting :=
  omap (setting_at h) (array_at h a).

(** The session with its settings read out of the store. *)
Definition abstract (s : RefSession) (h : heap) : TpaSession :=
  set_settings (settings_value h (settings s)) s.

(** [getSettings()]: [[...this.settings]] allocates an array with the
    elements of [this.settings]. *)
Definition getSettings (s : RefSession) (h : heap) : RefSession * heap * loc :=
  let a := fresh (dom h) in
  (s, <[a := ArrayCell (array_at h (settings s))]> h, a).

(** [getSetting(key)]. *)
Definition getSetting (k : string) (s : RefSession) (h : heap) : RefSession * heap * Prim :=
  (s, h,
   match find_setting k (settings_value h (settings s)) with
   | Some setting => value setting
   | None => PUndefined
   end).

(** A mutation of the array at [a] ([push], [pop], [splice], [sort], an
    assignment to an index or to [length]): its elements become [elems]. *)
Definition array_mutate (a : loc) (elems : list loc) (h : heap) : heap :=
  <[a := ArrayCell elems]> h.

(** [arr[i].value = v]: a write to the setting object that the array's
    element [i] refers to. *)
Definition element_write (a : loc) (i : nat) (v : Prim) (h : heap) : heap :=
  match array_at h a !! i with
  | Some r =>
      match setting_at h r with
      | Some s =>
          <[r := SettingCell {| key := key s; stype := stype s; value := v;
                                defaultValue := defaultValue s |}]> h
      | None => h
      end
  | None => h
  end.

(** A store with the settings array at 1 and one setting object at 2. *)
Definition example_heap : heap :=
  <[1%positive := ArrayCell [2%positive]]>
    (<[2%positive := SettingCell Session.vol_setting]> ∅).

Definition example_ref_session : RefSession :=
  set_settings 1%positive (new_TpaSession example_config).

End Aliasing.

(** ** Watching one setting *)

Module SettingChange.

Import Events.

(** A settings snapshot reaches the manager with the [connected] event or
    with a [settings_update] event. *)
Inductive Snapshot :=
| AtConnect (settings : list AppSetting)
| AtUpdate (settings : list AppSetting).

Definition snapshot_event (e : Snapshot) : EventType :=
  match e with
  | AtConnect _ => connected
  | AtUpdate _ => settings_update
  end.

Definition snapshot_settings (e : Snapshot) : list AppSetting :=
  match e with
  | AtConnect st => st
  | AtUpdate st => st
  end.

(** The snapshots are emitted one after the other. *)
Fixpoint deliver (snapshots : list Snapshot) : EM unit :=
  match snapshots with
  | [] => ret tt
  | e :: rest =>
      emit (snapshot_event e) (PSettings (snapshot_settings e));; deliver rest
  end.

(** A manager on which [onSettingChange(k, cb)] has just been called. *)
Definition watching (k : string) (cb : SettingCallback) : EventManager :=
  snd (onSettingChange k cb (new_EventManager (fun _ => None))).

(** The manager after the snapshots [pre]. *)
Definition after (pre : list Snapshot) (m : EventManager) : EventManager :=
  snd (fst (deliver pre m)).

(** The calls made while [e] is emitted on the manager [m]. *)
Definition calls_on (e : Snapshot) (m : EventManager) : list Call :=
  snd (emit (snapshot_event e) (PSettings (snapshot_settings e)) m).

(** The value of [k] in a snapshot, if the snapshot has the key. *)
Definition value_in (k : string) (e : Snapshot) : option Prim :=
  value <$> find_setting k (snapshot_settings e).

(** The last observed value of [k]: its value in the latest snapshot that
    has the key, [undefined] before the first one. *)
Definition last_observed (k : string) (pre : list Snapshot) : Prim :=
  fold_left (fun last e => default last (value_in k e)) pre PUndefined.

(** What the claim asks of the callback for the snapshot [e] that follows
    [pre]: one call with the new and the last observed value when they
    differ, no call otherwise. *)
Definition expected_calls (k : string) (cb : SettingCallback)
    (pre : list Snapshot) (e : Snapshot) : list Call :=
  match value_in k e with
  | Some v =>
      if bool_decide (v = last_observed k pre) then []
      else [SettingChanged (cbid cb) v (last_observed k pre)]
  | None => []
  end.

(** The manager [m] once [onSettingChange(k, cb)] has been called on it. *)
Definition registering (k : string) (cb : SettingCallback) (m : EventManager)
  : EventManager :=
  snd (onSettingChange k cb m).

(** The calls made to the callback function [n]. *)
Definition cb_calls (n : nat) (log : list Call) : list Call :=
  List.filter (fun c => match c with
                        | SettingChanged n' _ _ => Nat.eqb n' n
                        | _ => false
                        end) log.

(** A call that is not a call of the callback function [n]. *)
Definition other_call (n : nat) (c : Call) : Prop :=
  match c with
  | SettingChanged n' _ _ => n' <> n
  | _ => True
  end.

(** What the closure of [onSettingChange(k, cb)] does with its
    [previousValue] [p] on one snapshot: the assignment
    [previousValue = newValue] is reached when the value differs and the
    callback has returned. *)
Definition record_step (k : string) (cb : SettingCallback) (p : Prim) (e : Snapshot)
  : Prim :=
  match value_in k e with
  | Some v =>
      if bool_decide (v = p) then p
      else match cbrun cb v p with
           | None => v
           | Some _ => p
           end
  | None => p
  end.

(** The [previousValue] of the closure after the snapshots [pre]. *)
Definition recorded (k : string) (cb : SettingCallback) (pre : list Snapshot) : Prim :=
  fold_left (record_step k cb) pre PUndefined.

(** A listener that returns whenever it is called: a function of the
    application that never throws, or one of the [settingsHandler] closures
    created so far, whose [catch] swallows everything. *)
Definition returning (m : EventManager) (l : Listener) : Prop :=
  match l with
  | UserListener h => forall d, hrun h d = None
  | SettingsListener c => (c < length (closures m))%nat
  end.

(** What a call of [onSettingChange(k, cb)] finds in the manager: the
    listeners already registered for the two settings events return, no
    handler set is kept under these events (the class keeps handler sets
    under stream tags only), and [cb] is not the callback of an earlier
    [onSettingChange]. *)
Definition ready_for (cb : SettingCallback) (m : EventManager) : Prop :=
  Forall (returning m) (listeners connected m) /\
  Forall (returning m) (listeners settings_update m) /\
  handlers m !! connected = None /\
  handlers m !! settings_update = None /\
  Forall (fun c => cbid (ccallback c) <> cbid cb) (closures m).

(** A listener that returns and is not the closure [cid], and whose
    callback, if it is a closure, is not the function [n]; [cbs] are the
    callbacks of the closures created so far. *)
Definition foreign (n cid : nat) (cbs : list SettingCallback) (l : Listener) : Prop :=
  match l with
  | UserListener h => forall d, hrun h d = None
  | SettingsListener c => c <> cid /\ forall f, cbs !! c = Some f -> cbid f <> n
  end.

(** Every [settingsHandler] registered on the emitter is one of the
    closures created so far. *)
Definition closures_known (m : EventManager) : Prop :=
  forall ev c, SettingsListener c ∈ listeners ev m -> (c < length (closures m))%nat.

(** The registration made by [onSettingChange(k, cb)] on [m] is in place
    in [m'], and its closure holds [p] in [previousValue]. *)
Definition watched (k : string) (cb : SettingCallback) (m : EventManager) (p : Prim)
    (m' : EventManager) : Prop :=
  emitter m' = emitter (registering k cb m) /\
  handlers m' = handlers m /\
  map ccallback (closures m') = map ccallback (closures m) ++ [cb] /\
  closures m' !! length (closures m) =
    Some {| ckey := k; ccallback := cb; previousValue := p |}.

(** The emitter of [m] is [E], and the callbacks of its closures are
    [CB]. *)
Definition registered_as (E : gmap EventType (list Listener))
    (CB : list SettingCallback) (m : EventManager) : Prop :=
  emitter m = E /\ map ccallback (closures m) = CB.

(** A manager as [connect] leaves it: two [connected] listeners that
    resolve the promise, an [error] listener of the application, and an
    earlier [onSettingChange] for another key. *)
Definition connected_manager : EventManager :=
  snd (onSettingChange "theme" {| cbid := 5; cbrun := fun _ _ => None |}
         (onConnected (quiet_handler 4)
            (onConnected (quiet_handler 3)
               (onError (quiet_handler 9) (new_EventManager (fun _ => None)))))).

(** A callback that throws on every call, and one that always returns. *)
Definition throwing_callback (n : nat) : SettingCallback :=
  {| cbid := n; cbrun := fun _ _ => Some (Error "callback failed") |}.

Definition quiet_callback (n : nat) : SettingCallback :=
  {| cbid := n; cbrun := fun _ _ => None |}.

Definition one_setting (k : string) (v : Prim) : list AppSetting :=
  [{| key := k; stype := "text"; value := v; defaultValue := PUndefined |}].

End SettingChange.

(** ** What a program keeps and what it logs *)

Section ProgInvariants.
Context {S L : Type}.

(** Every run of [p] leaves a state related by [R] to the one it started
    in, whether it returns or throws. *)
Definition keeps {A} (R : S -> S -> Prop) (p : Prog S L A) : Prop :=
  forall s, R s (snd (fst (p s))).

(** Every entry [p] logs satisfies [P]. *)
Definition logs {A} (P : L -> Prop) (p : Prog S L A) : Prop :=
  forall s, Forall P (snd (p s)).

(** From a state that satisfies [I], [p] leaves a state that satisfies
    [I], whether it returns or throws, and every entry it logs satisfies
    [P]. *)
Definition holds {A} (I : S -> Prop) (P : L -> Prop) (p : Prog S L A) : Prop :=
  forall s, I s -> I (snd (fst (p s))) /\ Forall P (snd (p s)).

End ProgInvariants.

(** ** More of the event manager *)

Module Registry.

Import Events.

(** The registrations of a manager: its emitter listeners, its stream
    handlers and its [subscribe] callback, and how many [settingsHandler]
    closures exist. *)
Definition same_registrations (m m' : EventManager) : Prop :=
  emitter m' = emitter m /\
  handlers m' = handlers m /\
  subscribe m' = subscribe m /\
  length (closures m') = length (closures m).

(** A call made while [ev] is dispatched on the emitter: a listener
    invoked with [ev], or a setting callback. *)
Definition dispatch_call (ev : EventType) (c : Call) : Prop :=
  match c with
  | Invoked _ ev' _ => ev' = ev
  | SettingChanged _ _ _ => True
  | Subscribed _ => False
  end.

(** A call [emit] may make for the event [ev]: a handler or listener
    invoked with [ev] or with [error], or a setting callback; never the
    [subscribe] callback. *)
Definition emit_call (ev : EventType) (c : Call) : Prop :=
  match c with
  | Invoked _ ev' _ => ev' = ev \/ ev' = error
  | SettingChanged _ _ _ => True
  | Subscribed _ => False
  end.

(** The cleanup functions returned by [onConnected], [onDisconnected],
    [onError] and [onSettingsUpdate]. *)
End Registry.

(** ** More of the session *)

Module Lifecycle.

Import Events Session.

(** The fields an inbound message never writes: the configuration, the
    channel handle, the session id, the attempt counter and the
    settings-driven subscription mode. *)
Definition same_connection (s s' : TpaSession) : Prop :=
  config s' = config s /\ ws s' = ws s /\ sessionId s' = sessionId s /\
  reconnectAttempts s' = reconnectAttempts s /\
  shouldUpdateSubscriptionsOnSettingsChange s' =
    shouldUpdateSubscriptionsOnSettingsChange s /\
  subscriptionSettingsHandler s' = subscriptionSettingsHandler s /\
  subscriptionUpdateTriggers s' = subscriptionUpdateTriggers s.

(** The settings and the loaded configuration. *)
Definition same_settings (s s' : TpaSession) : Prop :=
  settings s' = settings s /\ tpaConfig s' = tpaConfig s.

(** An event that is not a stream event, or a frame. *)
Definition system_effect (e : Effect) : Prop :=
  match e with
  | Emit (Stream _) _ => False
  | Emit _ _ | WsSend _ => True
  | _ => False
  end.

(** An event of a stream in [subs], an event that is not a stream event,
    or a frame. *)
Definition delivery_of (subs : list StreamType) (e : Effect) : Prop :=
  match e with
  | Emit (Stream t) _ => t ∈ subs
  | Emit _ _ | WsSend _ => True
  | _ => False
  end.

(** The messages whose branch of [handleMessage] assigns [this.settings]. *)
Definition carries_settings (msg : CloudToTpaMessage) : bool :=
  match msg with
  | TpaConnectionAck _ _ | SettingsUpdate _ => true
  | _ => false
  end.

End Lifecycle.

(** ** The configuration methods of the session *)

Module Configuration.

Import Session.

Section WithParser.

(** [JSON.parse], read at the type the source gives its result when it
    hands it to the type guard: the value, or the [SyntaxError] thrown. *)
Variable JSON_parse : string -> Result TpaConfig.

(** [validateTpaConfig], imported from [./augmentos]. *)
Variable validateTpaConfig : TpaConfig -> bool.

(** [loadConfigFromJson(jsonData)]. *)
Definition loadConfigFromJson (jsonData : string) : M TpaConfig :=
  catch
    (parsedConfig <- lift (JSON_parse jsonData);;
     if validateTpaConfig parsedConfig then
       modify (set_tpaConfig (Some parsedConfig));;
       ret parsedConfig
     else throw (Error "Invalid TPA configuration format"))
    (fun err => throw (Error ("Failed to load TPA configuration: " ++ message err))).

End WithParser.

(** [getConfig()]. *)
Definition getConfig : M (option TpaConfig) := gets tpaConfig.

(** The callback of [find] in [getSettingSchema]:
    [s.type !== 'group' && 'key' in s && s.key === key]. *)
Definition is_schema_of (k : string) (e : ConfigEntry) : bool :=
  match e with
  | Group _ => false
  | Setting s => negb (String.eqb (stype s) "group") && String.eqb (key s) k
  end.

(** [getSettingSchema(key)]. *)
Definition getSettingSchema (k : string) : M (option AppSetting) :=
  c <- gets tpaConfig;;
  match c with
  | None => ret None
  | Some c =>
      ret (match List.find (is_schema_of k) (config_settings c) with
           | Some (Setting s) => Some s
           | _ => None
           end)
  end.

End Configuration.

(** * Properties *)

(** ** Sanitization *)

Section SanitizerProperties.
Import Sanitizer.

Lemma has_string_prop_typeof name props :
  has_string_prop name (JObj props) =
  String.eqb (typeof (default JUndefined (assoc name props))) "string".
Proof. simpl. destruct (assoc name props) as [[]|]; reflexivity. Qed.

Lemma has_truthy_prop_has_prop name v :
  has_truthy_prop name v = true -> has_prop name v = true.
Proof.
  destruct v; simpl; try discriminate.
  destruct (assoc name props); [intros _ | discriminate].
  apply bool_decide_eq_true. by eexists.
Qed.

(** The body of [sanitizeEventData] never throws: after the guard on
    [null] and [undefined] every property read succeeds. *)
Lemma sanitize_body_ok now t data :
  sanitize_body now t data = Ok (sanitizeEventData now t data).
Proof.
  unfold sanitizeEventData.
  destruct (sanitize_body now t data) as [v|e] eqn:E; [reflexivity|].
  exfalso. unfold sanitize_body in E.
  destruct data; simpl in E; try discriminate;
    destruct t; simpl in E; try discriminate;
    repeat match type of E with
           | context [if ?b then _ else _] => destruct b; simpl in E
           end; discriminate.
Qed.

Lemma sanitize_transcription now data :
  sanitizeEventData now TRANSCRIPTION data =
  if is_nullish data then JObj []
  else if has_string_prop "text" data then data
  else empty_transcription now.
Proof.
  unfold sanitizeEventData, sanitize_body.
  destruct data; try reflexivity.
  cbn [is_nullish get_prop result_bind]. rewrite has_string_prop_typeof.
  unfold default. by destruct (String.eqb _ "string").
Qed.

Lemma sanitize_head_position now data :
  sanitizeEventData now HEAD_POSITION data =
  if is_nullish data then JObj []
  else if has_string_prop "position" data then data
  else default_head_position now.
Proof.
  unfold sanitizeEventData, sanitize_body.
  destruct data; try reflexivity.
  cbn [is_nullish get_prop_opt get_prop result_bind]. rewrite has_string_prop_typeof.
  unfold default. by destruct (String.eqb _ "string").
Qed.

Lemma sanitize_button_press now data :
  sanitizeEventData now BUTTON_PRESS data =
  if is_nullish data then JObj []
  else if has_truthy_prop "buttonId" data && has_truthy_prop "pressType" data
       then data
       else default_button_press now.
Proof.
  unfold sanitizeEventData, sanitize_body.
  destruct data; try reflexivity.
  cbn [is_nullish get_prop result_bind has_truthy_prop].
  destruct (assoc "buttonId" props) as [b|]; cbn [truthy negb andb try_catch];
    [destruct (truthy b)|]; cbn [negb andb try_catch]; try reflexivity.
  destruct (assoc "pressType" props) as [p|]; cbn [truthy negb try_catch];
    [destruct (truthy p)|]; reflexivity.
Qed.

(** C1, as the claim states it, fails: a [null] payload on the
    transcription stream is sanitized to the empty object, which has no
    [text] field. *)
Lemma sanitize_null_payload_has_no_text :
  sanitizeEventData 0 TRANSCRIPTION JNull = JObj [] /\
  min_shape TRANSCRIPTION (sanitizeEventData 0 TRANSCRIPTION JNull) = false.
Proof. split; reflexivity. Qed.

(** C1, amended: for every stream type and every payload other than [null]
    and [undefined], the sanitized payload satisfies the minimum shape of
    its stream: a transcription has a string [text] (the payload itself, or
    the empty final record), a head position has a string [position] (the
    payload itself, or the default "up"), a button press has [buttonId] and
    [pressType] (the payload itself when both are truthy, or the default
    "unknown"/"short"). A [null] or [undefined] payload is sanitized to the
    empty object. No exception leaves the function: its body never throws,
    and the [catch] would return the empty object. *)
Theorem sanitizeEventData_min_shape now t data :
  (if is_nullish data
   then sanitizeEventData now t data = JObj []
   else min_shape t (sanitizeEventData now t data) = true) /\
  sanitizeEventData now TRANSCRIPTION data =
    (if is_nullish data then JObj []
     else if has_string_prop "text" data then data
     else JObj [("text", JStr ""); ("isFinal", JBool true);
                ("startTime", JNum now); ("endTime", JNum now)]) /\
  sanitizeEventData now HEAD_POSITION data =
    (if is_nullish data then JObj []
     else if has_string_prop "position" data then data
     else JObj [("position", JStr "up"); ("timestamp", JDate now)]) /\
  sanitizeEventData now BUTTON_PRESS data =
    (if is_nullish data then JObj []
     else if has_truthy_prop "buttonId" data && has_truthy_prop "pressType" data
          then data
          else JObj [("buttonId", JStr "unknown"); ("pressType", JStr "short");
                     ("timestamp", JDate now)]) /\
  sanitize_body now t data = Ok (sanitizeEventData now t data).
Proof.
  split; [|repeat split; auto using sanitize_transcription,
             sanitize_head_position, sanitize_button_press, sanitize_body_ok].
  destruct (is_nullish data) eqn:N.
  - destruct data; try discriminate; by destruct t.
  - destruct t; try reflexivity; cbn [min_shape].
    + rewrite sanitize_button_press, N.
      destruct (has_truthy_prop "buttonId" data) eqn:B;
        destruct (has_truthy_prop "pressType" data) eqn:P;
        cbn [andb]; try reflexivity.
      by rewrite (has_truthy_prop_has_prop _ _ B), (has_truthy_prop_has_prop _ _ P).
    + rewrite sanitize_head_position, N.
      by destruct (has_string_prop "position" data) eqn:Hp.
    + rewrite sanitize_transcription, N.
      by destruct (has_string_prop "text" data) eqn:Hp.
Qed.

End SanitizerProperties.

(** ** The event manager *)

Section EventProperties.
Import Events.

Lemma set_add_nonempty h hs : set_add h hs <> [].
Proof.
  unfold set_add. destruct (set_has h hs) eqn:E.
  - destruct hs; [discriminate | done].
  - by destruct hs.
Qed.

Lemma registered_insert t hs m g :
  registered t (set_handlers (<[Stream t := hs]> g) m) = hs.
Proof. unfold registered. simpl. by rewrite lookup_insert_eq. Qed.

(** [addHandler], case by case. *)
Lemma addHandler_unfold t h m :
  addHandler t h m =
  match registered t m with
  | [] =>
      let m1 := set_handlers (<[Stream t := []]> (handlers m)) m in
      match subscribe m t with
      | Some e => (Throw e, m1, [Subscribed t])
      | None =>
          (Ok tt, set_handlers (<[Stream t := set_add h []]> (handlers m1)) m1,
           [Subscribed t])
      end
  | hs => (Ok tt, set_handlers (<[Stream t := set_add h hs]> (handlers m)) m, [])
  end.
Proof.
  unfold addHandler, bind, gets, modify, tell, call, ret, throw.
  fold (registered t m).
  destruct (registered t m) as [|x xs]; cbn.
  - by destruct (subscribe m t).
  - reflexivity.
Qed.

Lemma addHandler_registered_quiet t h m :
  registered t m <> [] -> calls_of (addHandler t h m) = [].
Proof.
  intros Hne. rewrite addHandler_unfold. by destruct (registered t m).
Qed.

(** C7: registering a handler for a stream tag calls the [subscribe]
    callback exactly once when no handler is registered for the tag, and
    not at all when one is. After a registration that returned, the tag has
    a handler, so a further registration for it calls [subscribe] zero
    times. (When [subscribe] throws, the handler is not added and the tag
    still has none.) *)
Theorem addHandler_subscribes_once t h m :
  calls_of (addHandler t h m) =
    (if bool_decide (registered t m = []) then [Subscribed t] else []) /\
  match fst (fst (addHandler t h m)) with
  | Ok _ =>
      registered t (state_of (addHandler t h m)) = set_add h (registered t m) /\
      forall h', calls_of (addHandler t h' (state_of (addHandler t h m))) = []
  | Throw _ =>
      registered t m = [] /\ registered t (state_of (addHandler t h m)) = []
  end.
Proof.
  pose proof (addHandler_registered_quiet t) as Hnext.
  rewrite addHandler_unfold.
  destruct (registered t m) as [|x xs] eqn:R.
  - cbn zeta. destruct (subscribe m t) as [e|]; cbn [fst snd calls_of state_of].
    + split; [done|]. split; [done|]. apply registered_insert.
    + split; [done|]. split; [apply registered_insert|].
      intros h'. apply Hnext. rewrite registered_insert. apply set_add_nonempty.
  - cbn [fst snd calls_of state_of]. split; [done|]. split; [apply registered_insert|].
    intros h'. apply Hnext. rewrite registered_insert. apply set_add_nonempty.
Qed.

(** [removeHandler] deletes by identity; the entry goes with its last
    handler. *)
Lemma removeHandler_registered t h m :
  registered t (state_of (removeHandler t h m)) = set_delete h (registered t m).
Proof.
  unfold removeHandler, registered, state_of, bind, gets, modify, ret.
  destruct (handlers m !! Stream t) as [hs|] eqn:E; cbn.
  - destruct (set_delete h hs) as [|x xs] eqn:D; cbn.
    + by rewrite lookup_delete_eq.
    + by rewrite lookup_insert_eq.
  - by rewrite E.
Qed.

Lemma run_listeners_quiet ev data els m :
  Forall quiet_listener els ->
  run_listeners ev data els m =
  (Ok tt, m, map (fun l => Invoked (listener_id l) ev data) els).
Proof.
  induction 1 as [|l els Hl _ IH]; [reflexivity|].
  destruct l as [h|]; [|done]. cbn in Hl.
  cbn [run_listeners call_listener]. unfold bind at 1.
  unfold bind at 1, tell, call. rewrite Hl. cbn. by rewrite IH.
Qed.

Lemma emitter_emit_error_quiet data els m :
  emitter m !! error = Some els -> els <> [] -> Forall quiet_listener els ->
  emitter_emit error data m =
  (Ok tt, m, map (fun l => Invoked (listener_id l) error data) els).
Proof.
  intros Hels Hne Hq. unfold emitter_emit, bind, gets, listeners.
  rewrite Hels. cbn [default]. destruct els as [|l els]; [done|].
  cbv [id]. cbv beta iota. by rewrite run_listeners_quiet.
Qed.

Lemma forEach_handler_isolated t data hs els m :
  emitter m !! error = Some els -> els <> [] -> Forall quiet_listener els ->
  forEach_handler (Stream t) data hs m =
  (Ok tt, m, isolated_calls (Stream t) data els hs).
Proof.
  intros Hels Hne Hq. induction hs as [|h hs IH]; [reflexivity|].
  cbn [forEach_handler isolated_calls flat_map].
  rewrite bool_decide_true by done.
  unfold bind at 1. unfold catch, bind at 1, tell, call.
  destruct (hrun h data) as [e|]; cbn -[emitter_emit forEach_handler].
  - rewrite (emitter_emit_error_quiet _ els) by done. by rewrite IH.
  - by rewrite IH.
Qed.

(** With an [error] listener that returns, [emit] on a stream tag calls
    every registered handler, and each handler that throws produces one
    [error] event. *)
Lemma emit_isolated t data hs els m :
  emitter m !! Stream t = None ->
  handlers m !! Stream t = Some hs ->
  emitter m !! error = Some els -> els <> [] -> Forall quiet_listener els ->
  emit (Stream t) data m = (Ok tt, m, isolated_calls (Stream t) data els hs).
Proof.
  intros Hnone Hhs Hels Hne Hq.
  unfold emit, catch, bind at 1. unfold emitter_emit, bind at 1, gets, listeners.
  rewrite Hnone. cbn. unfold bind, gets. rewrite Hhs.
  by rewrite (forEach_handler_isolated _ _ _ els).
Qed.

Lemma invoked_ids_app ev l1 l2 :
  invoked_ids ev (l1 ++ l2) = invoked_ids ev l1 ++ invoked_ids ev l2.
Proof. apply omap_app. Qed.

Lemma invoked_ids_error_deliveries t d els :
  invoked_ids (Stream t) (map (fun l => Invoked (listener_id l) error d) els) = [].
Proof. induction els as [|l els IH]; [reflexivity | exact IH]. Qed.

Lemma invoked_ids_cons t h d log :
  invoked_ids (Stream t) (Invoked h (Stream t) d :: log) =
  h :: invoked_ids (Stream t) log.
Proof. unfold invoked_ids. cbn [omap list_omap]. by rewrite bool_decide_true. Qed.

Lemma invoked_ids_isolated t data els hs :
  invoked_ids (Stream t) (isolated_calls (Stream t) data els hs) = map hid hs.
Proof.
  induction hs as [|h hs IH]; [reflexivity|].
  cbn [isolated_calls flat_map].
  rewrite invoked_ids_app. fold (isolated_calls (Stream t) data els hs).
  rewrite IH, invoked_ids_cons.
  destruct (hrun h data); [by rewrite invoked_ids_error_deliveries | reflexivity].
Qed.

Lemma error_events_app l log1 log2 :
  error_events l (log1 ++ log2) = error_events l log1 ++ error_events l log2.
Proof. apply omap_app. Qed.

Lemma error_events_isolated t data (l : Handler) hs :
  length (error_events (hid l) (isolated_calls (Stream t) data [UserListener l] hs)) =
  length (List.filter (throws data) hs).
Proof.
  induction hs as [|h hs IH]; [reflexivity|].
  cbn [isolated_calls flat_map List.filter].
  change (?x :: ?a ++ ?b) with ([x] ++ a ++ b).
  rewrite !error_events_app, !length_app.
  fold (isolated_calls (Stream t) data [UserListener l] hs). rewrite IH.
  assert (Ht : throws data h = match hrun h data with Some _ => true | None => false end).
  { unfold throws. by destruct (hrun h data). }
  rewrite Ht. destruct (hrun h data) as [e|]; cbn [map listener_id].
  - unfold error_events at 1. cbn [omap list_omap]. rewrite Nat.eqb_refl.
    reflexivity.
  - reflexivity.
Qed.

(** [emit] never throws. *)
Lemma emit_returns ev data m : fst (fst (emit ev data m)) = Ok tt.
Proof.
  unfold emit, catch.
  match goal with |- context [match ?b m with _ => _ end] => destruct (b m) as [[[[]|e] m1] l1] end;
    [reflexivity|].
  destruct (bool_decide (ev <> error)); [|reflexivity].
  destruct (emitter_emit error _ m1) as [[[[]|e'] m2] l2]; reflexivity.
Qed.

(** C2, at a failing input. Two handlers are registered for the
    transcription stream, the first throws, and the application has no
    [error] listener. [emit] calls the first handler; the [error] event its
    [catch] emits has no listener, so the emitter throws it, the [forEach]
    is left, and the second handler is never called. With an [error]
    listener in place the same [emit] calls both handlers and delivers one
    [error] event. *)
Theorem emit_without_error_listener_skips_handlers :
  map hid (registered TRANSCRIPTION two_handlers) = [1; 2]%nat /\
  listeners error two_handlers = [] /\
  emit (Stream TRANSCRIPTION) (PData (JObj [])) two_handlers =
    (Ok tt, two_handlers, [Invoked 1 (Stream TRANSCRIPTION) (PData (JObj []))]) /\
  invoked_ids (Stream TRANSCRIPTION)
    (calls_of (emit (Stream TRANSCRIPTION) (PData (JObj []))
                 (onError (quiet_handler 9) two_handlers))) = [1; 2]%nat.
Proof. repeat split; vm_compute; reflexivity. Qed.

(** The same loss when the [error] listener itself throws. *)
Example emit_with_throwing_error_listener :
  invoked_ids (Stream TRANSCRIPTION)
    (calls_of (emit (Stream TRANSCRIPTION) (PData (JObj []))
                 (onError (throwing_handler 9 "again") two_handlers))) = [1%nat].
Proof. vm_compute. reflexivity. Qed.

(** Listeners of a system event are not isolated from each other: the
    emitter stops at the first one that throws. *)
Example emit_connected_stops_at_throwing_listener :
  calls_of (emit connected (PSettings [])
              (onConnected (quiet_handler 4)
                 (onConnected (throwing_handler 3 "boom")
                    (onError (quiet_handler 9) (new_EventManager (fun _ => None)))))) =
  [Invoked 3 connected (PSettings []);
   Invoked 9 error (PError (Error "Event emission error for 'connected': boom"))].
Proof. vm_compute. reflexivity. Qed.

(** When the failing tag is [error] itself, nothing is emitted again. *)
Lemma forEach_handler_error_tag data hs m :
  forEach_handler error data hs m =
  (Ok tt, m, map (fun h => Invoked (hid h) error data) hs).
Proof.
  induction hs as [|h hs IH]; [reflexivity|].
  cbn [forEach_handler map]. rewrite bool_decide_false by (intros H; by apply H).
  unfold bind at 1. unfold catch, bind at 1, tell, call.
  destruct (hrun h data) as [e|]; cbn -[forEach_handler]; by rewrite IH.
Qed.

End EventProperties.

(** ** Watching one setting *)

Section SettingChangeProperties.
Import Events SettingChange.

(** The closure on a snapshot, whatever the callback does. *)
Lemma settingsHandler_snapshot k cb p st :
  settingsHandler (PSettings st) {| ckey := k; ccallback := cb; previousValue := p |} =
  match find_setting k st with
  | Some setting =>
      if bool_decide (value setting = p)
      then (Ok tt, {| ckey := k; ccallback := cb; previousValue := p |}, [])
      else (Ok tt,
            {| ckey := k; ccallback := cb;
               previousValue := match cbrun cb (value setting) p with
                                | None => value setting
                                | Some _ => p
                                end |},
            [SettingChanged (cbid cb) (value setting) p])
  | None => (Ok tt, {| ckey := k; ccallback := cb; previousValue := p |}, [])
  end.
Proof.
  unfold settingsHandler, catch, bind, ret, gets, tell, lift, modify. cbn.
  destruct (find_setting k st) as [setting|]; cbn; [|reflexivity].
  unfold strict_neq. destruct (bool_decide (value setting = p)); cbn; [reflexivity|].
  destruct (cbrun cb (value setting) p); reflexivity.
Qed.

(** A closure always returns, keeps its key and its callback, and calls
    nothing but its callback. *)
Lemma settingsHandler_frame data c :
  exists c' log,
    settingsHandler data c = (Ok tt, c', log) /\
    ccallback c' = ccallback c /\ ckey c' = ckey c /\
    Forall (fun call => exists v q, call = SettingChanged (cbid (ccallback c)) v q) log.
Proof.
  destruct c as [k cb p].
  destruct data as [st|reason|e|d|len rate ts];
    try (eexists _, _; split; [reflexivity|]; cbn; by repeat split).
  rewrite settingsHandler_snapshot.
  destruct (find_setting k st) as [setting|];
    [destruct (bool_decide (value setting = p))|];
    eexists _, _; (split; [reflexivity|]); cbn; repeat split; try done.
  constructor; [by eexists _, _ | constructor].
Qed.

Lemma cb_calls_app n l1 l2 : cb_calls n (l1 ++ l2) = cb_calls n l1 ++ cb_calls n l2.
Proof. unfold cb_calls. apply List.filter_app. Qed.

Lemma cb_calls_other n log : Forall (other_call n) log -> cb_calls n log = [].
Proof.
  induction 1 as [|c log Hc _ IH]; [reflexivity|].
  cbn. destruct c as [| n' v q |]; try exact IH.
  cbn in Hc. apply Nat.eqb_neq in Hc. by rewrite Hc.
Qed.

Lemma call_listener_foreign n cid ev data l m :
  foreign n cid (map ccallback (closures m)) l ->
  exists m' log,
    call_listener ev data l m = (Ok tt, m', log) /\
    emitter m' = emitter m /\ handlers m' = handlers m /\
    map ccallback (closures m') = map ccallback (closures m) /\
    closures m' !! cid = closures m !! cid /\
    cb_calls n log = [].
Proof.
  destruct l as [h|c]; cbn [foreign call_listener].
  - intros Hq. unfold bind, tell, call. rewrite Hq. cbn.
    eexists _, _. split; [reflexivity|]. by repeat split.
  - intros [Hne Hcb]. unfold zoom_closure.
    destruct (closures m !! c) as [clo|] eqn:Hclo.
    + destruct (settingsHandler_frame data clo) as (c' & log & -> & Hcc & _ & Hlog).
      eexists _, _. split; [reflexivity|]. cbn [emitter handlers closures set_closures].
      split; [done|]. split; [done|]. split; [|split].
      * rewrite list_fmap_insert, Hcc.
        apply list_insert_id. by rewrite list_lookup_fmap, Hclo.
      * by apply list_lookup_insert_ne.
      * apply cb_calls_other. eapply Forall_impl; [exact Hlog|].
        intros call (v & q & ->). cbn. apply Hcb.
        by rewrite list_lookup_fmap, Hclo.
    + eexists _, _. split; [reflexivity|]. by repeat split.
Qed.

Lemma run_listeners_foreign n cid ev data ls : forall m,
  Forall (foreign n cid (map ccallback (closures m))) ls ->
  exists m' log,
    run_listeners ev data ls m = (Ok tt, m', log) /\
    emitter m' = emitter m /\ handlers m' = handlers m /\
    map ccallback (closures m') = map ccallback (closures m) /\
    closures m' !! cid = closures m !! cid /\
    cb_calls n log = [].
Proof.
  induction ls as [|l ls IH]; intros m Hls.
  - eexists _, _. split; [reflexivity|]. by repeat split.
  - apply Forall_cons in Hls as [Hl Hls].
    destruct (call_listener_foreign n cid ev data l m Hl)
      as (m1 & l1 & Hcall & He1 & Hh1 & Hc1 & Hp1 & Hn1).
    rewrite <- Hc1 in Hls.
    destruct (IH m1 Hls) as (m2 & l2 & Hrun & He2 & Hh2 & Hc2 & Hp2 & Hn2).
    cbn [run_listeners]. unfold bind. rewrite Hcall, Hrun.
    eexists _, _. split; [reflexivity|].
    rewrite cb_calls_app, Hn1, Hn2. repeat split; congruence.
Qed.

Lemma bind_assoc {S L A B C} (p : Prog S L A) (k1 : A -> Prog S L B)
    (k2 : B -> Prog S L C) s :
  bind (bind p k1) k2 s = bind p (fun a => bind (k1 a) k2) s.
Proof.
  unfold bind. destruct (p s) as [[[a|e] s1] l1]; [|reflexivity].
  destruct (k1 a s1) as [[[b|e] s2] l2]; [|reflexivity].
  destruct (k2 b s2) as [[r s3] l3]. by rewrite app_assoc.
Qed.

Lemma bind_ext {S L A B} (p : Prog S L A) (k k' : A -> Prog S L B) s :
  (forall a s', k a s' = k' a s') -> bind p k s = bind p k' s.
Proof.
  intros Hk. unfold bind. destruct (p s) as [[[a|e] s1] l1]; [|reflexivity].
  by rewrite Hk.
Qed.

Lemma run_listeners_app ev data l1 l2 m :
  run_listeners ev data (l1 ++ l2) m =
  bind (run_listeners ev data l1) (fun _ => run_listeners ev data l2) m.
Proof.
  revert m. induction l1 as [|l l1 IH]; intros m.
  - cbn [app run_listeners]. unfold bind, ret.
    by destruct (run_listeners ev data l2 m) as [[r m'] log].
  - cbn [app run_listeners]. rewrite bind_assoc. apply bind_ext.
    intros _ m1. apply IH.
Qed.

(** The listeners of the two settings events after [onSettingChange]: the
    new closure comes last. *)
Lemma registering_listeners k cb m e :
  emitter (registering k cb m) !! snapshot_event e =
  Some (listeners (snapshot_event e) m ++ [SettingsListener (length (closures m))]).
Proof.
  unfold registering, onSettingChange, emitter_on, listeners. cbn [snd emitter set_emitter set_closures].
  destruct e; cbn [snapshot_event].
  - by rewrite lookup_insert_eq, lookup_insert_ne.
  - by rewrite lookup_insert_ne, lookup_insert_eq.
Qed.

Lemma registering_watched k cb m : watched k cb m PUndefined (registering k cb m).
Proof.
  unfold watched. split; [done|]. split; [done|].
  unfold registering, onSettingChange, emitter_on. cbn [snd closures set_emitter set_closures].
  split; [by rewrite map_app|].
  by rewrite lookup_app_r, Nat.sub_diag.
Qed.

Lemma ready_foreign cb m m' e :
  ready_for cb m ->
  map ccallback (closures m') = map ccallback (closures m) ++ [cb] ->
  Forall (foreign (cbid cb) (length (closures m)) (map ccallback (closures m')))
         (listeners (snapshot_event e) m).
Proof.
  intros (Hc & Hu & _ & _ & Hcb) Hcbs.
  assert (Hl : Forall (returning m) (listeners (snapshot_event e) m)) by by destruct e.
  eapply Forall_impl; [exact Hl|]. intros [h|c]; cbn; [done|].
  intros Hlt. split; [lia|]. intros f. rewrite Hcbs.
  rewrite lookup_app_l by (by rewrite length_map).
  rewrite list_lookup_fmap. destruct (closures m !! c) as [clo|] eqn:Hclo; [|done].
  cbn. intros [= <-]. rewrite Forall_forall in Hcb. apply Hcb.
  by apply list_elem_of_lookup_2 in Hclo.
Qed.

Lemma bind_gets {S L A B} (f : S -> A) (k : A -> Prog S L B) s :
  bind (gets f) k s = k (f s) s.
Proof. unfold bind, gets. by destruct (k (f s) s) as [[r s'] l]. Qed.

Lemma emitter_emit_snapshot e data m :
  emitter_emit (snapshot_event e) data m =
  run_listeners (snapshot_event e) data (listeners (snapshot_event e) m) m.
Proof.
  unfold emitter_emit. rewrite bind_gets.
  by destruct (listeners (snapshot_event e) m), e.
Qed.

(** One snapshot on a manager that holds the registration. *)
Lemma emit_watched k cb m p m' e :
  ready_for cb m -> watched k cb m p m' ->
  exists m'' log,
    emit (snapshot_event e) (PSettings (snapshot_settings e)) m' = (Ok tt, m'', log) /\
    watched k cb m (record_step k cb p e) m'' /\
    cb_calls (cbid cb) log =
      match value_in k e with
      | Some v => if bool_decide (v = p) then [] else [SettingChanged (cbid cb) v p]
      | None => []
      end.
Proof.
  intros Hready (Hem & Hha & Hcbs & Hclo).
  pose proof (ready_foreign cb m m' e Hready Hcbs) as Hforeign.
  destruct (run_listeners_foreign (cbid cb) (length (closures m)) (snapshot_event e)
              (PSettings (snapshot_settings e)) _ m' Hforeign)
    as (m1 & l1 & Hrun & He1 & Hh1 & Hc1 & Hp1 & Hn1).
  assert (Hnone : handlers m1 !! snapshot_event e = None).
  { rewrite Hh1, Hha. destruct Hready as (_ & _ & ? & ? & _). by destruct e. }
  pose proof (settingsHandler_snapshot k cb p (snapshot_settings e)) as Hs.
  assert (Hls : listeners (snapshot_event e) m' =
                listeners (snapshot_event e) m ++ [SettingsListener (length (closures m))]).
  { unfold listeners at 1. by rewrite Hem, registering_listeners. }
  assert (Hemit : emitter_emit (snapshot_event e) (PSettings (snapshot_settings e)) m' =
                  bind (run_listeners (snapshot_event e) (PSettings (snapshot_settings e))
                          (listeners (snapshot_event e) m))
                       (fun _ => run_listeners (snapshot_event e)
                                   (PSettings (snapshot_settings e))
                                   [SettingsListener (length (closures m))]) m').
  { rewrite <- run_listeners_app, <- Hls. apply emitter_emit_snapshot. }
  unfold emit, catch, bind at 1. rewrite Hemit. unfold bind at 1. rewrite Hrun.
  cbn [run_listeners call_listener]. unfold bind at 1, zoom_closure.
  rewrite Hp1, Hclo, Hs. unfold value_in, record_step, value_in.
  destruct (find_setting k (snapshot_settings e)) as [setting|]; cbn [fmap option_fmap option_map];
    [destruct (bool_decide (value setting = p))|];
    cbn [ret]; unfold bind, gets; cbn [fst snd handlers set_closures];
    rewrite Hnone; cbn [ret];
    (eexists _, _; split; [reflexivity|]; split;
     [ unfold watched; cbn [emitter handlers closures set_closures];
       split; [congruence|]; split; [congruence|]; split;
       [ rewrite list_fmap_insert; cbn [ccallback];
         rewrite <- Hcbs, <- Hc1; apply list_insert_id;
         rewrite list_lookup_fmap, Hp1, Hclo; reflexivity
       | apply list_lookup_insert_eq; apply lookup_lt_Some with (1 := eq_trans Hp1 Hclo) ]
     | rewrite ?app_nil_r, ?cb_calls_app, Hn1; cbn; rewrite ?Nat.eqb_refl; reflexivity ]).
Qed.

Lemma after_cons e pre m :
  after (e :: pre) m =
  after pre (state_of (emit (snapshot_event e) (PSettings (snapshot_settings e)) m)).
Proof.
  unfold after, state_of. cbn [deliver]. unfold bind.
  pose proof (fun m0 => eq_refl (deliver pre m0)) as _.
  destruct (emit _ _ m) as [[[[]|err] m1] l1] eqn:E.
  - cbn [fst snd]. by destruct (deliver pre m1) as [[r m2] l2].
  - exfalso. clear -E.
    assert (H : fst (fst (emit (snapshot_event e) (PSettings (snapshot_settings e)) m))
                = Ok tt).
    { unfold emit, catch.
      match goal with |- context [?b m] =>
        lazymatch b with bind _ _ => destruct (b m) as [[[[]|e0] m0] l0] end end;
        [reflexivity|].
      destruct (bool_decide _); [|reflexivity].
      by destruct (emitter_emit error _ m0) as [[[[]|e'] m2] l2]. }
    by rewrite E in H.
Qed.

Lemma after_watched k cb m pre : forall p m',
  ready_for cb m -> watched k cb m p m' ->
  watched k cb m (fold_left (record_step k cb) pre p) (after pre m').
Proof.
  induction pre as [|e pre IH]; intros p m' Hready Hw; [exact Hw|].
  rewrite after_cons. cbn [fold_left].
  destruct (emit_watched k cb m p m' e Hready Hw) as (m'' & log & Hemit & Hw' & _).
  rewrite Hemit. unfold state_of. cbn [fst snd]. by apply IH.
Qed.

(** The calls of the callback, snapshot by snapshot, whatever it does:
    it is called when the snapshot has the key with a value that differs
    from the one the closure holds. *)
Lemma onSettingChange_calls k cb m pre e :
  ready_for cb m ->
  cb_calls (cbid cb) (calls_on e (after pre (registering k cb m))) =
  match value_in k e with
  | Some v =>
      if bool_decide (v = recorded k cb pre) then []
      else [SettingChanged (cbid cb) v (recorded k cb pre)]
  | None => []
  end.
Proof.
  intros Hready.
  pose proof (after_watched k cb m pre _ _ Hready (registering_watched k cb m)) as Hw.
  destruct (emit_watched k cb m _ _ e Hready Hw) as (m'' & log & Hemit & _ & Hcalls).
  unfold calls_on. rewrite Hemit. exact Hcalls.
Qed.

(** When the callback returns, the closure holds the last observed
    value. *)
Lemma recorded_last_observed k cb pre :
  (forall v q, cbrun cb v q = None) ->
  recorded k cb pre = last_observed k pre.
Proof.
  intros Hq. unfold recorded, last_observed. generalize PUndefined.
  induction pre as [|e pre IH]; intros p; [reflexivity|].
  cbn [fold_left]. rewrite <- IH. f_equal.
  unfold record_step. destruct (value_in k e) as [v|]; cbn; [|reflexivity].
  rewrite Hq. case_bool_decide; congruence.
Qed.

(** The two instances the claim names, on the side of the specification. *)
Lemma value_in_one_setting k v mk :
  value_in k (match mk with true => AtConnect (one_setting k v)
                          | false => AtUpdate (one_setting k v) end) = Some v.
Proof.
  destruct mk; unfold value_in, find_setting; cbn; by rewrite String.eqb_refl.
Qed.

Lemma last_observed_snoc k pre e :
  last_observed k (pre ++ [e]) = default (last_observed k pre) (value_in k e).
Proof. unfold last_observed. by rewrite fold_left_app. Qed.

Lemma new_manager_ready cb : ready_for cb (new_EventManager (fun _ => None)).
Proof. by repeat split. Qed.

(** The failing input at its smallest: nothing but the callback is
    registered, and the callback throws on the first value of ["x"]. The
    closure does not record the value, and a settings update that repeats
    it calls the callback again, with [undefined] as the previous value;
    the claim asks for no call. *)
Example onSettingChange_refires_after_throw :
  calls_on (AtUpdate (one_setting "x" (PNum 5)))
    (after [AtConnect (one_setting "x" (PNum 5))]
       (watching "x" (throwing_callback 7))) =
    [SettingChanged 7 (PNum 5) PUndefined] /\
  expected_calls "x" (throwing_callback 7)
    [AtConnect (one_setting "x" (PNum 5))]
    (AtUpdate (one_setting "x" (PNum 5))) = [].
Proof. split; vm_compute; reflexivity. Qed.

(** C6, where the code departs from the claim and from its own comment
    ("Only call handler if value has changed"). On every manager that is
    ready for the registration, the callback registered by
    [onSettingChange(k, cb)] is called for a snapshot exactly when the
    snapshot has [k] with a value that differs from the one the closure
    has recorded, and the closure records a value only after the callback
    has returned. So when the callback throws on the first value [v] of
    [k], nothing is recorded, and a later snapshot that repeats [v] calls
    it again with [undefined] as the previous value, where the claim asks
    for no call; for a callback that returns, the recorded value is the
    last observed one and the calls are those the claim asks for. *)
Theorem onSettingChange_calls_again_after_throw k cb m v err :
  ready_for cb m -> v <> PUndefined -> cbrun cb v PUndefined = Some err ->
  let first := AtConnect (one_setting k v) in
  let again := AtUpdate (one_setting k v) in
  cb_calls (cbid cb) (calls_on first (registering k cb m)) =
    [SettingChanged (cbid cb) v PUndefined] /\
  recorded k cb [first] = PUndefined /\
  last_observed k [first] = v /\
  cb_calls (cbid cb) (calls_on again (after [first] (registering k cb m))) =
    [SettingChanged (cbid cb) v PUndefined] /\
  expected_calls k cb [first] again = [] /\
  (forall pre e,
     cb_calls (cbid cb) (calls_on e (after pre (registering k cb m))) =
     match value_in k e with
     | Some w =>
         if bool_decide (w = recorded k cb pre) then []
         else [SettingChanged (cbid cb) w (recorded k cb pre)]
     | None => []
     end).
Proof.
  intros Hready Hv Hthrow. cbn zeta.
  assert (Hrec : recorded k cb [AtConnect (one_setting k v)] = PUndefined).
  { unfold recorded. cbn [fold_left]. unfold record_step.
    rewrite (value_in_one_setting k v true).
    rewrite bool_decide_eq_false_2 by done. by rewrite Hthrow. }
  assert (Hlast : last_observed k [AtConnect (one_setting k v)] = v).
  { unfold last_observed. cbn [fold_left]. by rewrite (value_in_one_setting k v true). }
  split; [|split; [exact Hrec|split; [exact Hlast|split; [|split]]]].
  - change (registering k cb m) with (after [] (registering k cb m)).
    rewrite onSettingChange_calls by done.
    rewrite (value_in_one_setting k v true). unfold recorded. cbn [fold_left].
    by rewrite bool_decide_eq_false_2.
  - rewrite onSettingChange_calls by done.
    rewrite (value_in_one_setting k v false), Hrec.
    by rewrite bool_decide_eq_false_2.
  - unfold expected_calls. rewrite (value_in_one_setting k v false), Hlast.
    by rewrite bool_decide_eq_true_2.
  - intros pre e. by apply onSettingChange_calls.
Qed.

(** For a callback that returns, the claim holds on every manager that is
    ready for the registration: the callback is called with (new value,
    last observed value) exactly when the snapshot has [k] with a value
    that differs from the last observed one, [undefined] before the first.
    So a first value [v] fires [cb(v, undefined)] (unless [v] is
    [undefined] itself), and a later snapshot that repeats the value fires
    nothing. *)
Lemma onSettingChange_fires_on_change k cb m :
  ready_for cb m ->
  (forall v q, cbrun cb v q = None) ->
  (forall pre e,
     cb_calls (cbid cb) (calls_on e (after pre (registering k cb m))) =
     expected_calls k cb pre e) /\
  (forall v,
     cb_calls (cbid cb) (calls_on (AtUpdate (one_setting k v)) (registering k cb m)) =
     if bool_decide (v = PUndefined) then []
     else [SettingChanged (cbid cb) v PUndefined]) /\
  (forall pre v,
     cb_calls (cbid cb)
       (calls_on (AtUpdate (one_setting k v))
          (after (pre ++ [AtConnect (one_setting k v)]) (registering k cb m))) = []).
Proof.
  intros Hready Hq.
  assert (Hmain : forall pre e,
            cb_calls (cbid cb) (calls_on e (after pre (registering k cb m))) =
            expected_calls k cb pre e).
  { intros pre e. rewrite onSettingChange_calls by done.
    unfold expected_calls. by rewrite recorded_last_observed. }
  split; [exact Hmain|]. split.
  - intros v. change (registering k cb m) with (after [] (registering k cb m)).
    rewrite Hmain. unfold expected_calls.
    by rewrite (value_in_one_setting k v false).
  - intros pre v. rewrite Hmain. unfold expected_calls.
    rewrite (value_in_one_setting k v false), last_observed_snoc.
    rewrite (value_in_one_setting k v true). cbn [default from_option id].
    by rewrite bool_decide_true.
Qed.

End SettingChangeProperties.

Section SettingChangeWitnesses.
Import Events SettingChange.

Lemma connected_manager_ready cb :
  cbid cb <> 5%nat -> ready_for cb connected_manager.
Proof.
  intros Hcb. unfold ready_for.
  split; [|split; [|split; [reflexivity|split; [reflexivity|]]]].
  - repeat constructor; cbn; lia.
  - repeat constructor; cbn; lia.
  - repeat constructor. cbn. congruence.
Qed.

Lemma onSettingChange_calls_again_after_throw_witness :
  (ready_for (throwing_callback 7) connected_manager /\
   PNum 5 <> PUndefined /\
   cbrun (throwing_callback 7) (PNum 5) PUndefined = Some (Error "callback failed")) /\
  cb_calls 7
    (calls_on (AtUpdate (one_setting "x" (PNum 5)))
       (after [AtConnect (one_setting "x" (PNum 5))]
          (registering "x" (throwing_callback 7) connected_manager))) =
  [SettingChanged 7 (PNum 5) PUndefined].
Proof.
  assert (Hv : PNum 5 <> PUndefined) by discriminate.
  assert (Hcb : cbid (throwing_callback 7) <> 5%nat) by discriminate.
  split; [split; [exact (connected_manager_ready _ Hcb) | split; [exact Hv | reflexivity]]|].
  exact (proj1 (proj2 (proj2 (proj2
           (onSettingChange_calls_again_after_throw "x" (throwing_callback 7)
              connected_manager (PNum 5) (Error "callback failed")
              (connected_manager_ready _ Hcb) Hv eq_refl))))).
Defined.

End SettingChangeWitnesses.

(** ** The session *)

Section SessionProperties.
Import Events Session.

Variable now : Z.

(** The error [send] raises before it writes anything. *)
Lemma send_body_unfold message (s : TpaSession) :
  send_body now message s =
  match ws s with
  | None => (Throw (Error "WebSocket connection not established"), s, [])
  | Some sock =>
      if negb (readyState sock =? 1) then
        (Throw (Error ("WebSocket not connected (current state: "
                       ++ stateName (readyState sock) ++ ")")), s, [])
      else if negb (truthy message) || negb (String.eqb (typeof message) "object") then
        (Throw (Error "Invalid message: must be an object"), s, [])
      else if negb (has_prop "type" message) then
        (Throw (Error ("Invalid message: missing " ++ quoted "type" ++ " property")), s, [])
      else
        match sendError sock with
        | Some text => (Throw (Error ("Failed to send message: " ++ text)), s, [])
        | None =>
            (Ok tt, s,
             [WsSend (if try_catch (needs_timestamp message) (fun _ => true)
                      then set_prop "timestamp" (JDate now) message
                      else message)])
        end
  end.
Proof.
  unfold send_body, bind, gets, throw. cbn.
  destruct (ws s) as [sock|]; [|reflexivity].
  destruct (negb (readyState sock =? 1)); [reflexivity|].
  destruct message as [| |b|n|str|ms|items|props];
    try (cbn; rewrite ?orb_true_r; reflexivity).
  cbn [truthy negb orb typeof String.eqb Ascii.eqb Bool.eqb].
  destruct (negb (has_prop "type" (JObj props))); [reflexivity|].
  unfold lift, tell, needs_timestamp.
  destruct (negb (has_prop "timestamp" (JObj props)));
    cbn [get_prop result_bind try_catch]; destruct (sendError sock); reflexivity.
Qed.


Lemma send_unfold msg (s : TpaSession) :
  send now msg s =
  match send_body now msg s with
  | (Ok a, s1, l1) => (Ok a, s1, l1)
  | (Throw e, s1, l1) => (Throw e, s1, l1 ++ [Emit error (PError e)])
  end.
Proof.
  unfold send, catch.
  destruct (send_body now msg s) as [[[a|e] s1] l1]; reflexivity.
Qed.

(** C3: [send] throws when there is no channel handle, when the channel
    is not open (the error text names the state: CONNECTING, CLOSING or
    CLOSED), when the message is not an object, and when the message has no
    [type]; in each case it hands exactly one [error] event, carrying the
    error it then throws, to the event router, changes no field and writes
    no frame. *)
Theorem send_failure_emits_error msg (s : TpaSession) :
  ws s = None \/
  (exists sock, ws s = Some sock /\ readyState sock <> 1) \/
  truthy msg && String.eqb (typeof msg) "object" = false \/
  has_prop "type" msg = false ->
  exists e,
    send now msg s = (Throw e, s, [Emit error (PError e)]) /\
    message e =
      match ws s with
      | None => "WebSocket connection not established"
      | Some sock =>
          if readyState sock =? 1 then
            if truthy msg && String.eqb (typeof msg) "object"
            then "Invalid message: missing " +:+ quoted "type" +:+ " property"
            else "Invalid message: must be an object"
          else "WebSocket not connected (current state: "
               +:+ stateName (readyState sock) +:+ ")"
      end /\
    stateName 0 = "CONNECTING" /\ stateName 2 = "CLOSING" /\
    stateName 3 = "CLOSED".
Proof.
  intros H. rewrite send_unfold, send_body_unfold.
  destruct (ws s) as [sock|]; [|by eexists].
  destruct (readyState sock =? 1) eqn:Hopen; cbn [negb]; [|by eexists].
  destruct (truthy msg && String.eqb (typeof msg) "object") eqn:Hobj.
  - apply andb_true_iff in Hobj as [-> ->]. cbn [negb orb].
    destruct (has_prop "type" msg) eqn:Htype; cbn [negb]; [|by eexists].
    exfalso. destruct H as [H|[(sock' & Hs & Hne)|[H|H]]]; try discriminate.
    injection Hs as <-. apply Z.eqb_eq in Hopen. contradiction.
  - assert (negb (truthy msg) || negb (String.eqb (typeof msg) "object") = true) as ->.
    { rewrite <- negb_andb. by rewrite Hobj. }
    by eexists.
Qed.

(** [updateSubscriptions] on an open channel writes one frame, the
    subscription update with the current tags. *)
Lemma updateSubscriptions_open (s : TpaSession) sock :
  ws s = Some sock -> readyState sock = 1 -> sendError sock = None ->
  updateSubscriptions now s =
  (Ok tt, s,
   [WsSend (subscription_update now (packageName (config s)) (subscriptions s)
              (sessionId s))]).
Proof.
  intros Hws Hopen Hsend.
  unfold updateSubscriptions, bind, gets. rewrite send_unfold, send_body_unfold.
  rewrite Hws, Hopen, Hsend. reflexivity.
Qed.

(** [updateSubscriptionsFromSettings] on an open channel. *)
Lemma updateSubscriptionsFromSettings_open (s : TpaSession) sock :
  ws s = Some sock -> readyState sock = 1 -> sendError sock = None ->
  updateSubscriptionsFromSettings now s =
  (Ok tt, fst (recomputed now s), snd (recomputed now s)).
Proof.
  intros Hws Hopen Hsend.
  unfold updateSubscriptionsFromSettings, recomputed, bind at 1, gets.
  destruct (subscriptionSettingsHandler s) as [handler|]; [|reflexivity].
  unfold catch, bind at 1, gets. unfold bind at 1, lift.
  destruct (handler (settings s)) as [tags|e]; [|reflexivity].
  unfold bind at 1, modify. unfold bind at 1. unfold bind at 1.
  cbn [ws set_subscriptions subscriptions]. rewrite Hws. cbn [is_open]. rewrite Hopen.
  cbn [Z.eqb Pos.eqb].
  erewrite updateSubscriptions_open; [reflexivity | cbn; exact Hws | done | done].
Qed.

(** [updateSubscriptionsFromSettings] never throws. *)
Lemma updateSubscriptionsFromSettings_returns (s : TpaSession) :
  fst (fst (updateSubscriptionsFromSettings now s)) = Ok tt.
Proof.
  unfold updateSubscriptionsFromSettings, bind at 1, gets.
  destruct (subscriptionSettingsHandler s) as [handler|]; [|reflexivity].
  unfold catch.
  match goal with |- context [match ?b s with _ => _ end] =>
    destruct (b s) as [[[[]|e] s1] l1] end; reflexivity.
Qed.


Lemma subs_add_elem t u subs : u ∈ subs_add t subs <-> u = t \/ u ∈ subs.
Proof.
  unfold subs_add. case_bool_decide as Hin.
  - split; [tauto|]. intros [->|?]; done.
  - rewrite elem_of_app, list_elem_of_singleton. tauto.
Qed.

Lemma stream_name_inj t t' : stream_name t = stream_name t' -> t = t'.
Proof. destruct t, t'; cbn; intros H; first [reflexivity | discriminate H]. Qed.

(** The [Set] built from a list of tags has exactly the tags of the list. *)
Lemma subs_of_list_elem t tags : t ∈ subs_of_list tags <-> t ∈ tags.
Proof.
  unfold subs_of_list.
  assert (Hgen : forall acc, t ∈ fold_left (fun acc u => subs_add u acc) tags acc
                             <-> t ∈ tags \/ t ∈ acc).
  { induction tags as [|u tags IH]; intros acc; cbn [fold_left].
    - rewrite elem_of_nil. tauto.
    - rewrite IH, subs_add_elem, elem_of_cons. tauto. }
  rewrite Hgen, elem_of_nil. tauto.
Qed.

(** The entries of the [subscriptions] array of a frame name the tags. *)
Lemma stream_names_elem t (subs : list StreamType) :
  JStr (stream_name t) ∈ map (fun u => JStr (stream_name u)) subs <-> t ∈ subs.
Proof.
  rewrite list_elem_of_fmap. split.
  - intros (u & Hu & Hin). injection Hu as Hu. apply stream_name_inj in Hu. by subst.
  - intros Hin. by exists t.
Qed.

(** C10: [subscribe(tag)] while there is no channel handle, or the handle
    is not open, adds the tag to the subscription set, writes no frame,
    emits nothing and returns normally. The tag stays in the set, so the
    next subscription push, made once the channel is open, carries it: the
    frame written then is the subscription update of the session, and its
    [subscriptions] array names the tag next to the tags subscribed
    before, and no other. *)
Theorem subscribe_while_closed_defers_push tag (s : TpaSession) :
  is_open (ws s) = false ->
  let s' := set_subscriptions (subs_add tag (subscriptions s)) s in
  let frame subs :=
    JObj [("type", JStr SUBSCRIPTION_UPDATE);
          ("packageName", JStr (packageName (config s)));
          ("subscriptions", JArr (map (fun t => JStr (stream_name t)) subs));
          ("sessionId", match sessionId s with Some x => JStr x | None => JNull end);
          ("timestamp", JDate now)] in
  subscribe now tag s = (Ok tt, s', []) /\
  tag ∈ subscriptions s' /\
  updateSubscriptions now (set_ws (Some open_socket) s') =
    (Ok tt, set_ws (Some open_socket) s',
     [WsSend (frame (subs_add tag (subscriptions s)))]) /\
  (exists props items,
     frames (snd (updateSubscriptions now (set_ws (Some open_socket) s'))) =
       [JObj props] /\
     assoc "subscriptions" props = Some (JArr items) /\
     JStr (stream_name tag) ∈ items /\
     forall t, JStr (stream_name t) ∈ items <-> t = tag \/ t ∈ subscriptions s).
Proof.
  intros Hclosed. cbn zeta.
  assert (Hin : tag ∈ subs_add tag (subscriptions s)).
  { apply subs_add_elem. by left. }
  assert (Hpush : updateSubscriptions now
                    (set_ws (Some open_socket)
                       (set_subscriptions (subs_add tag (subscriptions s)) s)) =
                  (Ok tt,
                   set_ws (Some open_socket)
                     (set_subscriptions (subs_add tag (subscriptions s)) s),
                   [WsSend (subscription_update now (packageName (config s))
                              (subs_add tag (subscriptions s)) (sessionId s))])).
  { by erewrite updateSubscriptions_open. }
  split; [|split; [exact Hin|split]].
  - unfold subscribe, bind, modify, gets. cbn [ws set_subscriptions].
    by rewrite Hclosed.
  - rewrite Hpush. unfold subscription_update, SUBSCRIPTION_UPDATE, js_string_opt.
    reflexivity.
  - rewrite Hpush. eexists _, _. split; [reflexivity|].
    split; [reflexivity|]. split.
    + by apply stream_names_elem.
    + intros t. by rewrite stream_names_elem, subs_add_elem.
Qed.

Lemma recomputed_settings (s : TpaSession) :
  settings (fst (recomputed now s)) = settings s.
Proof.
  unfold recomputed. destruct (subscriptionSettingsHandler s) as [h|]; [|done].
  by destruct (h (settings s)).
Qed.

Lemma recomputed_tpaConfig (s : TpaSession) :
  tpaConfig (fst (recomputed now s)) = tpaConfig s.
Proof.
  unfold recomputed. destruct (subscriptionSettingsHandler s) as [h|]; [|done].
  by destruct (h (settings s)).
Qed.

Lemma handleConnectionAck_open (validate : TpaConfig -> bool) (msg_settings : option (list AppSetting))
    (msg_config : option TpaConfig) (s : TpaSession) sock :
  ws s = Some sock -> readyState sock = 1 -> sendError sock = None ->
  let adopted := default [] msg_settings in
  let known :=
    match msg_config with
    | Some c => if validate c then Some c else tpaConfig s
    | None => tpaConfig s
    end in
  let resulting :=
    match adopted, known with
    | [], Some c => map with_default_value (omap non_group (config_settings c))
    | _, _ => adopted
    end in
  let s1 := set_settings resulting (set_tpaConfig known s) in
  let again :=
    shouldUpdateSubscriptionsOnSettingsChange s && Nat.ltb 0 (length resulting) in
  handleConnectionAck now validate msg_settings msg_config s =
  (Ok tt,
   (if again then fst (recomputed now s1) else s1),
   [Emit connected (PSettings resulting);
    WsSend (subscription_update now (packageName (config s)) (subscriptions s)
              (sessionId s))]
   ++ (if again then snd (recomputed now s1) else [])).
Proof.
  intros Hws Hopen Hsend. cbn zeta.
  destruct s as [cfg w sid ra subs st tc should h trig]. cbn in Hws. subst w.
  destruct msg_settings as [[|a l]|]; (destruct msg_config as [c|];
    [destruct (validate c) eqn:V|]); destruct tc as [c0|]; destruct should;
    unfold handleConnectionAck, bind, modify, gets, ret, catch,
      getDefaultSettings, events_emit, tell, throw;
    cbn -[updateSubscriptions updateSubscriptionsFromSettings recomputed
          subscription_update];
    rewrite ?V;
    cbn -[updateSubscriptions updateSubscriptionsFromSettings recomputed
          subscription_update];
    (erewrite updateSubscriptions_open by (try reflexivity; eassumption));
    cbn -[updateSubscriptions updateSubscriptionsFromSettings recomputed
          subscription_update];
    try reflexivity;
    try (destruct (map with_default_value _); try reflexivity);
    try (destruct (length _); try reflexivity);
    cbn -[updateSubscriptions updateSubscriptionsFromSettings recomputed
          subscription_update];
    (erewrite updateSubscriptionsFromSettings_open by (try reflexivity; eassumption));
    reflexivity.
Qed.

(** C5: on an open channel, a connection-ack message makes the session
    adopt the carried settings (the empty list when there are none), adopt
    the carried config only when it passes [validateTpaConfig], take the
    settings from the known config's default values (every entry that is
    not a group, with its [value] set to its [defaultValue]) when the
    adopted settings are empty, emit [connected] with the resulting
    settings and push the current subscription list: the first frame is the
    subscription update that names the tags subscribed when the message
    arrived. When settings-driven subscriptions are enabled and the
    resulting settings are not empty, it then recomputes the subscriptions
    from them: the handler's tags replace the subscriptions and are pushed
    in a second frame, and a handler that throws leaves them alone and
    gives one [error] event. *)
Theorem handleMessage_connection_ack (validate : TpaConfig -> bool)
    (msg_settings : option (list AppSetting)) (msg_config : option TpaConfig)
    (s : TpaSession) sock :
  ws s = Some sock -> readyState sock = 1 -> sendError sock = None ->
  let adopted := default [] msg_settings in
  let known :=
    match msg_config with
    | Some c => if validate c then Some c else tpaConfig s
    | None => tpaConfig s
    end in
  let resulting :=
    match adopted, known with
    | [], Some c =>
        map (fun x => {| key := key x; stype := stype x; value := defaultValue x;
                         defaultValue := defaultValue x |})
          (omap (fun e => match e with
                          | Group _ => None
                          | Setting x =>
                              if String.eqb (stype x) "group" then None else Some x
                          end) (config_settings c))
    | _, _ => adopted
    end in
  let s1 := set_settings resulting (set_tpaConfig known s) in
  let again :=
    shouldUpdateSubscriptionsOnSettingsChange s && Nat.ltb 0 (length resulting) in
  let frame subs :=
    JObj [("type", JStr SUBSCRIPTION_UPDATE);
          ("packageName", JStr (packageName (config s)));
          ("subscriptions", JArr (map (fun t => JStr (stream_name t)) subs));
          ("sessionId", match sessionId s with Some x => JStr x | None => JNull end);
          ("timestamp", JDate now)] in
  let recompute :=
    if again
    then match subscriptionSettingsHandler s with
         | Some handler => Some (handler resulting)
         | None => None
         end
    else None in
  handleMessage now validate (TpaConnectionAck msg_settings msg_config) s =
    (Ok tt,
     (if again then fst (recomputed now s1) else s1),
     [Emit connected (PSettings resulting); WsSend (frame (subscriptions s))]
     ++ (if again then snd (recomputed now s1) else [])) /\
  settings (snd (fst (handleMessage now validate
                        (TpaConnectionAck msg_settings msg_config) s))) = resulting /\
  tpaConfig (snd (fst (handleMessage now validate
                         (TpaConnectionAck msg_settings msg_config) s))) = known /\
  frames (snd (handleMessage now validate
                 (TpaConnectionAck msg_settings msg_config) s)) =
    frame (subscriptions s)
    :: match recompute with
       | Some (Ok tags) => [frame (subs_of_list tags)]
       | _ => []
       end /\
  subscriptions (snd (fst (handleMessage now validate
                             (TpaConnectionAck msg_settings msg_config) s))) =
    match recompute with
    | Some (Ok tags) => subs_of_list tags
    | _ => subscriptions s
    end /\
  error_emits (snd (handleMessage now validate
                      (TpaConnectionAck msg_settings msg_config) s)) =
    match recompute with
    | Some (Throw e) =>
        [PError (Error ("Failed to update subscriptions: " +:+ message e))]
    | _ => []
    end /\
  (forall t tags, t ∈ subs_of_list tags <-> t ∈ tags).
Proof.
  intros Hws Hopen Hsend. cbn zeta.
  assert (Heq : handleMessage now validate (TpaConnectionAck msg_settings msg_config) s =
                handleConnectionAck now validate msg_settings msg_config s).
  { unfold handleMessage, catch. cbn [validateMessage negb].
    by rewrite (handleConnectionAck_open validate msg_settings msg_config s sock). }
  rewrite Heq, (handleConnectionAck_open validate msg_settings msg_config s sock) by done.
  change (fun x : AppSetting => {| key := key x; stype := stype x;
                                   value := defaultValue x;
                                   defaultValue := defaultValue x |})
    with with_default_value.
  change (fun e : ConfigEntry => match e with
                                 | Group _ => None
                                 | Setting x =>
                                     if String.eqb (stype x) "group" then None else Some x
                                 end) with non_group.
  split; [reflexivity|]. cbn [fst snd].
  assert (Helem : forall t tags, t ∈ subs_of_list tags <-> t ∈ tags)
    by apply subs_of_list_elem.
  destruct (_ && _).
  - rewrite recomputed_settings, recomputed_tpaConfig.
    split; [done|]. split; [done|].
    unfold recomputed.
    cbn [subscriptionSettingsHandler settings set_settings set_tpaConfig config sessionId
         subscriptions].
    destruct (subscriptionSettingsHandler s) as [handler|]; [|done].
    by destruct (handler _).
  - done.
Qed.

Lemma handleSettingsUpdate_open (msg_settings : option (list AppSetting))
    (s : TpaSession) sock :
  ws s = Some sock -> readyState sock = 1 -> sendError sock = None ->
  let new := default [] msg_settings in
  let s1 := set_settings new s in
  let again :=
    shouldUpdateSubscriptionsOnSettingsChange s
    && existsb (trigger_fired (settings s) new) (subscriptionUpdateTriggers s) in
  handleSettingsUpdate now msg_settings s =
  (Ok tt,
   (if again then fst (recomputed now s1) else s1),
   Emit settings_update (PSettings new)
   :: (if again then snd (recomputed now s1) else [])).
Proof.
  intros Hws Hopen Hsend. cbn zeta.
  destruct s as [cfg w sid ra subs st tc should h trig]. cbn in Hws. subst w.
  unfold handleSettingsUpdate, bind, modify, gets, ret, events_emit, tell.
  cbn -[updateSubscriptionsFromSettings recomputed].
  destruct should; [|reflexivity].
  cbn -[updateSubscriptionsFromSettings recomputed].
  destruct (existsb _ trig); [|reflexivity].
  (erewrite updateSubscriptionsFromSettings_open by (try reflexivity; eassumption)).
  reflexivity.
Qed.

(** The test of the settings-update branch, on the values of the key:
    it fires when the new list has the key and the value of the key is not
    what it was (the key was absent, or had another value). *)
Lemma trigger_fired_value prev new k :
  trigger_fired prev new k = true <->
  is_Some (setting_value k new) /\ setting_value k prev <> setting_value k new.
Proof.
  unfold trigger_fired, setting_value.
  destruct (find_setting k prev) as [o|], (find_setting k new) as [n|]; cbn.
  - unfold strict_neq. rewrite negb_true_iff, bool_decide_eq_false. split.
    + intros Hne. split; [by eexists | congruence].
    + intros [_ Hne] Heq. apply Hne. by rewrite Heq.
  - split; [done|]. by intros [[? ?] _].
  - split; [|done]. intros _. split; [by eexists | done].
  - split; [done|]. by intros [[? ?] _].
Qed.

(** C8, as the claim states it, fails: the session watches the captions
    setting and is subscribed to transcriptions; a settings update whose
    list no longer has the key changes the value of the watched key (it was
    [true], it is absent now), and the claim asks for a recomputation. The
    code tests [oldSetting && newSetting], so nothing is recomputed and
    nothing is pushed: the transcription stream stays subscribed although
    the handler, run on the new settings, returns no tag. *)
Lemma settings_update_ignores_removed_key :
  (shouldUpdateSubscriptionsOnSettingsChange captions_session = true /\
   "captions" ∈ subscriptionUpdateTriggers captions_session /\
   is_open (ws captions_session) = true) /\
  (setting_value "captions" (settings captions_session) = Some (PBool true) /\
   setting_value "captions" [] = None) /\
  handleMessage 0 (fun _ => true) (SettingsUpdate (Some [])) captions_session =
    (Ok tt, set_settings [] captions_session, [Emit settings_update (PSettings [])]) /\
  subscriptions (set_settings ([] : list AppSetting) captions_session) =
    [TRANSCRIPTION] /\
  captions_handler [] = Ok [].
Proof.
  split; [split; [reflexivity|split; [apply list_elem_of_here|reflexivity]]|].
  repeat split; vm_compute; reflexivity.
Qed.

(** C8, amended: on an open channel, a settings-update message makes the
    session replace its settings with the carried list (the empty list when
    there is none) and emit [settings_update] with them. When
    settings-driven subscriptions are enabled, it recomputes the
    subscriptions exactly when, for some watched key, the new list has the
    key and the value of the key is not what it was before (the key was
    absent, or had another value); a watched key that is no longer in the
    list does not count. A recomputation replaces the subscriptions by the
    handler's tags and pushes them in one frame, the subscription update
    that names exactly these tags; a handler that throws leaves the
    subscriptions alone and pushes nothing. Otherwise, and when the mode is
    off, the subscriptions stay and nothing is pushed. *)
Theorem handleMessage_settings_update (validate : TpaConfig -> bool)
    (msg_settings : option (list AppSetting)) (s : TpaSession) sock :
  ws s = Some sock -> readyState sock = 1 -> sendError sock = None ->
  let prev := settings s in
  let new := default [] msg_settings in
  let s1 := set_settings new s in
  let changed := existsb (trigger_fired prev new) (subscriptionUpdateTriggers s) in
  let again := shouldUpdateSubscriptionsOnSettingsChange s && changed in
  let frame subs :=
    JObj [("type", JStr SUBSCRIPTION_UPDATE);
          ("packageName", JStr (packageName (config s)));
          ("subscriptions", JArr (map (fun t => JStr (stream_name t)) subs));
          ("sessionId", match sessionId s with Some x => JStr x | None => JNull end);
          ("timestamp", JDate now)] in
  let recompute :=
    if again
    then match subscriptionSettingsHandler s with
         | Some handler => Some (handler new)
         | None => None
         end
    else None in
  handleMessage now validate (SettingsUpdate msg_settings) s =
    (Ok tt,
     (if again then fst (recomputed now s1) else s1),
     Emit settings_update (PSettings new)
     :: (if again then snd (recomputed now s1) else [])) /\
  settings (snd (fst (handleMessage now validate (SettingsUpdate msg_settings) s))) = new /\
  (changed = true <->
   exists k, k ∈ subscriptionUpdateTriggers s /\
             is_Some (setting_value k new) /\
             setting_value k prev <> setting_value k new) /\
  frames (snd (handleMessage now validate (SettingsUpdate msg_settings) s)) =
    match recompute with
    | Some (Ok tags) => [frame (subs_of_list tags)]
    | _ => []
    end /\
  subscriptions (snd (fst (handleMessage now validate (SettingsUpdate msg_settings) s))) =
    match recompute with
    | Some (Ok tags) => subs_of_list tags
    | _ => subscriptions s
    end /\
  (forall t tags, t ∈ subs_of_list tags <-> t ∈ tags).
Proof.
  intros Hws Hopen Hsend. cbn zeta.
  assert (Heq : handleMessage now validate (SettingsUpdate msg_settings) s =
                handleSettingsUpdate now msg_settings s).
  { unfold handleMessage, catch. cbn [validateMessage negb].
    rewrite (handleSettingsUpdate_open msg_settings s sock) by done. reflexivity. }
  rewrite Heq, (handleSettingsUpdate_open msg_settings s sock) by done.
  split; [reflexivity|]. split; [|split; [|split; [|split]]].
  - cbn [fst snd]. destruct (_ && _); [by rewrite recomputed_settings | done].
  - rewrite existsb_exists. split.
    + intros (k & Hin & Hk). exists k. split; [by apply list_elem_of_In|].
      by apply trigger_fired_value.
    + intros (k & Hin & Hk). exists k. split; [by apply list_elem_of_In|].
      by apply trigger_fired_value.
  - cbn [snd]. unfold recomputed.
    cbn [subscriptionSettingsHandler settings set_settings config sessionId].
    destruct (_ && _); destruct (subscriptionSettingsHandler s) as [handler|];
      try reflexivity; by destruct (handler (default [] msg_settings)).
  - cbn [fst snd]. unfold recomputed.
    cbn [subscriptionSettingsHandler settings set_settings config sessionId].
    destruct (_ && _); destruct (subscriptionSettingsHandler s) as [handler|];
      try reflexivity; by destruct (handler (default [] msg_settings)).
  - apply subs_of_list_elem.
Qed.

(** *** Reconnection *)

Lemma reconnection_blocked_iff (s : TpaSession) :
  reconnection_blocked s = true <->
  default false (autoReconnect (config s)) = false \/
  truthy_string (sessionId s) = false \/
  or_default (maxReconnectAttempts (config s)) 5 <= Z.of_nat (reconnectAttempts s).
Proof.
  unfold reconnection_blocked.
  rewrite !orb_true_iff, !negb_true_iff, Z.leb_le. tauto.
Qed.

(** The guard of [handleReconnection], written out: [!autoReconnect],
    [!sessionId], and the counter against [maxReconnectAttempts || 5]. *)
Lemma reconnection_blocked_spelled (s : TpaSession) :
  reconnection_blocked s = true <->
  autoReconnect (config s) <> Some true \/
  (sessionId s = None \/ sessionId s = Some EmptyString) \/
  match maxReconnectAttempts (config s) with
  | Some n => if n =? 0 then 5 else n
  | None => 5
  end <= Z.of_nat (reconnectAttempts s).
Proof.
  rewrite reconnection_blocked_iff. unfold or_default, truthy_string.
  assert (Hauto : default false (autoReconnect (config s)) = false <->
                  autoReconnect (config s) <> Some true).
  { destruct (autoReconnect (config s)) as [[]|]; cbn; split; congruence. }
  assert (Hsid : match sessionId s with
                 | Some x => negb (String.eqb x EmptyString)
                 | None => false
                 end = false <->
                 sessionId s = None \/ sessionId s = Some EmptyString).
  { destruct (sessionId s) as [x|]; [|split; [by left | done]].
    rewrite negb_false_iff, String.eqb_eq. split.
    - intros ->. by right.
    - intros [?|?]; congruence. }
  rewrite Hauto, Hsid. reflexivity.
Qed.

Lemma or_default_spelled x d :
  or_default x d = match x with Some n => if n =? 0 then d else n | None => d end.
Proof. reflexivity. Qed.

Lemma handleReconnection_arm_unfold (s : TpaSession) :
  handleReconnection_arm s =
  if reconnection_blocked s then (Ok None, s, [])
  else (Ok (Some (reconnection_delay s)),
        set_reconnectAttempts (S (reconnectAttempts s)) s,
        [Wait (reconnection_delay s)]).
Proof.
  unfold handleReconnection_arm, bind, gets, modify, tell, ret. cbn.
  by destruct (reconnection_blocked s).
Qed.

Lemma handleReconnection_unfold connect (s : TpaSession) :
  handleReconnection connect s =
  if reconnection_blocked s then (Ok tt, s, [])
  else
    let s' := set_reconnectAttempts (S (reconnectAttempts s)) s in
    match connect (sessionId s) s' with
    | (Ok _, s1, l1) =>
        (Ok tt, set_reconnectAttempts 0 s1,
         Wait (reconnection_delay s) :: Connect (sessionId s) :: l1)
    | (Throw _, s1, l1) =>
        (Ok tt, s1,
         Wait (reconnection_delay s) :: Connect (sessionId s) :: l1
         ++ [Emit error (PError (Error "Reconnection failed"))])
    end.
Proof.
  unfold handleReconnection, bind at 1. rewrite handleReconnection_arm_unfold.
  destruct (reconnection_blocked s); [reflexivity|].
  unfold handleReconnection_resume, catch, bind, gets, tell, modify, emit_error,
    events_emit. cbn.
  destruct (connect (sessionId s) _) as [[[[]|e] s1] l1]; cbn;
    by rewrite ?app_nil_r.
Qed.

Lemma reconnect_steps_app l1 l2 :
  reconnect_steps (l1 ++ l2) = reconnect_steps l1 ++ reconnect_steps l2.
Proof. unfold reconnect_steps. apply List.filter_app. Qed.

(** The attempts left before the guard stops the reconnection. *)
Lemma attempts_left_step (s s1 : TpaSession) :
  reconnection_blocked s = false ->
  config s1 = config s -> sessionId s1 = sessionId s ->
  reconnectAttempts s1 = S (reconnectAttempts s) ->
  (if reconnection_blocked s1 then 0%nat
   else Z.to_nat (or_default (maxReconnectAttempts (config s1)) 5
                  - Z.of_nat (reconnectAttempts s1))) =
  Nat.pred (Z.to_nat (or_default (maxReconnectAttempts (config s)) 5
                      - Z.of_nat (reconnectAttempts s))) /\
  (0 < Z.to_nat (or_default (maxReconnectAttempts (config s)) 5
                 - Z.of_nat (reconnectAttempts s)))%nat.
Proof.
  intros Hb Hc Hs Ha.
  apply not_true_iff_false in Hb. rewrite reconnection_blocked_iff in Hb.
  assert (Hlt : Z.of_nat (reconnectAttempts s)
                < or_default (maxReconnectAttempts (config s)) 5).
  { apply Z.nle_gt. tauto. }
  destruct (reconnection_blocked s1) eqn:Hb1.
  - apply reconnection_blocked_iff in Hb1. rewrite Hc, Hs, Ha in Hb1.
    assert (or_default (maxReconnectAttempts (config s)) 5
            <= Z.of_nat (S (reconnectAttempts s))) by tauto.
    split; lia.
  - rewrite Hc, Ha. split; lia.
Qed.

Lemma closes_steps (failing : option string -> M unit) :
  (forall sid s0, is_ok (fst (fst (failing sid s0))) = false) ->
  (forall s0,
     config (snd (fst (failing (sessionId s0) s0))) = config s0 /\
     sessionId (snd (fst (failing (sessionId s0) s0))) = sessionId s0 /\
     reconnectAttempts (snd (fst (failing (sessionId s0) s0))) = reconnectAttempts s0) ->
  (forall sid s0, reconnect_steps (snd (failing sid s0)) = []) ->
  forall n (s : TpaSession),
    reconnect_steps (snd (closes failing n s)) =
    backoff_steps (or_default (reconnectDelay (config s)) 1000)
      (reconnectAttempts s) (sessionId s)
      (Nat.min n
         (if reconnection_blocked s then 0%nat
          else Z.to_nat (or_default (maxReconnectAttempts (config s)) 5
                         - Z.of_nat (reconnectAttempts s)))).
Proof.
  intros Hrej Hframe Hquiet n. induction n as [|n IH]; intros s; [reflexivity|].
  cbn [closes]. unfold bind. rewrite handleReconnection_unfold.
  destruct (reconnection_blocked s) eqn:Hb.
  - specialize (IH s). rewrite Hb in IH.
    destruct (closes failing n s) as [[r s2] l2]. cbn [snd] in *.
    cbn [app]. rewrite IH. by rewrite !Nat.min_0_r.
  - cbn zeta.
    specialize (Hrej (sessionId s) (set_reconnectAttempts (S (reconnectAttempts s)) s)).
    specialize (Hframe (set_reconnectAttempts (S (reconnectAttempts s)) s)).
    cbn [sessionId set_reconnectAttempts] in Hframe.
    specialize (Hquiet (sessionId s) (set_reconnectAttempts (S (reconnectAttempts s)) s)).
    destruct (failing (sessionId s) _) as [[[[]|e] s1] l1]; [discriminate|].
    cbn [fst snd] in *. destruct Hframe as (Hc & Hs & Ha).
    cbn [config sessionId reconnectAttempts set_reconnectAttempts] in Hc, Hs, Ha.
    specialize (IH s1).
    destruct (attempts_left_step s s1 Hb Hc Hs Ha) as [Hleft Hpos].
    rewrite Hleft in IH.
    destruct (closes failing n s1) as [[r s2] l2]. cbn [snd] in *.
    change (?a :: ?b :: ?l) with ([a; b] ++ l).
    rewrite !reconnect_steps_app, Hquiet, IH, Hc, Hs, Ha.
    destruct (Z.to_nat _) as [|k]; [lia|].
    cbn [Nat.pred Nat.min backoff_steps seq flat_map reconnect_steps List.filter app].
    unfold reconnection_delay.
    replace (Z.of_nat (S (reconnectAttempts s)) - 1) with (Z.of_nat (reconnectAttempts s)) by lia.
    reflexivity.
Qed.

(** The frame of [unanswered_connect]: it rejects, and it writes neither
    the configuration nor the counter; the session id becomes its
    argument. *)
Lemma unanswered_connect_rejects sid (s0 : TpaSession) :
  is_ok (fst (fst (unanswered_connect sid s0))) = false /\
  config (snd (fst (unanswered_connect sid s0))) = config s0 /\
  sessionId (snd (fst (unanswered_connect sid s0))) = sid /\
  reconnectAttempts (snd (fst (unanswered_connect sid s0))) = reconnectAttempts s0 /\
  reconnect_steps (snd (unanswered_connect sid s0)) = [].
Proof.
  destruct s0 as [cfg [sock|] sid0 ra subs st tc should h trig];
    unfold unanswered_connect, bind, modify, gets, tell, ret, throw, emit_error,
      events_emit; cbn;
    try destruct (negb (readyState sock =? 3)); cbn;
    destruct (negb (truthy_string (augmentOSWebsocketUrl cfg))); cbn; done.
Qed.

(** C4, as the claim states it, fails: with the maximum configured as 0
    the counter, which starts at 0, has reached the configured maximum, and
    the claim asks for a no-op; the code reads the maximum as
    [maxReconnectAttempts || 5], so it waits and calls [connect], five
    times in a row when every attempt fails. *)
Lemma handleReconnection_with_zero_maximum :
  maxReconnectAttempts (config zero_maximum_session) = Some 0 /\
  reconnectAttempts zero_maximum_session = 0%nat /\
  reconnect_steps (snd (handleReconnection unanswered_connect zero_maximum_session)) =
    [Wait 1000; Connect (Some "session_123")] /\
  connect_calls (snd (closes unanswered_connect 7 zero_maximum_session)) =
    [Some "session_123"; Some "session_123"; Some "session_123";
     Some "session_123"; Some "session_123"].
Proof. repeat split; vm_compute; done. Qed.

(** C4, amended: [handleReconnection] does nothing when [autoReconnect] is
    not [true], when no session id is set ([null] or the empty string), or
    when the attempt counter has reached the maximum, which is the
    configured [maxReconnectAttempts] when that is a number other than 0
    and 5 otherwise (a configured 0, which is also what the constructor
    fills in, counts as not configured). Otherwise attempt [N], counted
    from 1, raises the counter to [N] before it waits, waits
    [baseDelay * 2 ^ (N - 1)] (the configured [reconnectDelay], or 1000
    when none or 0 is configured), then calls [connect] with the session
    id; the counter goes back to zero when [connect] resolves and is left
    alone when it rejects, in which case an [error] event is emitted. When
    every [connect] rejects (and, called with the session id of the
    session, leaves the configuration, the session id and the counter as
    they are, as the [connect] of the class does), the waits and calls of
    [n] closes in a row are those of the attempts up to the maximum, and
    there is none after it. *)
Theorem handleReconnection_backoff (connect failing : option string -> M unit)
    (s : TpaSession) :
  (forall sid s0, is_ok (fst (fst (failing sid s0))) = false) ->
  (forall s0,
     config (snd (fst (failing (sessionId s0) s0))) = config s0 /\
     sessionId (snd (fst (failing (sessionId s0) s0))) = sessionId s0 /\
     reconnectAttempts (snd (fst (failing (sessionId s0) s0))) = reconnectAttempts s0) ->
  (forall sid s0, reconnect_steps (snd (failing sid s0)) = []) ->
  let maxAttempts :=
    match maxReconnectAttempts (config s) with
    | Some n => if n =? 0 then 5 else n
    | None => 5
    end in
  let baseDelay :=
    match reconnectDelay (config s) with
    | Some d => if d =? 0 then 1000 else d
    | None => 1000
    end in
  let N := S (reconnectAttempts s) in
  (reconnection_blocked s = true <->
   autoReconnect (config s) <> Some true \/
   (sessionId s = None \/ sessionId s = Some EmptyString) \/
   maxAttempts <= Z.of_nat (reconnectAttempts s)) /\
  (if reconnection_blocked s then
     handleReconnection connect s = (Ok tt, s, [])
   else
     handleReconnection_arm s =
       (Ok (Some (baseDelay * 2 ^ (Z.of_nat N - 1))),
        set_reconnectAttempts N s,
        [Wait (baseDelay * 2 ^ (Z.of_nat N - 1))]) /\
     handleReconnection connect s =
       match connect (sessionId s) (set_reconnectAttempts N s) with
       | (Ok _, s1, l1) =>
           (Ok tt, set_reconnectAttempts 0 s1,
            Wait (baseDelay * 2 ^ (Z.of_nat N - 1)) :: Connect (sessionId s) :: l1)
       | (Throw _, s1, l1) =>
           (Ok tt, s1,
            Wait (baseDelay * 2 ^ (Z.of_nat N - 1)) :: Connect (sessionId s) :: l1
            ++ [Emit error (PError (Error "Reconnection failed"))])
       end) /\
  (forall n,
     reconnect_steps (snd (closes failing n s)) =
     backoff_steps baseDelay (reconnectAttempts s) (sessionId s)
       (Nat.min n (if reconnection_blocked s then 0%nat
                   else Z.to_nat (maxAttempts - Z.of_nat (reconnectAttempts s))))) /\
  (forall a sid k,
     backoff_steps baseDelay a sid k =
     flat_map (fun i => [Wait (baseDelay * 2 ^ (Z.of_nat i - 1)); Connect sid])
              (seq (S a) k)) /\
  maxReconnectAttempts (config (new_TpaSession example_config)) = Some 0 /\
  reconnectDelay (config (new_TpaSession example_config)) = Some 1000 /\
  autoReconnect (config (new_TpaSession example_config)) = Some true.
Proof.
  intros Hrej Hframe Hquiet. cbn zeta. rewrite <- !or_default_spelled.
  split; [apply reconnection_blocked_spelled|]. split; [|split; [|done]].
  - rewrite handleReconnection_unfold, handleReconnection_arm_unfold.
    destruct (reconnection_blocked s); [reflexivity|].
    unfold reconnection_delay.
    replace (Z.of_nat (S (reconnectAttempts s)) - 1)
      with (Z.of_nat (reconnectAttempts s)) by lia.
    split; reflexivity.
  - intros n. by apply closes_steps.
Qed.

End SessionProperties.

Section SessionWitnesses.
Import Events Session.

Lemma send_failure_emits_error_witness :
  (exists sock, ws (set_ws (Some connecting_socket) (new_TpaSession example_config)) = Some sock
                /\ readyState sock <> 1) /\
  exists e,
    send 0 (JObj [("type", JStr "x")])
      (set_ws (Some connecting_socket) (new_TpaSession example_config)) =
    (Throw e, set_ws (Some connecting_socket) (new_TpaSession example_config),
     [Emit error (PError e)]) /\
    message e = "WebSocket not connected (current state: CONNECTING)".
Proof.
  assert (Hs : exists sock,
             ws (set_ws (Some connecting_socket) (new_TpaSession example_config)) = Some sock
             /\ readyState sock <> 1).
  { exists connecting_socket. split; [reflexivity | discriminate]. }
  split; [exact Hs|].
  destruct (send_failure_emits_error 0 (JObj [("type", JStr "x")])
              (set_ws (Some connecting_socket) (new_TpaSession example_config))
              (or_intror (or_introl Hs))) as (e & Hsend & Hmsg & _).
  exists e. split; [exact Hsend | exact Hmsg].
Defined.


Lemma handleReconnection_backoff_witness :
  (forall sid s0, is_ok (fst (fst (unanswered_connect sid s0))) = false) /\
  reconnect_steps
    (snd (closes unanswered_connect 7
            (set_sessionId (Some "session_123") (new_TpaSession example_config)))) =
  [Wait 1000; Connect (Some "session_123");
   Wait 2000; Connect (Some "session_123");
   Wait 4000; Connect (Some "session_123");
   Wait 8000; Connect (Some "session_123");
   Wait 16000; Connect (Some "session_123")].
Proof.
  split; [intros sid s0; apply unanswered_connect_rejects|].
  exact (proj1 (proj2 (proj2 (handleReconnection_backoff resolving_connect
                  unanswered_connect
                  (set_sessionId (Some "session_123") (new_TpaSession example_config))
                  (fun sid s0 => proj1 (unanswered_connect_rejects sid s0))
                  (fun s0 =>
                     let H := unanswered_connect_rejects (sessionId s0) s0 in
                     conj (proj1 (proj2 H))
                          (conj (proj1 (proj2 (proj2 H)))
                                (proj1 (proj2 (proj2 (proj2 H))))))
                  (fun sid s0 =>
                     proj2 (proj2 (proj2 (proj2 (unanswered_connect_rejects sid s0)))))))) 7%nat).
Defined.

Lemma subscribe_while_closed_defers_push_witness :
  is_open (ws (new_TpaSession example_config)) = false /\
  subscribe 0 HEAD_POSITION (new_TpaSession example_config) =
    (Ok tt, set_subscriptions [HEAD_POSITION] (new_TpaSession example_config), []) /\
  updateSubscriptions 0
    (set_ws (Some open_socket)
       (set_subscriptions [HEAD_POSITION] (new_TpaSession example_config))) =
    (Ok tt,
     set_ws (Some open_socket)
       (set_subscriptions [HEAD_POSITION] (new_TpaSession example_config)),
     [WsSend (JObj [("type", JStr SUBSCRIPTION_UPDATE);
                    ("packageName", JStr "org.example.myapp");
                    ("subscriptions", JArr [JStr (stream_name HEAD_POSITION)]);
                    ("sessionId", JNull);
                    ("timestamp", JDate 0)])]).
Proof.
  split; [reflexivity|].
  split.
  - exact (proj1 (subscribe_while_closed_defers_push 0 HEAD_POSITION
                    (new_TpaSession example_config) eq_refl)).
  - exact (proj1 (proj2 (proj2 (subscribe_while_closed_defers_push 0 HEAD_POSITION
                                  (new_TpaSession example_config) eq_refl)))).
Defined.

Lemma handleMessage_connection_ack_witness :
  (ws (set_subscriptions [HEAD_POSITION] captions_session) = Some open_socket /\
   readyState open_socket = 1 /\ sendError open_socket = None) /\
  handleMessage 0 (fun _ => true) (TpaConnectionAck None (Some example_tpa_config))
    (set_subscriptions [HEAD_POSITION] captions_session) =
  (Ok tt,
   set_subscriptions [TRANSCRIPTION]
     (set_settings
        [{| key := "vol"; stype := "slider"; value := PNum 1; defaultValue := PNum 1 |};
         {| key := "captions"; stype := "toggle"; value := PBool true;
            defaultValue := PBool true |}]
        (set_tpaConfig (Some example_tpa_config)
           (set_subscriptions [HEAD_POSITION] captions_session))),
   [Emit connected
      (PSettings
         [{| key := "vol"; stype := "slider"; value := PNum 1; defaultValue := PNum 1 |};
          {| key := "captions"; stype := "toggle"; value := PBool true;
             defaultValue := PBool true |}]);
    WsSend (JObj [("type", JStr SUBSCRIPTION_UPDATE);
                  ("packageName", JStr "org.example.myapp");
                  ("subscriptions", JArr [JStr (stream_name HEAD_POSITION)]);
                  ("sessionId", JStr "session_123");
                  ("timestamp", JDate 0)]);
    WsSend (JObj [("type", JStr SUBSCRIPTION_UPDATE);
                  ("packageName", JStr "org.example.myapp");
                  ("subscriptions", JArr [JStr (stream_name TRANSCRIPTION)]);
                  ("sessionId", JStr "session_123");
                  ("timestamp", JDate 0)])]).
Proof.
  split; [done|].
  exact (proj1 (handleMessage_connection_ack 0 (fun _ => true) None
                  (Some example_tpa_config)
                  (set_subscriptions [HEAD_POSITION] captions_session)
                  open_socket eq_refl eq_refl eq_refl)).
Defined.

Lemma handleMessage_settings_update_witness :
  (ws example_session = Some open_socket /\ readyState open_socket = 1
   /\ sendError open_socket = None) /\
  handleMessage 0 (fun _ => true) (SettingsUpdate (Some [captions_setting false]))
    (set_subscriptionSettings ["captions"] captions_handler example_session) =
  (Ok tt,
   set_subscriptions []
     (set_settings [captions_setting false]
        (set_subscriptionSettings ["captions"] captions_handler example_session)),
   [Emit settings_update (PSettings [captions_setting false]);
    WsSend (JObj [("type", JStr SUBSCRIPTION_UPDATE);
                  ("packageName", JStr "org.example.myapp");
                  ("subscriptions", JArr []);
                  ("sessionId", JStr "session_123");
                  ("timestamp", JDate 0)])]).
Proof.
  split; [done|].
  exact (proj1 (handleMessage_settings_update 0 (fun _ => true)
                  (Some [captions_setting false])
                  (set_subscriptionSettings ["captions"] captions_handler example_session)
                  open_socket eq_refl eq_refl eq_refl)).
Defined.

End SessionWitnesses.

(** ** The copy made by [getSettings] *)

Section AliasingProperties.
Import Session Aliasing.

Lemma setting_at_insert_array (h : heap) a elems r :
  setting_at h a = None ->
  setting_at (<[a := ArrayCell elems]> h) r = setting_at h r.
Proof.
  intros Ha. unfold setting_at in *. destruct (decide (a = r)) as [->|Hne].
  - by rewrite lookup_insert_eq, Ha.
  - by rewrite lookup_insert_ne.
Qed.

Lemma omap_pointwise {A B} (f g : A -> option B) (l : list A) :
  (forall x, f x = g x) -> omap f l = omap g l.
Proof.
  intros Hfg. induction l as [|x l IH]; [done|]. cbn. by rewrite Hfg, IH.
Qed.

Lemma array_at_insert_ne (h : heap) a elems l :
  a <> l -> array_at (<[a := ArrayCell elems]> h) l = array_at h l.
Proof. intros Hne. unfold array_at. by rewrite lookup_insert_ne. Qed.

Lemma array_at_insert_eq (h : heap) a elems :
  array_at (<[a := ArrayCell elems]> h) a = elems.
Proof. unfold array_at. by rewrite lookup_insert_eq. Qed.

Lemma settings_value_insert_array (h : heap) a elems l :
  setting_at h a = None -> a <> l ->
  settings_value (<[a := ArrayCell elems]> h) l = settings_value h l.
Proof.
  intros Ha Hne. unfold settings_value. rewrite array_at_insert_ne by done.
  apply omap_pointwise. intros r. by apply setting_at_insert_array.
Qed.

Lemma fresh_not_allocated (h : heap) : h !! fresh (dom h) = None.
Proof. apply not_elem_of_dom. apply is_fresh. Qed.

Lemma getSettings_copy (s : RefSession) (h : heap) :
  let a := snd (getSettings s h) in
  let h1 := snd (fst (getSettings s h)) in
  fst (fst (getSettings s h)) = s /\
  h !! a = None /\
  (forall l, l <> a -> h1 !! l = h !! l) /\
  array_at h1 a = array_at h (settings s) /\
  settings_value h1 a = settings_value h (settings s).
Proof.
  cbn. pose proof (fresh_not_allocated h) as Hf.
  split; [done|]. split; [done|]. split; [|split].
  - intros l Hl. by rewrite lookup_insert_ne.
  - apply array_at_insert_eq.
  - unfold settings_value. rewrite array_at_insert_eq.
    apply omap_pointwise. intros r.
    apply setting_at_insert_array. unfold setting_at. by rewrite Hf.
Qed.

(** C9: [getSettings] changes no field of the session and no object that
    existed before the call; it returns a new array with the elements of
    [this.settings]. Whatever an array mutation then makes of the returned
    array, the settings field, a later [getSettings] and a later
    [getSetting] give what they gave before. *)
Theorem getSettings_returns_fresh_copy (s : RefSession) (h : heap) (k : string)
    (elems : list loc) :
  is_Some (h !! settings s) ->
  let a := snd (getSettings s h) in
  let h1 := snd (fst (getSettings s h)) in
  let h2 := array_mutate a elems h1 in
  fst (fst (getSettings s h)) = s /\
  h !! a = None /\
  (forall l, l <> a -> h1 !! l = h !! l) /\
  settings_value h1 a = settings_value h (settings s) /\
  settings_value h2 (settings s) = settings_value h (settings s) /\
  settings_value (snd (fst (getSettings s h2))) (snd (getSettings s h2)) =
    settings_value h (settings s) /\
  snd (getSetting k s h2) = snd (getSetting k s h) /\
  abstract s h2 = abstract s h.
Proof.
  intros Hs. cbn zeta.
  destruct (getSettings_copy s h) as (Hfield & Hfresh & Hframe & _ & Hcopy).
  split; [exact Hfield|]. split; [exact Hfresh|]. split; [exact Hframe|].
  split; [exact Hcopy|].
  assert (Hne : snd (getSettings s h) <> settings s).
  { intros Heq. rewrite Heq in Hfresh. rewrite Hfresh in Hs. by destruct Hs. }
  assert (H2 : settings_value
                 (array_mutate (snd (getSettings s h)) elems (snd (fst (getSettings s h))))
                 (settings s) = settings_value h (settings s)).
  { unfold array_mutate. cbn [getSettings fst snd] in *.
    rewrite insert_insert_eq.
    apply settings_value_insert_array; [|done].
    unfold setting_at. by rewrite Hfresh. }
  split; [exact H2|]. split; [|split].
  - destruct (getSettings_copy s
      (array_mutate (snd (getSettings s h)) elems (snd (fst (getSettings s h)))))
      as (_ & _ & _ & _ & Hcopy2).
    by rewrite Hcopy2.
  - unfold getSetting. cbn [snd]. by rewrite H2.
  - unfold abstract. by rewrite H2.
Qed.

(** On values, the returned array is what [Session.getSettings] returns. *)
Lemma getSettings_refines (s : RefSession) (h : heap) :
  Session.getSettings (abstract s h) =
  (Ok (settings_value (snd (fst (getSettings s h))) (snd (getSettings s h))),
   abstract s h, []).
Proof.
  destruct (getSettings_copy s h) as (_ & _ & _ & _ & Hcopy).
  by rewrite Hcopy.
Qed.

(** The copy is shallow: the new array holds the same setting objects, so
    a write to an element of the returned array is seen by [getSetting]. *)
Example getSettings_shares_the_setting_objects :
  let a := snd (getSettings example_ref_session example_heap) in
  let h1 := snd (fst (getSettings example_ref_session example_heap)) in
  snd (getSetting "vol" example_ref_session h1) = PNum 5 /\
  snd (getSetting "vol" example_ref_session (element_write a 0 (PNum 9) h1)) = PNum 9.
Proof. split; vm_compute; reflexivity. Qed.

End AliasingProperties.

(** ** End to end *)

Section RuntimeExamples.
Import Events Session Runtime.

(** A [send] without a channel: the caller gets the exception, and the
    [error] listener gets the same error as an event. *)
Example send_failure_reaches_error_listener :
  fst (fst (send 0 (JObj [("type", JStr "display_event")])
              (new_TpaSession example_config))) =
    Throw (Error "WebSocket connection not established") /\
  calls_of
    (route (snd (send 0 (JObj [("type", JStr "display_event")])
                   (new_TpaSession example_config)))
       listening) =
    [Invoked 9 error (PError (Error "WebSocket connection not established"))].
Proof. split; vm_compute; reflexivity. Qed.

(** A data-stream message for a subscribed head-position stream whose data
    has no [position]: the handler receives the default payload. *)
Example head_position_without_position_is_defaulted :
  calls_of
    (route (snd (handleMessage 7 (fun _ => true)
                   (DataStream (Some HEAD_POSITION) (JObj []))
                   (set_subscriptions [HEAD_POSITION] example_session)))
       listening) =
    [Invoked 1 (Stream HEAD_POSITION)
       (PData (JObj [("position", JStr "up"); ("timestamp", JDate 7)]))].
Proof. vm_compute. reflexivity. Qed.

(** A stream the session is not subscribed to is dropped. *)
Example unsubscribed_stream_is_dropped :
  snd (handleMessage 7 (fun _ => true)
         (DataStream (Some BUTTON_PRESS) (JObj [])) example_session) = [].
Proof. vm_compute. reflexivity. Qed.

End RuntimeExamples.

Section AliasingWitnesses.
Import Session Aliasing.

Lemma getSettings_returns_fresh_copy_witness :
  is_Some (example_heap !! settings example_ref_session) /\
  snd (getSetting "vol" example_ref_session
         (array_mutate (snd (getSettings example_ref_session example_heap)) []
            (snd (fst (getSettings example_ref_session example_heap))))) =
  snd (getSetting "vol" example_ref_session example_heap).
Proof.
  assert (Hs : is_Some (example_heap !! settings example_ref_session)).
  { by eexists. }
  split; [exact Hs|].
  exact (proj1 (proj2 (proj2 (proj2 (proj2 (proj2 (proj2
           (getSettings_returns_fresh_copy example_ref_session example_heap
              "vol" [] Hs)))))))).
Defined.

End AliasingWitnesses.

(** * Further properties *)

(** ** Programs *)

Section ProgInvariantLemmas.
Context {S L : Type}.
Context (R : S -> S -> Prop) `{!PreOrder R}.

Lemma keeps_ret {A} (a : A) : keeps R (ret (L:=L) a).
Proof. intros s. reflexivity. Qed.

Lemma keeps_throw {A} e : keeps R (throw (L:=L) (A:=A) e).
Proof. intros s. reflexivity. Qed.

Lemma keeps_gets {A} (f : S -> A) : keeps R (gets (L:=L) f).
Proof. intros s. reflexivity. Qed.

Lemma keeps_tell (x : L) : keeps R (tell x).
Proof. intros s. reflexivity. Qed.

Lemma keeps_lift {A} (r : Result A) : keeps R (lift (L:=L) r).
Proof. intros s. reflexivity. Qed.

Lemma keeps_modify (f : S -> S) :
  (forall s, R s (f s)) -> keeps R (modify (L:=L) f).
Proof. intros Hf s. apply Hf. Qed.

Lemma keeps_bind {A B} (m : Prog S L A) (k : A -> Prog S L B) :
  keeps R m -> (forall a, keeps R (k a)) -> keeps R (bind m k).
Proof.
  intros Hm Hk s. unfold bind. specialize (Hm s).
  destruct (m s) as [[[a|e] s1] l1]; cbn in *; [|exact Hm].
  specialize (Hk a s1). destruct (k a s1) as [[r s2] l2]. cbn in *.
  by etransitivity.
Qed.

Lemma keeps_catch {A} (m : Prog S L A) (h : JsError -> Prog S L A) :
  keeps R m -> (forall e, keeps R (h e)) -> keeps R (catch m h).
Proof.
  intros Hm Hh s. unfold catch. specialize (Hm s).
  destruct (m s) as [[[a|e] s1] l1]; cbn in *; [exact Hm|].
  specialize (Hh e s1). destruct (h e s1) as [[r s2] l2]. cbn in *.
  by etransitivity.
Qed.

End ProgInvariantLemmas.

Section ProgLogLemmas.
Context {S L : Type}.
Context (P : L -> Prop).

Lemma logs_ret {A} (a : A) : logs P (ret (S:=S) a).
Proof. intros s. constructor. Qed.

Lemma logs_throw {A} e : logs P (throw (S:=S) (A:=A) e).
Proof. intros s. constructor. Qed.

Lemma logs_gets {A} (f : S -> A) : logs P (gets (L:=L) f).
Proof. intros s. constructor. Qed.

Lemma logs_modify (f : S -> S) : logs P (modify (L:=L) f).
Proof. intros s. constructor. Qed.

Lemma logs_lift {A} (r : Result A) : logs P (lift (S:=S) r).
Proof. intros s. constructor. Qed.

Lemma logs_tell (x : L) : P x -> logs P (tell (S:=S) x).
Proof. intros Hx s. by repeat constructor. Qed.

Lemma logs_bind {A B} (m : Prog S L A) (k : A -> Prog S L B) :
  logs P m -> (forall a, logs P (k a)) -> logs P (bind m k).
Proof.
  intros Hm Hk s. unfold bind. specialize (Hm s).
  destruct (m s) as [[[a|e] s1] l1]; cbn in *; [|exact Hm].
  specialize (Hk a s1). destruct (k a s1) as [[r s2] l2]. cbn in *.
  by apply Forall_app.
Qed.

Lemma logs_catch {A} (m : Prog S L A) (h : JsError -> Prog S L A) :
  logs P m -> (forall e, logs P (h e)) -> logs P (catch m h).
Proof.
  intros Hm Hh s. unfold catch. specialize (Hm s).
  destruct (m s) as [[[a|e] s1] l1]; cbn in *; [exact Hm|].
  specialize (Hh e s1). destruct (h e s1) as [[r s2] l2]. cbn in *.
  by apply Forall_app.
Qed.

End ProgLogLemmas.

(** ** More of the event manager *)

Section RegistryProperties.
Import Events Registry.

Lemma same_registrations_preorder : PreOrder same_registrations.
Proof.
  split.
  - by intros m.
  - intros m1 m2 m3 (E1 & H1 & S1 & C1) (E2 & H2 & S2 & C2).
    repeat split; congruence.
Qed.

#[local] Existing Instance same_registrations_preorder.

Lemma settingsHandler_logs ev data : logs (dispatch_call ev) (settingsHandler data).
Proof.
  unfold settingsHandler. apply logs_catch; [|intros; apply logs_ret].
  apply logs_bind.
  { destruct data; first [apply logs_ret | apply logs_throw]. }
  intros st. apply logs_bind; [apply logs_gets|]. intros c.
  destruct (find_setting (ckey c) st) as [setting|]; [|apply logs_ret].
  destruct (strict_neq _ _); [|apply logs_ret].
  apply logs_bind; [by apply logs_tell|]. intros _.
  apply logs_bind; [apply logs_lift|]. intros _. apply logs_modify.
Qed.

Lemma zoom_closure_logs {A} P cid (dflt : A) p :
  logs P p -> logs P (zoom_closure cid dflt p).
Proof.
  intros Hp m. unfold zoom_closure.
  destruct (closures m !! cid) as [c|]; [|constructor].
  specialize (Hp c). by destruct (p c) as [[r c'] l].
Qed.

Lemma zoom_closure_keeps {A} cid (dflt : A) p :
  keeps same_registrations (zoom_closure cid dflt p).
Proof.
  intros m. unfold zoom_closure.
  destruct (closures m !! cid) as [c|]; [|reflexivity].
  destruct (p c) as [[r c'] l]. cbn. repeat split. apply length_insert.
Qed.

Lemma call_listener_logs ev data l : logs (dispatch_call ev) (call_listener ev data l).
Proof.
  destruct l as [h|cid]; cbn [call_listener].
  - apply logs_bind; [by apply logs_tell|]. intros _.
    unfold call. destruct (hrun h data); [apply logs_throw | apply logs_ret].
  - apply zoom_closure_logs, settingsHandler_logs.
Qed.

Lemma call_listener_keeps ev data l :
  keeps same_registrations (call_listener ev data l).
Proof.
  destruct l as [h|cid]; cbn [call_listener].
  - apply (keeps_bind same_registrations); [apply (keeps_tell same_registrations)|]. intros _.
    unfold call. destruct (hrun h data);
      [apply (keeps_throw same_registrations) | apply (keeps_ret same_registrations)].
  - apply zoom_closure_keeps.
Qed.

Lemma run_listeners_logs ev data ls : logs (dispatch_call ev) (run_listeners ev data ls).
Proof.
  induction ls as [|l ls IH]; [apply logs_ret|].
  cbn [run_listeners]. apply logs_bind; [apply call_listener_logs | by intros _].
Qed.

Lemma run_listeners_keeps ev data ls :
  keeps same_registrations (run_listeners ev data ls).
Proof.
  induction ls as [|l ls IH]; [apply (keeps_ret same_registrations)|].
  cbn [run_listeners]. apply (keeps_bind same_registrations); [apply call_listener_keeps | by intros _].
Qed.

Lemma emitter_emit_logs ev data : logs (dispatch_call ev) (emitter_emit ev data).
Proof.
  unfold emitter_emit. apply logs_bind; [apply logs_gets|]. intros ls.
  destruct ls as [|l ls]; [destruct ev|];
    first [apply logs_throw | apply run_listeners_logs].
Qed.

Lemma emitter_emit_keeps ev data : keeps same_registrations (emitter_emit ev data).
Proof.
  unfold emitter_emit. apply (keeps_bind same_registrations); [apply (keeps_gets same_registrations)|].
  intros ls. destruct ls as [|l ls]; [destruct ev|];
    first [apply (keeps_throw same_registrations) | apply run_listeners_keeps].
Qed.

Lemma dispatch_error_emit_call ev c : dispatch_call error c -> emit_call ev c.
Proof. destruct c; cbn; auto. Qed.

Lemma dispatch_emit_call ev c : dispatch_call ev c -> emit_call ev c.
Proof. destruct c; cbn; auto. Qed.

Lemma logs_weaken {S L A} (P Q : L -> Prop) (p : Prog S L A) :
  (forall x, P x -> Q x) -> logs P p -> logs Q p.
Proof. intros HPQ Hp s. eapply Forall_impl; [apply Hp | exact HPQ]. Qed.

Lemma forEach_handler_logs ev data hs : logs (emit_call ev) (forEach_handler ev data hs).
Proof.
  induction hs as [|h hs IH]; [apply logs_ret|].
  cbn [forEach_handler]. apply logs_bind; [|by intros _].
  apply logs_catch.
  - apply logs_bind; [apply logs_tell; by left|]. intros _.
    unfold call. destruct (hrun h data); [apply logs_throw | apply logs_ret].
  - intros e. destruct (bool_decide _); [|apply logs_ret].
    eapply logs_weaken; [apply dispatch_error_emit_call | apply emitter_emit_logs].
Qed.

Lemma forEach_handler_keeps ev data hs :
  keeps same_registrations (forEach_handler ev data hs).
Proof.
  induction hs as [|h hs IH]; [apply (keeps_ret same_registrations)|].
  cbn [forEach_handler]. apply (keeps_bind same_registrations); [|by intros _].
  apply (keeps_catch same_registrations).
  - apply (keeps_bind same_registrations); [apply (keeps_tell same_registrations)|]. intros _.
    unfold call. destruct (hrun h data);
      [apply (keeps_throw same_registrations) | apply (keeps_ret same_registrations)].
  - intros e. destruct (bool_decide _);
      [apply emitter_emit_keeps | apply (keeps_ret same_registrations)].
Qed.

Lemma emit_logs ev data : logs (emit_call ev) (emit ev data).
Proof.
  unfold emit. apply logs_catch.
  - apply logs_bind.
    { eapply logs_weaken; [apply dispatch_emit_call | apply emitter_emit_logs]. }
    intros _. apply logs_bind; [apply logs_gets|]. intros hs.
    destruct hs as [hs|]; [apply forEach_handler_logs | apply logs_ret].
  - intros e. destruct (bool_decide _); [|apply logs_ret].
    apply logs_catch; [|intros; apply logs_ret].
    eapply logs_weaken; [apply dispatch_error_emit_call | apply emitter_emit_logs].
Qed.

Lemma emit_keeps ev data : keeps same_registrations (emit ev data).
Proof.
  unfold emit. apply (keeps_catch same_registrations).
  - apply (keeps_bind same_registrations); [apply emitter_emit_keeps|]. intros _.
    apply (keeps_bind same_registrations); [apply (keeps_gets same_registrations)|]. intros hs.
    destruct hs as [hs|]; [apply forEach_handler_keeps | apply (keeps_ret same_registrations)].
  - intros e. destruct (bool_decide _); [|apply (keeps_ret same_registrations)].
    apply (keeps_catch same_registrations); [apply emitter_emit_keeps|].
    intros; apply (keeps_ret same_registrations).
Qed.

(** X1: [emit] returns normally for every event, payload and manager:
    what a listener, a handler or the emitter throws never reaches the
    caller. *)
Theorem emit_never_throws ev data m : fst (fst (emit ev data m)) = Ok tt.
Proof.
  unfold emit, catch.
  destruct ((emitter_emit ev data;;
             hs <- gets (fun m0 => handlers m0 !! ev);;
             match hs with
             | Some hs0 => forEach_handler ev data hs0
             | None => ret tt
             end) m) as [[[[]|e] m1] l1]; [reflexivity|].
  destruct (bool_decide (ev <> error)); [|reflexivity].
  destruct (emitter_emit error _ m1) as [[[[]|e'] m2] l2]; reflexivity.
Qed.

(** X2: [emit] registers and removes nothing: the emitter's listeners, the
    stream handlers and the [subscribe] callback are the same after it, no
    closure is created or dropped, and it never calls [subscribe]; the
    functions it calls are called with the emitted event or with [error]. *)
Theorem emit_keeps_registrations ev data m :
  same_registrations m (state_of (emit ev data m)) /\
  Forall (emit_call ev) (calls_of (emit ev data m)) /\
  (forall t, Subscribed t ∉ calls_of (emit ev data m)).
Proof.
  split; [apply emit_keeps|]. split; [apply emit_logs|].
  intros t Hin. pose proof (emit_logs ev data m) as Hl.
  rewrite Forall_forall in Hl. exact (Hl _ Hin).
Qed.


Lemma invoked_ids_dispatch_error t log :
  Forall (dispatch_call error) log -> invoked_ids (Stream t) log = [].
Proof.
  induction 1 as [|c log Hc _ IH]; [reflexivity|].
  unfold invoked_ids in *. cbn [omap list_omap]. rewrite IH.
  destruct c as [h ev d| |]; cbn in *; [|done|done].
  subst ev. by rewrite bool_decide_false.
Qed.

(** One round of the [forEach]: the handler is called, and what follows
    before the next handler is the delivery of an [error] event. *)
Lemma forEach_handler_step t data h hs m :
  exists (r : Result unit) m1 le,
    Forall (dispatch_call error) le /\
    forEach_handler (Stream t) data (h :: hs) m =
    match r with
    | Ok _ =>
        (fst (fst (forEach_handler (Stream t) data hs m1)),
         snd (fst (forEach_handler (Stream t) data hs m1)),
         Invoked (hid h) (Stream t) data
         :: le ++ snd (forEach_handler (Stream t) data hs m1))
    | Throw e => (Throw e, m1, Invoked (hid h) (Stream t) data :: le)
    end.
Proof.
  cbn [forEach_handler]. rewrite bool_decide_true by done.
  unfold bind at 1. unfold catch, bind at 1, tell, call.
  destruct (hrun h data) as [e|]; cbn -[emitter_emit forEach_handler].
  - pose proof (emitter_emit_logs error
      (PError (Error (handler_error_text (Stream t) e))) m) as Hl.
    destruct (emitter_emit error _ m) as [[r m1] le]. cbn in Hl.
    exists r, m1, le. split; [exact Hl|].
    destruct r as [[]|e'].
    + by destruct (forEach_handler (Stream t) data hs m1) as [[r2 m2] l2].
    + reflexivity.
  - exists (Ok tt), m, []. split; [constructor|].
    by destruct (forEach_handler (Stream t) data hs m) as [[r2 m2] l2].
Qed.

Lemma forEach_handler_prefix t data hs : forall m,
  invoked_ids (Stream t) (calls_of (forEach_handler (Stream t) data hs m))
    `prefix_of` map hid hs /\
  head (invoked_ids (Stream t) (calls_of (forEach_handler (Stream t) data hs m))) =
    head (map hid hs).
Proof.
  induction hs as [|h hs IH]; intros m; [split; reflexivity|].
  destruct (forEach_handler_step t data h hs m) as (r & m1 & le & Hle & Heq).
  rewrite Heq. unfold calls_of. destruct r as [[]|e]; cbn [snd map head].
  - rewrite invoked_ids_cons, invoked_ids_app, (invoked_ids_dispatch_error _ _ Hle).
    cbn [app]. split; [|reflexivity]. apply prefix_cons. apply IH.
  - rewrite invoked_ids_cons, (invoked_ids_dispatch_error _ _ Hle).
    split; [|reflexivity]. apply prefix_cons, prefix_nil.
Qed.

Lemma emitter_emit_no_listener t data m :
  emitter m !! Stream t = None -> emitter_emit (Stream t) data m = (Ok tt, m, []).
Proof.
  intros Hnone. unfold emitter_emit, bind, gets, listeners. by rewrite Hnone.
Qed.

Lemma emit_stream_log t data m :
  emitter m !! Stream t = None ->
  exists le,
    Forall (dispatch_call error) le /\
    calls_of (emit (Stream t) data m) =
    match handlers m !! Stream t with
    | Some hs => calls_of (forEach_handler (Stream t) data hs m) ++ le
    | None => []
    end.
Proof.
  intros Hnone.
  unfold emit, catch, bind at 1. rewrite (emitter_emit_no_listener t data m Hnone).
  rewrite bool_decide_true by done.
  unfold bind at 1, gets.
  destruct (handlers m !! Stream t) as [hs|]; cbn -[forEach_handler emitter_emit].
  - unfold calls_of.
    destruct (forEach_handler (Stream t) data hs m) as [[[[]|e] m1] l1];
      cbn -[emitter_emit].
    + exists []. split; [constructor | by rewrite app_nil_r].
    + pose proof (emitter_emit_logs error
        (PError (Error (emission_error_text (Stream t) e))) m1) as Hl.
      destruct (emitter_emit error _ m1) as [[[[]|e'] m2] l2]; cbn in *;
        exists l2; (split; [exact Hl | by rewrite ?app_nil_r]).
  - exists []. split; [constructor | reflexivity].
Qed.

Lemma emit_invokes_prefix t data m :
  emitter m !! Stream t = None ->
  invoked_ids (Stream t) (calls_of (emit (Stream t) data m))
    `prefix_of` map hid (registered t m) /\
  head (invoked_ids (Stream t) (calls_of (emit (Stream t) data m))) =
    head (map hid (registered t m)).
Proof.
  intros Hnone. destruct (emit_stream_log t data m Hnone) as (le & Hle & ->).
  unfold registered. destruct (handlers m !! Stream t) as [hs|]; [|split; reflexivity].
  rewrite invoked_ids_app, (invoked_ids_dispatch_error _ _ Hle), app_nil_r.
  apply forEach_handler_prefix.
Qed.

(** X3: with one [error] listener that returns, [emit] on a stream tag
    calls every registered handler, in the order of registration, whether
    or not earlier ones throw; each handler that throws produces exactly
    one [error] event; and [emit] changes nothing in the manager. *)
Theorem emit_isolates_handlers t data hs (l : Handler) m :
  emitter m !! Stream t = None ->
  handlers m !! Stream t = Some hs ->
  emitter m !! error = Some [UserListener l] ->
  (forall d, hrun l d = None) ->
  emit (Stream t) data m =
    (Ok tt, m, isolated_calls (Stream t) data [UserListener l] hs) /\
  invoked_ids (Stream t) (calls_of (emit (Stream t) data m)) = map hid hs /\
  length (error_events (hid l) (calls_of (emit (Stream t) data m))) =
    length (List.filter (throws data) hs).
Proof.
  intros Hnone Hhs Hel Hq.
  assert (Heq : emit (Stream t) data m =
                (Ok tt, m, isolated_calls (Stream t) data [UserListener l] hs)).
  { apply emit_isolated; [done|done|done|done|]. by repeat constructor. }
  rewrite Heq. split; [reflexivity|]. unfold calls_of. cbn [snd].
  split; [apply invoked_ids_isolated | apply error_events_isolated].
Qed.

(** X4: when nothing is registered on the emitter for a stream tag (the
    class registers stream handlers in [this.handlers] only), the handlers
    [emit] calls for the tag are an initial segment of the registered ones,
    in the order of registration: none is skipped, none is called out of
    turn, and the first one is always called. *)
Theorem emit_calls_handlers_in_order t data m :
  emitter m !! Stream t = None ->
  invoked_ids (Stream t) (calls_of (emit (Stream t) data m))
    `prefix_of` map hid (registered t m) /\
  head (invoked_ids (Stream t) (calls_of (emit (Stream t) data m))) =
    head (map hid (registered t m)).
Proof. apply emit_invokes_prefix. Qed.

Lemma removeHandler_emitter t h m :
  emitter (state_of (removeHandler t h m)) = emitter m.
Proof.
  unfold removeHandler, state_of, bind, gets, modify, ret.
  destruct (handlers m !! Stream t) as [hs|]; cbn; [|done].
  by destruct (Nat.eqb _ 0).
Qed.

Lemma addHandler_emitter t h m :
  emitter (state_of (addHandler t h m)) = emitter m.
Proof.
  rewrite addHandler_unfold. destruct (registered t m); [|done].
  cbn zeta. by destruct (subscribe m t).
Qed.

Lemma set_delete_not_in h hs : hid h ∉ map hid (set_delete h hs).
Proof.
  unfold set_delete. intros Hin. apply list_elem_of_fmap in Hin as (h' & Heq & Hin').
  apply list_elem_of_In, List.filter_In in Hin' as [_ Hne].
  apply negb_true_iff, Nat.eqb_neq in Hne. congruence.
Qed.

(** X5: once [removeHandler] (the cleanup function that [addHandler]
    returns) has taken a handler out, a later [emit] on that tag does not
    call it. *)
Theorem removed_handler_is_not_invoked t h data m :
  emitter m !! Stream t = None ->
  hid h ∉ invoked_ids (Stream t)
            (calls_of (emit (Stream t) data (state_of (removeHandler t h m)))).
Proof.
  intros Hnone Hin.
  assert (Hnone' : emitter (state_of (removeHandler t h m)) !! Stream t = None).
  { by rewrite removeHandler_emitter. }
  destruct (emit_invokes_prefix t data _ Hnone') as [[k Hk] _].
  rewrite removeHandler_registered in Hk.
  apply (set_delete_not_in h (registered t m)). rewrite Hk.
  apply elem_of_app. by left.
Qed.

Lemma set_delete_fresh h hs : set_has h hs = false -> set_delete h hs = hs.
Proof.
  unfold set_has, set_delete. induction hs as [|x hs IH]; [done|]. cbn.
  intros [Hx Hhs]%orb_false_iff. rewrite Hx. cbn. by rewrite IH.
Qed.

Lemma set_delete_add h hs : set_has h hs = false -> set_delete h (set_add h hs) = hs.
Proof.
  intros Hf. unfold set_add. rewrite Hf. unfold set_delete.
  rewrite List.filter_app. fold (set_delete h hs). rewrite set_delete_fresh by done.
  cbn. by rewrite Nat.eqb_refl, app_nil_r.
Qed.

Lemma removeHandler_quiet t h m :
  fst (fst (removeHandler t h m)) = Ok tt /\ calls_of (removeHandler t h m) = [].
Proof.
  unfold removeHandler, calls_of, bind, gets, modify, ret.
  destruct (handlers m !! Stream t) as [hs|]; cbn; [|done].
  by destruct (Nat.eqb _ 0).
Qed.

Lemma registered_add_remove t h m :
  set_has h (registered t m) = false ->
  registered t (state_of (removeHandler t h (state_of (addHandler t h m)))) =
  registered t m.
Proof.
  intros Hf. rewrite removeHandler_registered, addHandler_unfold.
  destruct (registered t m) as [|x xs] eqn:R.
  - cbn zeta. destruct (subscribe m t); unfold state_of; cbn [fst snd];
      rewrite registered_insert; [done|]. by apply set_delete_add.
  - unfold state_of. cbn [fst snd]. rewrite registered_insert.
    by apply set_delete_add.
Qed.

(** X6: registering a handler that was not registered for the tag and then
    removing it restores the handlers of the tag; the removal returns
    normally and calls nothing, so the peer is not told. *)
Theorem addHandler_removeHandler_round_trip t h m :
  set_has h (registered t m) = false ->
  registered t (state_of (removeHandler t h (state_of (addHandler t h m)))) =
    registered t m /\
  fst (fst (removeHandler t h (state_of (addHandler t h m)))) = Ok tt /\
  calls_of (removeHandler t h (state_of (addHandler t h m))) = [].
Proof.
  intros Hf. split; [by apply registered_add_remove | apply removeHandler_quiet].
Qed.

(** X7: after the only handler of a tag has been removed, the next
    registration for the tag calls [subscribe] again: the first handler of
    a tag always subscribes, also when the tag was subscribed before. *)
Theorem addHandler_subscribes_again_after_removal t h h' m :
  registered t m = [] ->
  calls_of (addHandler t h'
              (state_of (removeHandler t h (state_of (addHandler t h m))))) =
  [Subscribed t].
Proof.
  intros Hempty.
  assert (Hf : set_has h (registered t m) = false) by by rewrite Hempty.
  pose proof (registered_add_remove t h m Hf) as Hr.
  rewrite Hempty in Hr. rewrite addHandler_unfold, Hr.
  cbn zeta. by destruct (subscribe _ t).
Qed.

Lemma set_has_false_not_in h hs : set_has h hs = false -> hid h ∉ map hid hs.
Proof.
  unfold set_has. induction hs as [|x hs IH]; cbn; [intros _; apply not_elem_of_nil|].
  intros [Hx Hhs]%orb_false_iff. apply not_elem_of_cons.
  split; [|by apply IH]. apply Nat.eqb_neq in Hx. congruence.
Qed.

Lemma set_add_NoDup h hs : NoDup (map hid hs) -> NoDup (map hid (set_add h hs)).
Proof.
  intros Hnd. unfold set_add. destruct (set_has h hs) eqn:Hf; [done|].
  rewrite map_app. apply NoDup_app. split; [done|]. split.
  - intros x Hx Hin. cbn in Hin. apply list_elem_of_singleton in Hin. subst x.
    by apply (set_has_false_not_in h hs).
  - cbn. apply NoDup_singleton.
Qed.

Lemma set_delete_NoDup h hs : NoDup (map hid hs) -> NoDup (map hid (set_delete h hs)).
Proof.
  unfold set_delete. induction hs as [|x hs IH]; cbn; [done|].
  intros [Hx Hnd]%NoDup_cons. destruct (negb _); cbn; [|by apply IH].
  apply NoDup_cons. split; [|by apply IH].
  intros Hin. apply Hx. apply list_elem_of_fmap in Hin as (y & -> & Hy).
  apply list_elem_of_fmap. exists y. split; [done|].
  apply list_elem_of_In, List.filter_In in Hy as [Hy _]. by apply list_elem_of_In.
Qed.

Lemma prefix_NoDup {A} (l1 l2 : list A) : l1 `prefix_of` l2 -> NoDup l2 -> NoDup l1.
Proof. intros [k ->] Hnd. by apply NoDup_app in Hnd as [? _]. Qed.

(** X8: a function is in the handler set of a tag at most once, whatever
    is registered or removed, so [emit] calls each handler at most once. *)
Theorem handlers_are_registered_once t h data m :
  NoDup (map hid (registered t m)) ->
  emitter m !! Stream t = None ->
  NoDup (map hid (registered t (state_of (addHandler t h m)))) /\
  NoDup (map hid (registered t (state_of (removeHandler t h m)))) /\
  NoDup (invoked_ids (Stream t) (calls_of (emit (Stream t) data m))).
Proof.
  intros Hnd Hnone. split; [|split].
  - rewrite addHandler_unfold. destruct (registered t m) as [|x xs] eqn:R.
    + cbn zeta. destruct (subscribe m t); unfold state_of; cbn [fst snd];
        rewrite registered_insert; [constructor | by apply set_add_NoDup].
    + unfold state_of. cbn [fst snd]. rewrite registered_insert.
      by apply set_add_NoDup.
  - rewrite removeHandler_registered. by apply set_delete_NoDup.
  - destruct (emit_invokes_prefix t data m Hnone) as [Hp _].
    by apply (prefix_NoDup _ _ Hp).
Qed.

Lemma remove_last_snoc l ls : remove_last l (ls ++ [l]) = (ls, true).
Proof.
  induction ls as [|x ls IH]; cbn.
  - destruct l; cbn; by rewrite Nat.eqb_refl.
  - by rewrite IH.
Qed.

(** X9: the cleanup function returned by [onConnected], [onDisconnected],
    [onError] and [onSettingsUpdate] undoes the registration: the listeners
    of every event are those from before, earlier registrations of the same
    function included, and the stream handlers are not touched. *)
Theorem emitter_on_off_round_trip ev l m :
  (forall ev', listeners ev' (emitter_off ev l (emitter_on ev l m)) = listeners ev' m) /\
  handlers (emitter_off ev l (emitter_on ev l m)) = handlers m.
Proof.
  unfold emitter_off, emitter_on, listeners. cbn [emitter set_emitter].
  rewrite lookup_insert_eq, remove_last_snoc. cbn [fst].
  destruct (default [] (emitter m !! ev)) as [|x xs] eqn:E; cbn [emitter set_emitter handlers].
  - split; [|done]. intros ev'. destruct (decide (ev' = ev)) as [->|Hne].
    + by rewrite lookup_delete_eq.
    + by rewrite lookup_delete_ne, lookup_insert_ne.
  - split; [|done]. intros ev'. destruct (decide (ev' = ev)) as [->|Hne].
    + by rewrite lookup_insert_eq.
    + by rewrite !lookup_insert_ne.
Qed.

End RegistryProperties.

Section RegistryWitnesses.
Import Events Registry.

Lemma emit_isolates_handlers_witness :
  (emitter (onError (quiet_handler 9) two_handlers) !! Stream TRANSCRIPTION = None /\
   emitter (onError (quiet_handler 9) two_handlers) !! error
     = Some [UserListener (quiet_handler 9)]) /\
  invoked_ids (Stream TRANSCRIPTION)
    (calls_of (emit (Stream TRANSCRIPTION) (PData (JObj []))
                 (onError (quiet_handler 9) two_handlers))) = [1; 2]%nat.
Proof.
  split; [split; reflexivity|].
  exact (proj1 (proj2 (emit_isolates_handlers TRANSCRIPTION (PData (JObj []))
                         [throwing_handler 1 "boom"; quiet_handler 2]
                         (quiet_handler 9)
                         (onError (quiet_handler 9) two_handlers)
                         eq_refl eq_refl eq_refl (fun _ => eq_refl)))).
Defined.

Lemma emit_calls_handlers_in_order_witness :
  emitter two_handlers !! Stream TRANSCRIPTION = None /\
  invoked_ids (Stream TRANSCRIPTION)
    (calls_of (emit (Stream TRANSCRIPTION) (PData (JObj [])) two_handlers))
    `prefix_of` [1; 2]%nat.
Proof.
  split; [reflexivity|].
  exact (proj1 (emit_calls_handlers_in_order TRANSCRIPTION (PData (JObj []))
                  two_handlers eq_refl)).
Defined.

Lemma removed_handler_is_not_invoked_witness :
  emitter two_handlers !! Stream TRANSCRIPTION = None /\
  1%nat ∉ invoked_ids (Stream TRANSCRIPTION)
            (calls_of (emit (Stream TRANSCRIPTION) (PData (JObj []))
                         (state_of (removeHandler TRANSCRIPTION
                                      (throwing_handler 1 "boom") two_handlers)))).
Proof.
  split; [reflexivity|].
  exact (removed_handler_is_not_invoked TRANSCRIPTION (throwing_handler 1 "boom")
           (PData (JObj [])) two_handlers eq_refl).
Defined.

Lemma addHandler_removeHandler_round_trip_witness :
  set_has (quiet_handler 3) (registered TRANSCRIPTION two_handlers) = false /\
  registered TRANSCRIPTION
    (state_of (removeHandler TRANSCRIPTION (quiet_handler 3)
       (state_of (addHandler TRANSCRIPTION (quiet_handler 3) two_handlers)))) =
  registered TRANSCRIPTION two_handlers.
Proof.
  split; [reflexivity|].
  exact (proj1 (addHandler_removeHandler_round_trip TRANSCRIPTION (quiet_handler 3)
                  two_handlers eq_refl)).
Defined.

Lemma addHandler_subscribes_again_after_removal_witness :
  registered VAD two_handlers = [] /\
  calls_of (addHandler VAD (quiet_handler 4)
              (state_of (removeHandler VAD (quiet_handler 3)
                 (state_of (addHandler VAD (quiet_handler 3) two_handlers))))) =
  [Subscribed VAD].
Proof.
  split; [reflexivity|].
  exact (addHandler_subscribes_again_after_removal VAD (quiet_handler 3)
           (quiet_handler 4) two_handlers eq_refl).
Defined.

Lemma handlers_are_registered_once_witness :
  (NoDup (map hid (registered TRANSCRIPTION two_handlers)) /\
   emitter two_handlers !! Stream TRANSCRIPTION = None) /\
  NoDup (map hid (registered TRANSCRIPTION
                    (state_of (addHandler TRANSCRIPTION (quiet_handler 2) two_handlers)))).
Proof.
  assert (Hnd : NoDup (map hid (registered TRANSCRIPTION two_handlers))).
  { apply (NoDup_cons_2 1%nat [2%nat]).
    - intros Hin. apply list_elem_of_singleton in Hin. discriminate.
    - apply NoDup_singleton. }
  split; [split; [exact Hnd | reflexivity]|].
  exact (proj1 (handlers_are_registered_once TRANSCRIPTION (quiet_handler 2)
                  (PData (JObj [])) two_handlers Hnd eq_refl)).
Defined.

End RegistryWitnesses.

(** ** The cleanup of [onSettingChange] *)

Section HoldsLemmas.
Context {S L : Type} (I : S -> Prop) (P : L -> Prop).

Lemma holds_ret {A} (a : A) : holds I P (ret (L:=L) a).
Proof. intros s Hs. split; [exact Hs | constructor]. Qed.

Lemma holds_throw {A} e : holds I P (throw (L:=L) (A:=A) e).
Proof. intros s Hs. split; [exact Hs | constructor]. Qed.

Lemma holds_gets {A} (f : S -> A) : holds I P (gets (L:=L) f).
Proof. intros s Hs. split; [exact Hs | constructor]. Qed.

Lemma holds_tell (x : L) : P x -> holds I P (tell x).
Proof. intros Hx s Hs. split; [exact Hs | by repeat constructor]. Qed.

Lemma holds_bind {A B} (p : Prog S L A) (k : A -> Prog S L B) :
  holds I P p -> (forall a, holds I P (k a)) -> holds I P (bind p k).
Proof.
  intros Hp Hk s Hs. unfold bind. destruct (Hp s Hs) as [Hs1 Hl1].
  destruct (p s) as [[[a|e] s1] l1]; cbn [fst snd] in *; [|done].
  destruct (Hk a s1 Hs1) as [Hs2 Hl2].
  destruct (k a s1) as [[r s2] l2]; cbn [fst snd] in *.
  split; [exact Hs2 | by apply Forall_app].
Qed.

Lemma holds_catch {A} (p : Prog S L A) (h : JsError -> Prog S L A) :
  holds I P p -> (forall e, holds I P (h e)) -> holds I P (catch p h).
Proof.
  intros Hp Hh s Hs. unfold catch. destruct (Hp s Hs) as [Hs1 Hl1].
  destruct (p s) as [[[a|e] s1] l1]; cbn [fst snd] in *; [done|].
  destruct (Hh e s1 Hs1) as [Hs2 Hl2].
  destruct (h e s1) as [[r s2] l2]; cbn [fst snd] in *.
  split; [exact Hs2 | by apply Forall_app].
Qed.

End HoldsLemmas.

(** What [emit] calls, given what is registered: the emitter [E] and the
    callbacks [CB] of the closures stay as they are, and every call is a
    call of a handler or of the callback of a registered closure. *)
Section EmitCalls.
Import Events Registry SettingChange.

Variable E : gmap EventType (list Listener).
Variable CB : list SettingCallback.
Variable P : Call -> Prop.

Hypothesis P_invoked : forall h ev d, P (Invoked h ev d).
Hypothesis P_closure : forall ev c f v q,
  SettingsListener c ∈ default [] (E !! ev) -> CB !! c = Some f ->
  P (SettingChanged (cbid f) v q).

Lemma call_listener_holds ev ev' data l :
  l ∈ default [] (E !! ev') ->
  holds (registered_as E CB) P (call_listener ev data l).
Proof.
  intros Hin. destruct l as [h|c]; cbn [call_listener].
  - apply holds_bind; [by apply holds_tell|]. intros _.
    unfold call. destruct (hrun h data); [apply holds_throw | apply holds_ret].
  - intros m [HE HCB]. unfold zoom_closure.
    destruct (closures m !! c) as [clo|] eqn:Hclo; [|by split; [split|constructor]].
    destruct (settingsHandler_frame data clo) as (c' & log & -> & Hcc & _ & Hlog).
    cbn [fst snd]. split; [split|].
    + exact HE.
    + cbn [closures set_closures]. rewrite list_fmap_insert, Hcc, <- HCB.
      apply list_insert_id. by rewrite list_lookup_fmap, Hclo.
    + eapply Forall_impl; [exact Hlog|]. intros call (v & q & ->).
      apply (P_closure ev' c); [exact Hin|].
      by rewrite <- HCB, list_lookup_fmap, Hclo.
Qed.

Lemma run_listeners_holds ev ev' data ls :
  ls ⊆ default [] (E !! ev') ->
  holds (registered_as E CB) P (run_listeners ev data ls).
Proof.
  induction ls as [|l ls IH]; intros Hsub; [apply holds_ret|].
  cbn [run_listeners]. apply holds_bind.
  - apply (call_listener_holds ev ev'). apply Hsub. by left.
  - intros _. apply IH. intros x Hx. apply Hsub. by right.
Qed.

Lemma emitter_emit_holds ev data : holds (registered_as E CB) P (emitter_emit ev data).
Proof.
  intros m Hm. unfold emitter_emit. rewrite bind_gets.
  assert (Hls : listeners ev m = default [] (E !! ev)).
  { unfold listeners. by destruct Hm as [-> _]. }
  assert (Hrun : holds (registered_as E CB) P (run_listeners ev data (listeners ev m))).
  { apply (run_listeners_holds ev ev). by rewrite Hls. }
  destruct (listeners ev m); [destruct ev|]; exact (Hrun m Hm).
Qed.

Lemma forEach_handler_holds ev data hs :
  holds (registered_as E CB) P (forEach_handler ev data hs).
Proof.
  induction hs as [|h hs IH]; [apply holds_ret|].
  cbn [forEach_handler]. apply holds_bind; [|by intros _].
  apply holds_catch.
  - apply holds_bind; [by apply holds_tell|]. intros _.
    unfold call. destruct (hrun h data); [apply holds_throw | apply holds_ret].
  - intros e. destruct (bool_decide _); [apply emitter_emit_holds | apply holds_ret].
Qed.

Lemma emit_holds ev data : holds (registered_as E CB) P (emit ev data).
Proof.
  unfold emit. apply holds_catch.
  - apply holds_bind; [apply emitter_emit_holds|]. intros _.
    apply holds_bind; [apply holds_gets|]. intros hs.
    destruct hs as [hs|]; [apply forEach_handler_holds | apply holds_ret].
  - intros e. destruct (bool_decide _); [|apply holds_ret].
    apply holds_catch; [apply emitter_emit_holds | intros; apply holds_ret].
Qed.

Lemma deliver_holds pre : holds (registered_as E CB) P (deliver pre).
Proof.
  induction pre as [|e pre IH]; [apply holds_ret|].
  cbn [deliver]. apply holds_bind; [apply emit_holds | by intros _].
Qed.

End EmitCalls.

Section SettingChangeCleanup.
Import Events Registry SettingChange.

Lemma listeners_lookup ev m ls :
  listeners ev m = ls -> ls <> [] -> emitter m !! ev = Some ls.
Proof.
  unfold listeners. destruct (emitter m !! ev) as [x|]; cbn; [by intros ->|].
  by intros <-.
Qed.

(** [off] after [on]: the last instance goes, whatever came before it. *)
Lemma emitter_off_last ev l ls m :
  emitter m !! ev = Some (ls ++ [l]) ->
  (forall ev', listeners ev' (emitter_off ev l m) =
               if decide (ev' = ev) then ls else listeners ev' m) /\
  closures (emitter_off ev l m) = closures m /\
  handlers (emitter_off ev l m) = handlers m.
Proof.
  intros Hev. unfold emitter_off. rewrite Hev, remove_last_snoc. cbn [fst].
  destruct ls as [|x xs]; cbn [emitter set_emitter closures handlers]; (split; [|done]);
    intros ev'; unfold listeners; cbn [emitter set_emitter];
    destruct (decide (ev' = ev)) as [->|Hne].
  - by rewrite lookup_delete_eq.
  - by rewrite lookup_delete_ne.
  - by rewrite lookup_insert_eq.
  - by rewrite lookup_insert_ne.
Qed.

(** The cleanup function on a manager whose emitter is the one
    [onSettingChange] left. *)
Lemma offSettingChange_listeners k cb m m' :
  emitter m' = emitter (registering k cb m) ->
  (forall ev, listeners ev (offSettingChange (length (closures m)) m') = listeners ev m) /\
  closures (offSettingChange (length (closures m)) m') = closures m'.
Proof.
  intros Hem. unfold offSettingChange.
  set (l := SettingsListener (length (closures m))).
  assert (Hu : emitter m' !! settings_update = Some (listeners settings_update m ++ [l])).
  { rewrite Hem. apply (registering_listeners k cb m (AtUpdate [])). }
  assert (Hc : emitter m' !! connected = Some (listeners connected m ++ [l])).
  { rewrite Hem. apply (registering_listeners k cb m (AtConnect [])). }
  destruct (emitter_off_last settings_update l _ m' Hu) as (Hl1 & Hc1 & _).
  assert (Hc' : emitter (emitter_off settings_update l m') !! connected =
                Some (listeners connected m ++ [l])).
  { apply listeners_lookup; [|by destruct (listeners connected m)].
    rewrite Hl1. rewrite decide_False by done. unfold listeners. by rewrite Hc. }
  destruct (emitter_off_last connected l _ _ Hc') as (Hl2 & Hc2 & _).
  split; [|congruence].
  intros ev. rewrite Hl2. destruct (decide (ev = connected)) as [->|Hne]; [done|].
  rewrite Hl1. destruct (decide (ev = settings_update)) as [->|Hne']; [done|].
  unfold listeners. rewrite Hem.
  unfold registering, onSettingChange, emitter_on. cbn [snd emitter set_emitter set_closures].
  by rewrite !lookup_insert_ne.
Qed.

(** X10: once the cleanup function returned by [onSettingChange(k, cb)]
    has run, the callback is not called any more, whatever is emitted and
    whatever else is registered on the manager (listeners and handlers that
    throw included), and whatever snapshots were delivered before: the
    listeners of every event are those from before the registration. The
    manager the registration was made on is any manager whose registered
    closures exist and on which [cb] was not registered before. *)
Theorem offSettingChange_stops_callbacks k cb m pre ev data :
  closures_known m ->
  Forall (fun c => cbid (ccallback c) <> cbid cb) (closures m) ->
  let cid := fst (onSettingChange k cb m) in
  let stopped := offSettingChange cid (after pre (registering k cb m)) in
  (forall ev', listeners ev' stopped = listeners ev' m) /\
  Forall (other_call (cbid cb)) (calls_of (emit ev data stopped)) /\
  cb_calls (cbid cb) (calls_of (emit ev data stopped)) = [].
Proof.
  intros Hknown Hfresh. cbn zeta.
  change (fst (onSettingChange k cb m)) with (length (closures m)).
  (* the snapshots leave the emitter and the callbacks alone *)
  destruct (deliver_holds (emitter (registering k cb m))
              (map ccallback (closures (registering k cb m))) (fun _ => True)
              (fun _ _ _ => I) (fun _ _ _ _ _ _ _ => I) pre
              (registering k cb m) (conj eq_refl eq_refl)) as [[Hem Hcb] _].
  fold (after pre (registering k cb m)) in Hem, Hcb.
  destruct (offSettingChange_listeners k cb m _ Hem) as [Hls Hcl].
  set (stopped := offSettingChange (length (closures m)) (after pre (registering k cb m)))
    in *.
  assert (Hcbs : map ccallback (closures stopped) = map ccallback (closures m) ++ [cb]).
  { rewrite Hcl, Hcb. unfold registering, onSettingChange, emitter_on.
    cbn [snd closures set_emitter set_closures]. by rewrite map_app. }
  assert (Hother : Forall (other_call (cbid cb)) (calls_of (emit ev data stopped))).
  { refine (proj2 (emit_holds (emitter stopped) (map ccallback (closures stopped))
                     (other_call (cbid cb)) (fun _ _ _ => I) _ ev data stopped
                     (conj eq_refl eq_refl))).
    intros ev' c f v q Hin Hf. cbn.
    change (default [] (emitter stopped !! ev')) with (listeners ev' stopped) in Hin.
    rewrite Hls in Hin. apply Hknown in Hin.
    rewrite Hcbs, lookup_app_l in Hf by (by rewrite length_map).
    rewrite list_lookup_fmap in Hf.
    destruct (closures m !! c) as [clo|] eqn:Hclo; [|done].
    cbn in Hf. injection Hf as <-. rewrite Forall_forall in Hfresh.
    apply Hfresh. by apply list_elem_of_lookup_2 in Hclo. }
  split; [exact Hls|]. split; [exact Hother|]. by apply cb_calls_other.
Qed.

End SettingChangeCleanup.

Section SettingChangeCleanupWitness.
Import Events Registry SettingChange.

Lemma connected_manager_known : closures_known connected_manager.
Proof.
  intros ev c Hin.
  destruct ev as [[]| | | |]; vm_compute in Hin;
    repeat (apply elem_of_cons in Hin as [Hin|Hin];
            [first [discriminate Hin | injection Hin as ->; cbn; lia]|]);
    by apply elem_of_nil in Hin.
Qed.

Lemma offSettingChange_stops_callbacks_witness :
  (closures_known connected_manager /\
   Forall (fun c => cbid (ccallback c) <> cbid (quiet_callback 7))
          (closures connected_manager)) /\
  cb_calls 7
    (calls_of
       (emit settings_update (PSettings (one_setting "x" (PNum 6)))
          (offSettingChange 1
             (after [AtConnect (one_setting "x" (PNum 5))]
                (registering "x" (quiet_callback 7) connected_manager))))) = [].
Proof.
  assert (Hfresh : Forall (fun c => cbid (ccallback c) <> cbid (quiet_callback 7))
                          (closures connected_manager)).
  { repeat constructor. cbn. discriminate. }
  split; [split; [exact connected_manager_known | exact Hfresh]|].
  exact (proj2 (proj2
           (offSettingChange_stops_callbacks "x" (quiet_callback 7) connected_manager
              [AtConnect (one_setting "x" (PNum 5))] settings_update
              (PSettings (one_setting "x" (PNum 6)))
              connected_manager_known Hfresh))).
Defined.

End SettingChangeCleanupWitness.

(** * Further properties of the session *)

Section LifecycleProperties.
Import Events Session Lifecycle.

Variable now : Z.
Variable validateTpaConfig : TpaConfig -> bool.

Lemma same_connection_preorder : PreOrder same_connection.
Proof.
  split.
  - intros s. unfold same_connection. tauto.
  - intros s1 s2 s3 H12 H23. unfold same_connection in *.
    destruct H12 as (?&?&?&?&?&?&?), H23 as (?&?&?&?&?&?&?).
    repeat split; congruence.
Qed.

Lemma same_settings_preorder : PreOrder same_settings.
Proof.
  split.
  - intros s. unfold same_settings. tauto.
  - intros s1 s2 s3 [? ?] [? ?]. unfold same_settings. split; congruence.
Qed.

#[local] Existing Instance same_connection_preorder.
#[local] Existing Instance same_settings_preorder.

(** A [catch] whose handler returns always returns. *)
Lemma catch_returns {S L} (p : Prog S L unit) (h : JsError -> Prog S L unit) s :
  (forall e s', fst (fst (h e s')) = Ok tt) ->
  fst (fst (catch p h s)) = Ok tt.
Proof.
  intros Hh. unfold catch. destruct (p s) as [[[[]|e] s1] l1]; [reflexivity|].
  specialize (Hh e s1). destruct (h e s1) as [[r s2] l2]. exact Hh.
Qed.

(** [send] writes no field. *)
Lemma send_state message (s : TpaSession) : snd (fst (send now message s)) = s.
Proof.
  rewrite send_unfold, send_body_unfold.
  destruct (ws s) as [sock|]; [|reflexivity].
  destruct (negb (readyState sock =? 1)); [reflexivity|].
  destruct (negb (truthy message) || negb (String.eqb (typeof message) "object"));
    [reflexivity|].
  destruct (negb (has_prop "type" message)); [reflexivity|].
  destruct (sendError sock); reflexivity.
Qed.

Lemma send_keeps (R : TpaSession -> TpaSession -> Prop) `{!PreOrder R} message :
  keeps R (send now message).
Proof. intros s. rewrite send_state. reflexivity. Qed.

Lemma send_logs message : logs system_effect (send now message).
Proof.
  intros s. rewrite send_unfold, send_body_unfold.
  destruct (ws s) as [sock|]; [|by repeat constructor].
  destruct (negb (readyState sock =? 1)); [by repeat constructor|].
  destruct (negb (truthy message) || negb (String.eqb (typeof message) "object"));
    [by repeat constructor|].
  destruct (negb (has_prop "type" message)); [by repeat constructor|].
  destruct (sendError sock); by repeat constructor.
Qed.

Lemma updateSubscriptions_keeps (R : TpaSession -> TpaSession -> Prop) `{!PreOrder R} :
  keeps R (updateSubscriptions now).
Proof.
  unfold updateSubscriptions. apply (keeps_bind R); [apply (keeps_gets R)|].
  intros s0. apply (send_keeps R).
Qed.

Lemma updateSubscriptions_logs : logs system_effect (updateSubscriptions now).
Proof.
  unfold updateSubscriptions. apply logs_bind; [apply logs_gets|].
  intros s0. apply send_logs.
Qed.

Lemma emit_error_keeps (R : TpaSession -> TpaSession -> Prop) `{!PreOrder R} text :
  keeps R (emit_error text).
Proof. apply (keeps_tell R). Qed.

Lemma emit_error_logs text : logs system_effect (emit_error text).
Proof. by apply logs_tell. Qed.

Lemma set_subscriptions_same_connection x (s : TpaSession) :
  same_connection s (set_subscriptions x s).
Proof. unfold same_connection. cbn. tauto. Qed.

Lemma set_subscriptions_same_settings x (s : TpaSession) :
  same_settings s (set_subscriptions x s).
Proof. unfold same_settings. cbn. tauto. Qed.

Lemma set_settings_same_connection x (s : TpaSession) :
  same_connection s (set_settings x s).
Proof. unfold same_connection. cbn. tauto. Qed.

Lemma set_tpaConfig_same_connection x (s : TpaSession) :
  same_connection s (set_tpaConfig x s).
Proof. unfold same_connection. cbn. tauto. Qed.

Lemma updateSubscriptionsFromSettings_keeps_connection :
  keeps same_connection (updateSubscriptionsFromSettings now).
Proof.
  unfold updateSubscriptionsFromSettings.
  apply (keeps_bind same_connection); [apply (keeps_gets same_connection)|].
  intros [handler|]; [|apply (keeps_ret same_connection)].
  apply (keeps_catch same_connection); [|intros e; apply (emit_error_keeps same_connection)].
  apply (keeps_bind same_connection); [apply (keeps_gets same_connection)|]. intros st.
  apply (keeps_bind same_connection); [apply (keeps_lift same_connection)|]. intros tags.
  apply (keeps_bind same_connection);
    [apply (keeps_modify same_connection); intros s; apply set_subscriptions_same_connection|].
  intros _.
  apply (keeps_bind same_connection);
    [apply (keeps_modify same_connection); intros s; apply set_subscriptions_same_connection|].
  intros _.
  apply (keeps_bind same_connection); [apply (keeps_gets same_connection)|]. intros w.
  destruct (is_open w); [apply (updateSubscriptions_keeps same_connection)|apply (keeps_ret same_connection)].
Qed.

Lemma updateSubscriptionsFromSettings_keeps_settings :
  keeps same_settings (updateSubscriptionsFromSettings now).
Proof.
  unfold updateSubscriptionsFromSettings.
  apply (keeps_bind same_settings); [apply (keeps_gets same_settings)|].
  intros [handler|]; [|apply (keeps_ret same_settings)].
  apply (keeps_catch same_settings); [|intros e; apply (emit_error_keeps same_settings)].
  apply (keeps_bind same_settings); [apply (keeps_gets same_settings)|]. intros st.
  apply (keeps_bind same_settings); [apply (keeps_lift same_settings)|]. intros tags.
  apply (keeps_bind same_settings);
    [apply (keeps_modify same_settings); intros s; apply set_subscriptions_same_settings|].
  intros _.
  apply (keeps_bind same_settings);
    [apply (keeps_modify same_settings); intros s; apply set_subscriptions_same_settings|].
  intros _.
  apply (keeps_bind same_settings); [apply (keeps_gets same_settings)|]. intros w.
  destruct (is_open w); [apply (updateSubscriptions_keeps same_settings)|apply (keeps_ret same_settings)].
Qed.

Lemma updateSubscriptionsFromSettings_logs :
  logs system_effect (updateSubscriptionsFromSettings now).
Proof.
  unfold updateSubscriptionsFromSettings.
  apply logs_bind; [apply logs_gets|].
  intros [handler|]; [|apply logs_ret].
  apply logs_catch; [|intros e; apply emit_error_logs].
  apply logs_bind; [apply logs_gets|]. intros st.
  apply logs_bind; [apply logs_lift|]. intros tags.
  apply logs_bind; [apply logs_modify|]. intros _.
  apply logs_bind; [apply logs_modify|]. intros _.
  apply logs_bind; [apply logs_gets|]. intros w.
  destruct (is_open w); [apply updateSubscriptions_logs|apply logs_ret].
Qed.

Lemma getDefaultSettings_keeps (R : TpaSession -> TpaSession -> Prop) `{!PreOrder R} :
  keeps R getDefaultSettings.
Proof.
  unfold getDefaultSettings. apply (keeps_bind R); [apply (keeps_gets R)|].
  intros [c|]; [apply (keeps_ret R)|apply (keeps_throw R)].
Qed.

Lemma getDefaultSettings_logs (P : Effect -> Prop) : logs (S:=TpaSession) P getDefaultSettings.
Proof.
  unfold getDefaultSettings. apply logs_bind; [apply logs_gets|].
  intros [c|]; [apply logs_ret|apply logs_throw].
Qed.

Lemma handleConnectionAck_keeps msg_settings msg_config :
  keeps same_connection (handleConnectionAck now validateTpaConfig msg_settings msg_config).
Proof.
  unfold handleConnectionAck.
  apply (keeps_bind same_connection);
    [apply (keeps_modify same_connection); intros s; apply set_settings_same_connection|].
  intros _. apply (keeps_bind same_connection).
  { destruct msg_config as [c|]; [|apply (keeps_ret same_connection)].
    destruct (validateTpaConfig c); [|apply (keeps_ret same_connection)].
    apply (keeps_modify same_connection). intros s. apply set_tpaConfig_same_connection. }
  intros _. apply (keeps_bind same_connection); [apply (keeps_gets same_connection)|].
  intros s0. apply (keeps_bind same_connection).
  { destruct (_ && _); [|apply (keeps_ret same_connection)].
    apply (keeps_catch same_connection); [|intros _; apply (keeps_ret same_connection)].
    apply (keeps_bind same_connection); [apply (getDefaultSettings_keeps same_connection)|].
    intros d. apply (keeps_modify same_connection). intros s.
    apply set_settings_same_connection. }
  intros _. apply (keeps_bind same_connection); [apply (keeps_gets same_connection)|].
  intros st. apply (keeps_bind same_connection); [apply (keeps_tell same_connection)|].
  intros _. apply (keeps_bind same_connection);
    [apply (updateSubscriptions_keeps same_connection)|].
  intros _. apply (keeps_bind same_connection); [apply (keeps_gets same_connection)|].
  intros should. destruct (_ && _);
    [apply updateSubscriptionsFromSettings_keeps_connection|apply (keeps_ret same_connection)].
Qed.

Lemma handleConnectionAck_logs msg_settings msg_config :
  logs system_effect (handleConnectionAck now validateTpaConfig msg_settings msg_config).
Proof.
  unfold handleConnectionAck.
  apply logs_bind; [apply logs_modify|]. intros _.
  apply logs_bind.
  { destruct msg_config as [c|]; [|apply logs_ret].
    destruct (validateTpaConfig c); [apply logs_modify|apply logs_ret]. }
  intros _. apply logs_bind; [apply logs_gets|]. intros s0.
  apply logs_bind.
  { destruct (_ && _); [|apply logs_ret].
    apply logs_catch; [|intros _; apply logs_ret].
    apply logs_bind; [apply getDefaultSettings_logs|]. intros d. apply logs_modify. }
  intros _. apply logs_bind; [apply logs_gets|]. intros st.
  apply logs_bind; [by apply logs_tell|]. intros _.
  apply logs_bind; [apply updateSubscriptions_logs|]. intros _.
  apply logs_bind; [apply logs_gets|]. intros should.
  destruct (_ && _); [apply updateSubscriptionsFromSettings_logs|apply logs_ret].
Qed.

Lemma handleSettingsUpdate_keeps msg_settings :
  keeps same_connection (handleSettingsUpdate now msg_settings).
Proof.
  unfold handleSettingsUpdate.
  apply (keeps_bind same_connection); [apply (keeps_gets same_connection)|]. intros prev.
  apply (keeps_bind same_connection);
    [apply (keeps_modify same_connection); intros s; apply set_settings_same_connection|].
  intros _. apply (keeps_bind same_connection); [apply (keeps_gets same_connection)|].
  intros st. apply (keeps_bind same_connection); [apply (keeps_tell same_connection)|].
  intros _. apply (keeps_bind same_connection); [apply (keeps_gets same_connection)|].
  intros [|]; [|apply (keeps_ret same_connection)].
  apply (keeps_bind same_connection); [apply (keeps_gets same_connection)|].
  intros triggers. destruct (existsb _ _);
    [apply updateSubscriptionsFromSettings_keeps_connection|apply (keeps_ret same_connection)].
Qed.

Lemma handleSettingsUpdate_logs msg_settings :
  logs system_effect (handleSettingsUpdate now msg_settings).
Proof.
  unfold handleSettingsUpdate.
  apply logs_bind; [apply logs_gets|]. intros prev.
  apply logs_bind; [apply logs_modify|]. intros _.
  apply logs_bind; [apply logs_gets|]. intros st.
  apply logs_bind; [by apply logs_tell|]. intros _.
  apply logs_bind; [apply logs_gets|]. intros [|]; [|apply logs_ret].
  apply logs_bind; [apply logs_gets|]. intros triggers.
  destruct (existsb _ _); [apply updateSubscriptionsFromSettings_logs|apply logs_ret].
Qed.

Lemma system_effect_delivery subs e : system_effect e -> delivery_of subs e.
Proof. destruct e as [[]| | | |]; cbn; tauto. Qed.

(** What [handleMessage] does with a message that carries no settings:
    it writes no field and emits at most one event. *)
Lemma handleMessage_plain msg (s : TpaSession) :
  carries_settings msg = false ->
  exists log,
    handleMessage now validateTpaConfig msg s = (Ok tt, s, log) /\
    (length log <= 1)%nat /\ Forall (delivery_of (subscriptions s)) log /\
    frames log = [].
Proof.
  intros Hplain.
  destruct msg as [| |len|st c|text|len rate ts|[t|] data|st|reason|type];
    try discriminate Hplain;
    unfold handleMessage, handleBinaryMessage, catch, bind, gets, emit_error,
      events_emit, tell, ret;
    cbn [validateMessage negb];
    try match goal with
        | |- context [bool_decide ?P] => destruct (bool_decide P) eqn:Hsub
        end;
    cbn [negb];
    try match goal with
        | |- context [len =? 0] => destruct (len =? 0)
        end;
    (eexists; split; [reflexivity|]; cbn [length app]; split; [lia|];
     split; [|reflexivity]; repeat constructor;
     try (by apply bool_decide_eq_true in Hsub)).
Qed.

Lemma handleMessage_keeps msg :
  keeps same_connection (handleMessage now validateTpaConfig msg).
Proof.
  destruct (carries_settings msg) eqn:Hc.
  - unfold handleMessage.
    apply (keeps_catch same_connection);
      [|intros e; apply (emit_error_keeps same_connection)].
    destruct msg; try discriminate Hc; cbn [validateMessage negb];
      (apply (keeps_catch same_connection);
         [|intros e; apply (emit_error_keeps same_connection)]).
    + apply handleConnectionAck_keeps.
    + apply handleSettingsUpdate_keeps.
  - intros s. destruct (handleMessage_plain msg s Hc) as (log & -> & _). reflexivity.
Qed.

Lemma handleMessage_logs msg (s : TpaSession) :
  Forall (delivery_of (subscriptions s)) (snd (handleMessage now validateTpaConfig msg s)).
Proof.
  destruct (carries_settings msg) eqn:Hc.
  - eapply Forall_impl; [|apply system_effect_delivery].
    revert s. change (logs system_effect (handleMessage now validateTpaConfig msg)).
    unfold handleMessage.
    apply logs_catch; [|intros e; apply emit_error_logs].
    destruct msg; try discriminate Hc; cbn [validateMessage negb];
      (apply logs_catch; [|intros e; apply emit_error_logs]).
    + apply handleConnectionAck_logs.
    + apply handleSettingsUpdate_logs.
  - destruct (handleMessage_plain msg s Hc) as (log & -> & _ & Hlog & _). exact Hlog.
Qed.

(** X11: [handleMessage] returns normally for every message and every
    session state, whatever the channel does with the frames it writes. It
    leaves the configuration, the channel handle, the session id, the
    attempt counter and the settings-driven subscription mode as they
    were; it closes nothing, arms no timer and calls no [connect]; and a
    stream event it emits is of a stream the session was subscribed to. *)
Theorem handleMessage_never_throws msg (s : TpaSession) :
  fst (fst (handleMessage now validateTpaConfig msg s)) = Ok tt /\
  same_connection s (snd (fst (handleMessage now validateTpaConfig msg s))) /\
  Forall (delivery_of (subscriptions s)) (snd (handleMessage now validateTpaConfig msg s)).
Proof.
  split; [|split; [apply handleMessage_keeps | apply handleMessage_logs]].
  unfold handleMessage. apply catch_returns. reflexivity.
Qed.

Lemma sanitize_passes_through now' t data :
  is_nullish data = false ->
  match t with TRANSCRIPTION | HEAD_POSITION | BUTTON_PRESS => False | _ => True end ->
  Sanitizer.sanitizeEventData now' t data = data.
Proof.
  intros N Ht. unfold Sanitizer.sanitizeEventData, Sanitizer.sanitize_body. rewrite N.
  by destruct t.
Qed.

Lemma sanitize_min_shape_of now' t data :
  is_nullish data = false ->
  Sanitizer.min_shape t (Sanitizer.sanitizeEventData now' t data) = true.
Proof.
  intros N. destruct t; try reflexivity; cbn [Sanitizer.min_shape].
  - rewrite sanitize_button_press, N.
    destruct (has_truthy_prop "buttonId" data) eqn:B;
      destruct (has_truthy_prop "pressType" data) eqn:P;
      cbn [andb]; try reflexivity.
    by rewrite (has_truthy_prop_has_prop _ _ B), (has_truthy_prop_has_prop _ _ P).
  - rewrite sanitize_head_position, N.
    by destruct (has_string_prop "position" data) eqn:Hp.
  - rewrite sanitize_transcription, N.
    by destruct (has_string_prop "text" data) eqn:Hp.
Qed.

(** X13: a data-stream message of a stream the session is subscribed to,
    with a payload other than [null] and [undefined], reaches the event
    router as exactly one event of that stream; the payload handed over is
    the sanitized one, it has the minimum shape of its stream, and the
    session state is untouched. *)
Theorem handleMessage_data_stream_delivers t data (s : TpaSession) :
  t ∈ subscriptions s -> is_nullish data = false ->
  handleMessage now validateTpaConfig (DataStream (Some t) data) s =
    (Ok tt, s, [Emit (Stream t) (PData (Sanitizer.sanitizeEventData now t data))]) /\
  Sanitizer.min_shape t (Sanitizer.sanitizeEventData now t data) = true.
Proof.
  intros Hin N. split; [|by apply sanitize_min_shape_of].
  unfold handleMessage, catch, bind, gets, events_emit, tell. cbn.
  by rewrite bool_decide_eq_true_2.
Qed.

Lemma send_cases message (s : TpaSession) :
  (exists frame, send now message s = (Ok tt, s, [WsSend frame])) \/
  (exists e, send now message s = (Throw e, s, [Emit error (PError e)])).
Proof.
  rewrite send_unfold, send_body_unfold.
  destruct (ws s) as [sock|]; [|right; by eexists].
  destruct (negb (readyState sock =? 1)); [right; by eexists|].
  destruct (negb (truthy message) || negb (String.eqb (typeof message) "object"));
    [right; by eexists|].
  destruct (negb (has_prop "type" message)); [right; by eexists|].
  destruct (sendError sock); [right|left]; by eexists.
Qed.

(** X14: [send] changes no field and has exactly one effect: it either
    returns and has written one frame, or throws and has handed one
    [error] event, carrying the error it throws, to the event router.
    It never does both and never neither. *)
Theorem send_frame_or_error message (s : TpaSession) :
  (exists frame, send now message s = (Ok tt, s, [WsSend frame])) \/
  (exists e, send now message s = (Throw e, s, [Emit error (PError e)])).
Proof. apply send_cases. Qed.

Lemma assoc_set_assoc_eq name v props :
  assoc name (set_assoc name v props) = Some v.
Proof.
  induction props as [|[k x] rest IH]; cbn.
  - by rewrite String.eqb_refl.
  - destruct (String.eqb k name) eqn:E; cbn; by rewrite E.
Qed.

Lemma assoc_set_assoc_ne name k v props :
  k <> name -> assoc k (set_assoc name v props) = assoc k props.
Proof.
  intros Hne. induction props as [|[k' x] rest IH]; cbn.
  - apply String.eqb_neq in Hne. rewrite String.eqb_sym. by rewrite Hne.
  - destruct (String.eqb k' name) eqn:E; cbn.
    + apply String.eqb_eq in E. subst k'.
      assert (String.eqb name k = false) as ->; [|reflexivity].
      apply String.eqb_neq. congruence.
    + by rewrite IH.
Qed.

(** X15: the frame that [send] writes is the message with a [timestamp]
    that is a [Date]: a message whose [timestamp] already is a [Date] is
    written as it is, any other gets the current time, and every other
    property is written as the caller gave it. *)
Theorem send_stamps_the_frame message (s : TpaSession) :
  is_ok (fst (fst (send now message s))) = true ->
  exists props props',
    message = JObj props /\
    send now message s = (Ok tt, s, [WsSend (JObj props')]) /\
    (forall k, k <> "timestamp" -> assoc k props' = assoc k props) /\
    assoc "timestamp" props' =
      match assoc "timestamp" props with
      | Some (JDate ms) => Some (JDate ms)
      | _ => Some (JDate now)
      end /\
    (is_Some (assoc "type" props)).
Proof.
  rewrite send_unfold, send_body_unfold. intros Hok.
  destruct (ws s) as [sock|]; [|discriminate].
  destruct (negb (readyState sock =? 1)); [discriminate|].
  destruct message as [| |b|n|str|ms|items|props]; try discriminate;
    try (cbn in Hok; rewrite ?orb_true_r in Hok; discriminate).
  cbn [truthy negb orb typeof String.eqb Ascii.eqb Bool.eqb] in *.
  destruct (has_prop "type" (JObj props)) eqn:Hty; [|discriminate].
  cbn [negb] in *. destruct (sendError sock); [discriminate|].
  apply bool_decide_eq_true in Hty.
  unfold needs_timestamp, has_prop.
  destruct (assoc "timestamp" props) as [stamp|] eqn:Hst.
  - rewrite bool_decide_eq_true_2 by (by eexists).
    cbn [negb get_prop result_bind try_catch]. rewrite Hst.
    destruct stamp; cbn [is_date negb set_prop try_catch result_bind];
      (eexists _, _; (split; [reflexivity|]); (split; [reflexivity|]);
       split; [|split; [|exact Hty]];
       [ intros k Hk; first [reflexivity | by apply assoc_set_assoc_ne]
       | rewrite ?Hst, ?assoc_set_assoc_eq; reflexivity ]).
  - rewrite bool_decide_eq_false_2 by (by intros [? ?]).
    cbn [negb try_catch set_prop].
    eexists _, _; (split; [reflexivity|]); (split; [reflexivity|]);
      (split; [|split; [|exact Hty]]).
    + by intros k Hk; apply assoc_set_assoc_ne.
    + by rewrite Hst, assoc_set_assoc_eq.
Qed.

(** [updateSubscriptions] on an open channel that rejects the frame. *)
Lemma updateSubscriptions_rejected (s : TpaSession) sock text :
  ws s = Some sock -> readyState sock = 1 -> sendError sock = Some text ->
  updateSubscriptions now s =
  (Throw (Error ("Failed to send message: " ++ text)), s,
   [Emit error (PError (Error ("Failed to send message: " ++ text)))]).
Proof.
  intros Hws Hopen Hsend.
  unfold updateSubscriptions, bind, gets. rewrite send_unfold, send_body_unfold.
  rewrite Hws, Hopen, Hsend. reflexivity.
Qed.

Lemma subs_add_NoDup t subs : NoDup subs -> NoDup (subs_add t subs).
Proof.
  intros Hnd. unfold subs_add. case_bool_decide as Hin; [done|].
  apply NoDup_app. split; [done|]. split; [|apply NoDup_singleton].
  intros x Hx Hx'. apply list_elem_of_singleton in Hx'. by subst.
Qed.

Lemma subs_add_again t subs : subs_add t (subs_add t subs) = subs_add t subs.
Proof.
  unfold subs_add at 1. rewrite bool_decide_eq_true_2; [done|].
  apply subs_add_elem. by left.
Qed.

Lemma fold_subs_add_elem tags acc u :
  u ∈ fold_left (fun acc t => subs_add t acc) tags acc <-> u ∈ tags \/ u ∈ acc.
Proof.
  revert acc. induction tags as [|t tags IH]; intros acc; cbn [fold_left].
  - rewrite elem_of_nil. tauto.
  - rewrite IH, subs_add_elem, elem_of_cons. tauto.
Qed.

Lemma fold_subs_add_NoDup tags acc :
  NoDup acc -> NoDup (fold_left (fun acc t => subs_add t acc) tags acc).
Proof.
  revert acc. induction tags as [|t tags IH]; intros acc Hnd; cbn [fold_left]; [done|].
  apply IH. by apply subs_add_NoDup.
Qed.

(** X16: [subscribe(tag)] on an open channel adds the tag and pushes the
    whole subscription list, the new tag included: the frame written is the
    subscription update of the session, and its [subscriptions] array names
    the new tag and the tags subscribed before, and no other. When the
    channel rejects the frame, [subscribe] throws the send error after one
    [error] event, and the tag stays subscribed all the same. A tag that is
    already subscribed is not added twice. *)
Theorem subscribe_on_open_channel tag (s : TpaSession) sock :
  ws s = Some sock -> readyState sock = 1 ->
  let s' := set_subscriptions (subs_add tag (subscriptions s)) s in
  let frame subs :=
    JObj [("type", JStr SUBSCRIPTION_UPDATE);
          ("packageName", JStr (packageName (config s)));
          ("subscriptions", JArr (map (fun t => JStr (stream_name t)) subs));
          ("sessionId", match sessionId s with Some x => JStr x | None => JNull end);
          ("timestamp", JDate now)] in
  subscribe now tag s =
    match sendError sock with
    | None => (Ok tt, s', [WsSend (frame (subs_add tag (subscriptions s)))])
    | Some text =>
        (Throw (Error ("Failed to send message: " +:+ text)), s',
         [Emit error (PError (Error ("Failed to send message: " +:+ text)))])
    end /\
  tag ∈ subscriptions s' /\
  subs_add tag (subscriptions s') = subscriptions s' /\
  (forall t,
     JStr (stream_name t)
       ∈ map (fun u => JStr (stream_name u)) (subs_add tag (subscriptions s))
     <-> t = tag \/ t ∈ subscriptions s).
Proof.
  intros Hws Hopen s'. cbn zeta. split; [|split; [|split]].
  - unfold subscribe, bind at 1, modify. unfold bind at 1, gets.
    fold s'. assert (Hws' : ws s' = Some sock) by exact Hws.
    rewrite Hws'. cbn [is_open]. rewrite Hopen. cbn [Z.eqb Pos.eqb].
    destruct (sendError sock) as [text|] eqn:Hse.
    + by erewrite updateSubscriptions_rejected.
    + by erewrite updateSubscriptions_open.
  - apply subs_add_elem. by left.
  - apply subs_add_again.
  - intros t. by rewrite stream_names_elem, subs_add_elem.
Qed.

Lemma disconnect_unfold (s : TpaSession) :
  disconnect s =
  (Ok tt,
   set_reconnectAttempts 0 (set_subscriptions [] (set_sessionId None (set_ws None s))),
   match ws s with Some _ => [WsClose] | None => [] end).
Proof.
  unfold disconnect, bind, gets, modify, tell.
  destruct s as [cfg [w|] sid ra subs st tc should h trig]; reflexivity.
Qed.

(** X17: [disconnect] always returns; afterwards the session has no
    channel handle, no session id, no subscription and a zero attempt
    counter, while its configuration, settings and loaded configuration
    are as before. It closes the socket exactly when there was one, so a
    second [disconnect] changes nothing and closes nothing; and a
    [handleReconnection] that runs after it, as the one the close event
    triggers, arms no timer and calls no [connect]. *)
Theorem disconnect_ends_the_session connect (s : TpaSession) :
  let s' := snd (fst (disconnect s)) in
  fst (fst (disconnect s)) = Ok tt /\
  (ws s' = None /\ sessionId s' = None /\ subscriptions s' = [] /\
   reconnectAttempts s' = 0%nat) /\
  (config s' = config s /\ settings s' = settings s /\ tpaConfig s' = tpaConfig s) /\
  snd (disconnect s) = (if bool_decide (is_Some (ws s)) then [WsClose] else []) /\
  disconnect s' = (Ok tt, s', []) /\
  handleReconnection connect s' = (Ok tt, s', []).
Proof.
  cbn zeta. rewrite !disconnect_unfold. cbn [fst snd].
  split; [done|]. split; [done|]. split; [done|]. split; [|split].
  - destruct (ws s); [by rewrite bool_decide_eq_true_2|].
    rewrite bool_decide_eq_false_2; [done|]. by intros [? ?].
  - by destruct s.
  - rewrite handleReconnection_unfold.
    assert (reconnection_blocked
              (set_reconnectAttempts 0
                 (set_subscriptions [] (set_sessionId None (set_ws None s)))) = true)
      as ->; [|done].
    apply reconnection_blocked_iff. right. left. reflexivity.
Qed.

(** X18: a [disconnect] made while [handleReconnection] waits for its
    timer does not cancel the attempt: when the timer fires, [connect] is
    called all the same, without a session id, and the attempt ends as
    any other (the counter goes back to zero when [connect] resolves, an
    [error] event is emitted when it rejects). *)
Theorem disconnect_does_not_cancel_reconnection connect (s : TpaSession) :
  reconnection_blocked s = false ->
  let waiting := snd (fst (handleReconnection_arm s)) in
  let stopped := snd (fst (disconnect waiting)) in
  snd (handleReconnection_arm s) = [Wait (reconnection_delay s)] /\
  sessionId stopped = None /\
  handleReconnection_resume connect stopped =
    match connect None stopped with
    | (Ok _, s1, l1) => (Ok tt, set_reconnectAttempts 0 s1, Connect None :: l1)
    | (Throw _, s1, l1) =>
        (Ok tt, s1,
         Connect None :: l1 ++ [Emit error (PError (Error "Reconnection failed"))])
    end.
Proof.
  intros Hfree. cbn zeta. rewrite handleReconnection_arm_unfold, Hfree. cbn [fst snd].
  rewrite disconnect_unfold. cbn [fst snd]. split; [done|]. split; [done|].
  unfold handleReconnection_resume, catch, bind, gets, tell, modify, emit_error,
    events_emit.
  cbn [sessionId set_reconnectAttempts set_subscriptions set_sessionId].
  match goal with |- context [connect None ?st] =>
    destruct (connect None st) as [[[[]|e] s1] l1] end;
    cbn [app]; rewrite ?app_nil_r; reflexivity.
Qed.

Lemma handleSettingsUpdate_unfold msg_settings (s : TpaSession) :
  let new := default [] msg_settings in
  let s1 := set_settings new s in
  let again :=
    shouldUpdateSubscriptionsOnSettingsChange s
    && existsb (trigger_fired (settings s) new) (subscriptionUpdateTriggers s) in
  handleSettingsUpdate now msg_settings s =
  if again then
    (Ok tt, snd (fst (updateSubscriptionsFromSettings now s1)),
     Emit settings_update (PSettings new)
     :: snd (updateSubscriptionsFromSettings now s1))
  else (Ok tt, s1, [Emit settings_update (PSettings new)]).
Proof.
  cbn zeta. pose proof (updateSubscriptionsFromSettings_returns now
                          (set_settings (default [] msg_settings) s)) as Hret.
  destruct s as [cfg w sid ra subs st tc should h trig].
  unfold handleSettingsUpdate, bind, modify, gets, ret, events_emit, tell.
  cbn -[updateSubscriptionsFromSettings] in *.
  destruct should; [|reflexivity].
  cbn -[updateSubscriptionsFromSettings].
  destruct (existsb _ trig); [|reflexivity].
  destruct (updateSubscriptionsFromSettings _ _) as [[r s2] l2].
  cbn in Hret. subst r. reflexivity.
Qed.

Lemma settings_update_message_unfold msg_settings (s : TpaSession) :
  handleMessage now validateTpaConfig (SettingsUpdate msg_settings) s =
  handleSettingsUpdate now msg_settings s.
Proof.
  unfold handleMessage, catch. cbn [validateMessage negb].
  rewrite handleSettingsUpdate_unfold. cbn zeta. by destruct (_ && _).
Qed.

(** X19: whatever the state of the channel, a settings-update message
    makes the carried list (the empty list when there is none) the
    session's settings, so that [getSetting] reads its values from that
    list; the loaded configuration is not touched, and the first thing the
    session does is emit [settings_update] with the new list. *)
Theorem settings_update_is_stored msg_settings k (s : TpaSession) :
  let new := default [] msg_settings in
  let s' := snd (fst (handleMessage now validateTpaConfig (SettingsUpdate msg_settings) s)) in
  settings s' = new /\
  tpaConfig s' = tpaConfig s /\
  fst (fst (getSetting k s')) =
    Ok (match find_setting k new with
        | Some setting => value setting
        | None => PUndefined
        end) /\
  head (snd (handleMessage now validateTpaConfig (SettingsUpdate msg_settings) s)) =
    Some (Emit settings_update (PSettings new)).
Proof.
  cbn zeta. rewrite settings_update_message_unfold, handleSettingsUpdate_unfold.
  cbn zeta.
  destruct (updateSubscriptionsFromSettings_keeps_settings
              (set_settings (default [] msg_settings) s)) as [Hst Htc].
  destruct (_ && _); cbn [fst snd head].
  - rewrite Htc. unfold getSetting, bind, gets, ret. cbn [fst snd].
    rewrite Hst. done.
  - done.
Qed.

Lemma updateSubscriptionsFromSettings_state handler tags (s : TpaSession) :
  subscriptionSettingsHandler s = Some handler -> handler (settings s) = Ok tags ->
  snd (fst (updateSubscriptionsFromSettings now s)) =
  set_subscriptions (subs_of_list tags) s.
Proof.
  intros Hh Htags.
  unfold updateSubscriptionsFromSettings, bind at 1, gets. rewrite Hh.
  unfold catch, bind at 1, gets. unfold bind at 1, lift. rewrite Htags.
  unfold bind at 1, modify. unfold bind at 1. unfold bind at 1.
  cbn [ws set_subscriptions subscriptions].
  destruct (is_open (ws s)); [|reflexivity].
  pose proof (updateSubscriptions_keeps eq
                (set_subscriptions
                   (fold_left (fun acc t => subs_add t acc) tags []) s)) as Hk.
  unfold subs_of_list.
  destruct (updateSubscriptions now _) as [[[[]|e] s1] l1]; cbn in *; by subst.
Qed.

(** X20: when the subscription handler returns a list of tags,
    [updateSubscriptionsFromSettings] makes exactly those tags the
    session's subscriptions, each once, whatever was subscribed before and
    whatever the state of the channel; it returns normally and leaves the
    connection fields and the settings alone. *)
Theorem updateSubscriptionsFromSettings_replaces handler tags (s : TpaSession) :
  subscriptionSettingsHandler s = Some handler -> handler (settings s) = Ok tags ->
  let s' := snd (fst (updateSubscriptionsFromSettings now s)) in
  fst (fst (updateSubscriptionsFromSettings now s)) = Ok tt /\
  (forall t, t ∈ subscriptions s' <-> t ∈ tags) /\
  NoDup (subscriptions s') /\
  same_connection s s' /\ same_settings s s'.
Proof.
  intros Hh Htags. cbn zeta.
  split; [apply updateSubscriptionsFromSettings_returns|].
  split; [|split; [|split]].
  - intros t. rewrite (updateSubscriptionsFromSettings_state handler tags) by done.
    cbn [subscriptions set_subscriptions]. unfold subs_of_list.
    rewrite fold_subs_add_elem, elem_of_nil. tauto.
  - rewrite (updateSubscriptionsFromSettings_state handler tags) by done.
    cbn [subscriptions set_subscriptions]. apply fold_subs_add_NoDup. constructor.
  - apply updateSubscriptionsFromSettings_keeps_connection.
  - apply updateSubscriptionsFromSettings_keeps_settings.
Qed.

(** X21: what [updateSubscriptionsFromSettings] does with a failure. A
    handler that throws leaves the subscriptions as they were and gives
    one [error] event. A frame that the open channel rejects is reported
    twice, once by [send] and once by the [catch] of
    [updateSubscriptionsFromSettings], and the new subscriptions stay in
    place although the cloud was not told; in both cases the method
    returns normally. *)
Theorem updateSubscriptionsFromSettings_reports_failures handler (s : TpaSession) :
  subscriptionSettingsHandler s = Some handler ->
  updateSubscriptionsFromSettings now s =
    match handler (settings s), ws s with
    | Throw e, _ =>
        (Ok tt, s,
         [Emit error (PError (Error ("Failed to update subscriptions: " +:+ message e)))])
    | Ok tags, Some sock =>
        if readyState sock =? 1 then
          match sendError sock with
          | Some text =>
              (Ok tt, set_subscriptions (subs_of_list tags) s,
               [Emit error (PError (Error ("Failed to send message: " +:+ text)));
                Emit error
                  (PError (Error ("Failed to update subscriptions: "
                                  +:+ "Failed to send message: " +:+ text)))])
          | None =>
              (Ok tt, set_subscriptions (subs_of_list tags) s,
               [WsSend (subscription_update now (packageName (config s))
                          (subs_of_list tags) (sessionId s))])
          end
        else (Ok tt, set_subscriptions (subs_of_list tags) s, [])
    | Ok tags, None => (Ok tt, set_subscriptions (subs_of_list tags) s, [])
    end.
Proof.
  intros Hh.
  unfold updateSubscriptionsFromSettings, bind at 1, gets. rewrite Hh.
  unfold catch, bind at 1, gets. unfold bind at 1, lift.
  destruct (handler (settings s)) as [tags|e]; [|reflexivity].
  unfold bind at 1, modify. unfold bind at 1. unfold bind at 1.
  cbn [ws set_subscriptions subscriptions]. fold (subs_of_list tags).
  destruct (ws s) as [sock|] eqn:Hws; [|reflexivity].
  cbn [is_open]. destruct (readyState sock =? 1) eqn:Hopen; [|reflexivity].
  apply Z.eqb_eq in Hopen.
  destruct (sendError sock) as [text|] eqn:Hse.
  - erewrite updateSubscriptions_rejected; [reflexivity| cbn; exact Hws | done | done].
  - erewrite updateSubscriptions_open; [reflexivity | cbn; exact Hws | done | done].
Qed.

(** X22: [updateSettingsForTesting] does what a settings-update message
    from the cloud with the same list does, whenever settings-driven
    subscriptions are off or some watched key appeared or changed. (With
    the mode on and no watched key changed, only the testing method
    recomputes the subscriptions.) *)
Theorem updateSettingsForTesting_as_settings_update newSettings (s : TpaSession) :
  shouldUpdateSubscriptionsOnSettingsChange s = false \/
  existsb (trigger_fired (settings s) newSettings) (subscriptionUpdateTriggers s) = true ->
  updateSettingsForTesting now newSettings s =
  handleMessage now validateTpaConfig (SettingsUpdate (Some newSettings)) s.
Proof.
  intros Hcase.
  rewrite settings_update_message_unfold.
  destruct s as [cfg w sid ra subs st tc should h trig].
  unfold updateSettingsForTesting, handleSettingsUpdate, bind, modify, gets, ret,
    events_emit, tell.
  cbn -[updateSubscriptionsFromSettings] in *.
  destruct should; [|reflexivity].
  destruct Hcase as [?|Hfired]; [discriminate|].
  cbn -[updateSubscriptionsFromSettings]. rewrite Hfired.
  by destruct (updateSubscriptionsFromSettings _ _) as [[[[]|e] s2] l2].
Qed.

(** The error of a push on a channel that is not open or rejects the
    frame. *)
Lemma updateSubscriptions_fails (s : TpaSession) sock :
  ws s = Some sock -> readyState sock <> 1 \/ is_Some (sendError sock) ->
  let text :=
    if readyState sock =? 1
    then "Failed to send message: " +:+ default "" (sendError sock)
    else "WebSocket not connected (current state: "
         +:+ stateName (readyState sock) +:+ ")" in
  updateSubscriptions now s =
  (Throw (Error text), s, [Emit error (PError (Error text))]).
Proof.
  intros Hws Hbad. cbn zeta.
  unfold updateSubscriptions, bind, gets. rewrite send_unfold, send_body_unfold.
  rewrite Hws. destruct (readyState sock =? 1) eqn:Hopen; cbn [negb]; [|reflexivity].
  apply Z.eqb_eq in Hopen. destruct Hbad as [?|[text Hse]]; [done|].
  rewrite Hse. reflexivity.
Qed.

(** X23: a connection ack whose subscription push fails (the channel is
    not open, or it rejects the frame) still adopts the settings and the
    configuration and emits [connected]; the failure is reported twice,
    by [send] and by the [catch] of [handleMessage], and the rest of the
    branch is skipped: the subscriptions are not recomputed from the
    settings even when settings-driven subscriptions are on.
    [handleMessage] returns normally. *)
Theorem connection_ack_with_failed_push (msg_settings : option (list AppSetting))
    (msg_config : option TpaConfig) (s : TpaSession) sock :
  ws s = Some sock -> readyState sock <> 1 \/ is_Some (sendError sock) ->
  let adopted := default [] msg_settings in
  let known :=
    match msg_config with
    | Some c => if validateTpaConfig c then Some c else tpaConfig s
    | None => tpaConfig s
    end in
  let resulting :=
    match adopted, known with
    | [], Some c => map with_default_value (omap non_group (config_settings c))
    | _, _ => adopted
    end in
  let text :=
    if readyState sock =? 1
    then "Failed to send message: " +:+ default "" (sendError sock)
    else "WebSocket not connected (current state: "
         +:+ stateName (readyState sock) +:+ ")" in
  handleMessage now validateTpaConfig (TpaConnectionAck msg_settings msg_config) s =
    (Ok tt, set_settings resulting (set_tpaConfig known s),
     [Emit connected (PSettings resulting);
      Emit error (PError (Error text));
      Emit error (PError (Error ("Error processing message: " +:+ text)))]).
Proof.
  intros Hws Hbad. cbn zeta.
  destruct s as [cfg w sid ra subs st tc should h trig]. cbn in Hws. subst w.
  destruct msg_settings as [[|a l]|]; (destruct msg_config as [c|];
    [destruct (validateTpaConfig c) eqn:V|]); destruct tc as [c0|];
    unfold handleMessage, handleConnectionAck, bind, modify, gets, ret, catch,
      getDefaultSettings, events_emit, emit_error, tell, throw;
    cbn -[updateSubscriptions updateSubscriptionsFromSettings];
    rewrite ?V;
    cbn -[updateSubscriptions updateSubscriptionsFromSettings];
    (erewrite updateSubscriptions_fails by (try reflexivity; eassumption));
    reflexivity.
Qed.

(** X24: [setSubscriptionSettings] switches settings-driven subscriptions
    on and records the handler and the watched keys. When the session
    already has settings, it applies the handler at once: the handler's
    tags become the subscriptions. When it has none, nothing else happens:
    the subscriptions stay and no effect is produced. *)
Theorem setSubscriptionSettings_applies_at_once updateOnChange handler tags
    (s : TpaSession) :
  handler (settings s) = Ok tags ->
  let s' := snd (fst (setSubscriptionSettings now updateOnChange handler s)) in
  fst (fst (setSubscriptionSettings now updateOnChange handler s)) = Ok tt /\
  shouldUpdateSubscriptionsOnSettingsChange s' = true /\
  subscriptionSettingsHandler s' = Some handler /\
  subscriptionUpdateTriggers s' = updateOnChange /\
  settings s' = settings s /\
  if Nat.ltb 0 (length (settings s))
  then forall t, t ∈ subscriptions s' <-> t ∈ tags
  else subscriptions s' = subscriptions s /\
       snd (setSubscriptionSettings now updateOnChange handler s) = [].
Proof.
  intros Htags. cbn zeta.
  set (s1 := set_subscriptionSettings updateOnChange handler s).
  assert (Hrun : setSubscriptionSettings now updateOnChange handler s =
                 if Nat.ltb 0 (length (settings s))
                 then updateSubscriptionsFromSettings now s1
                 else (Ok tt, s1, [])).
  { unfold setSubscriptionSettings, bind, modify, gets, ret. fold s1.
    assert (settings s1 = settings s) as -> by reflexivity.
    destruct (Nat.ltb 0 (length (settings s))); [|reflexivity].
    by destruct (updateSubscriptionsFromSettings now s1) as [[r s2] l2]. }
  rewrite Hrun. destruct (Nat.ltb 0 (length (settings s))); [|done].
  assert (Hh : subscriptionSettingsHandler s1 = Some handler) by reflexivity.
  assert (Ht : handler (settings s1) = Ok tags) by exact Htags.
  rewrite (updateSubscriptionsFromSettings_state handler tags s1 Hh Ht).
  split; [apply updateSubscriptionsFromSettings_returns|].
  split; [done|]. split; [done|]. split; [done|]. split; [done|].
  intros t. cbn [subscriptions set_subscriptions]. unfold subs_of_list.
  rewrite fold_subs_add_elem, elem_of_nil. tauto.
Qed.

(** X25: the defaults the constructor fills in do not change what
    [handleReconnection] goes by. For a session built from a configuration
    and given a session id, reconnection is attempted only with
    [autoReconnect] set to [true] and a session id other than the empty
    string; the maximum is the configured one, or 5 when none or 0 is
    configured (the constructor's default 0 does not mean "never"); and
    the delay starts from the configured one, or 1000 when none or 0 is
    configured. The constructor itself stores 0 and 1000 for what the
    configuration leaves out. *)
Theorem constructor_defaults_keep_reconnection_settings cfg sid n :
  let s := set_reconnectAttempts n (set_sessionId sid (new_TpaSession cfg)) in
  reconnection_blocked s =
    negb (match autoReconnect cfg with Some b => b | None => false end)
    || negb (match sid with
             | Some x => negb (String.eqb x EmptyString)
             | None => false
             end)
    || (match maxReconnectAttempts cfg with
        | Some m => if m =? 0 then 5 else m
        | None => 5
        end <=? Z.of_nat n) /\
  reconnection_delay s =
    match reconnectDelay cfg with
    | Some d => if d =? 0 then 1000 else d
    | None => 1000
    end * 2 ^ Z.of_nat n /\
  maxReconnectAttempts (config (new_TpaSession cfg)) =
    Some (match maxReconnectAttempts cfg with Some m => m | None => 0 end) /\
  reconnectDelay (config (new_TpaSession cfg)) =
    Some (match reconnectDelay cfg with Some d => d | None => 1000 end).
Proof.
  cbn zeta. unfold reconnection_blocked, reconnection_delay, new_TpaSession.
  cbn [config set_reconnectAttempts set_sessionId autoReconnect maxReconnectAttempts
       reconnectDelay sessionId reconnectAttempts default].
  assert (Hmax : or_default (Some (default 0 (maxReconnectAttempts cfg))) 5 =
                 match maxReconnectAttempts cfg with
                 | Some m => if m =? 0 then 5 else m
                 | None => 5
                 end).
  { destruct (maxReconnectAttempts cfg) as [z|]; reflexivity. }
  assert (Hdelay : or_default (Some (default 1000 (reconnectDelay cfg))) 1000 =
                   match reconnectDelay cfg with
                   | Some d => if d =? 0 then 1000 else d
                   | None => 1000
                   end).
  { destruct (reconnectDelay cfg) as [z|]; [|reflexivity].
    cbn. by destruct (z =? 0) eqn:E. }
  unfold default in *. rewrite Hmax, Hdelay. done.
Qed.

End LifecycleProperties.

(** * Properties of the configuration methods *)

Section ConfigurationProperties.
Import Session Configuration.

Variable JSON_parse : string -> Result TpaConfig.
Variable validateTpaConfig : TpaConfig -> bool.

(** X26: [loadConfigFromJson] either returns the parsed configuration,
    which then passed [validateTpaConfig] and is what [getConfig] returns
    and what [getDefaultSettings] reads, or it throws an error whose text
    starts with "Failed to load TPA configuration: " and leaves the
    session as it was. The rejection of an invalid configuration is
    caught by the method's own [catch] and wrapped like a parse error. It
    emits no event in either case. *)
Theorem loadConfigFromJson_outcome jsonData (s : TpaSession) :
  let r := loadConfigFromJson JSON_parse validateTpaConfig jsonData s in
  snd r = [] /\
  match fst (fst r) with
  | Ok c =>
      JSON_parse jsonData = Ok c /\ validateTpaConfig c = true /\
      snd (fst r) = set_tpaConfig (Some c) s /\
      fst (fst (getConfig (snd (fst r)))) = Ok (Some c) /\
      is_ok (fst (fst (getDefaultSettings (snd (fst r))))) = true
  | Throw e =>
      snd (fst r) = s /\
      exists reason,
        message e = "Failed to load TPA configuration: " +:+ reason /\
        (JSON_parse jsonData = Throw (Error reason) \/
         reason = "Invalid TPA configuration format" /\
         exists c, JSON_parse jsonData = Ok c /\ validateTpaConfig c = false)
  end.
Proof.
  cbn zeta. unfold loadConfigFromJson, catch, bind, lift, modify, ret, throw.
  destruct (JSON_parse jsonData) as [c|[reason]] eqn:Hparse.
  - destruct (validateTpaConfig c) eqn:Hvalid; cbn.
    + done.
    + split; [done|]. split; [done|]. eexists. split; [done|]. right.
      split; [done|]. by exists c.
  - cbn. split; [done|]. split; [done|]. exists reason. split; [done|]. by left.
Qed.

Lemma default_of_schema k entries :
  find_setting k (map with_default_value (omap non_group entries)) =
  with_default_value <$>
    match List.find (is_schema_of k) entries with
    | Some (Setting s) => Some s
    | _ => None
    end.
Proof.
  induction entries as [|[title|s0] rest IH]; [done| |].
  - exact IH.
  - change (omap non_group (Setting s0 :: rest)) with
      (match non_group (Setting s0) with
       | Some y => y :: omap non_group rest
       | None => omap non_group rest
       end).
    cbn [non_group List.find is_schema_of].
    destruct (String.eqb (stype s0) "group"); cbn [negb andb]; [exact IH|].
    cbn [map]. unfold find_setting at 1. cbn [List.find with_default_value key].
    destruct (String.eqb (key s0) k); [done|]. exact IH.
Qed.

(** X27: the settings [getDefaultSettings] builds are the schemas of the
    configuration with [value] set to [defaultValue]: looking a key up in
    them gives the entry [getSettingSchema] finds for that key, with its
    default as value, and nothing when the schema has no such key. Every
    setting it returns carries its default. Without a loaded
    configuration [getDefaultSettings] throws and [getSettingSchema]
    returns nothing. *)
Theorem default_settings_follow_the_schema k (s : TpaSession) :
  match fst (fst (getDefaultSettings s)), fst (fst (getSettingSchema k s)) with
  | Ok defaults, Ok schema =>
      is_Some (tpaConfig s) /\
      find_setting k defaults = with_default_value <$> schema /\
      Forall (fun setting => value setting = defaultValue setting) defaults
  | Throw _, Ok schema => tpaConfig s = None /\ schema = None
  | _, Throw _ => False
  end.
Proof.
  unfold getDefaultSettings, getSettingSchema, bind, gets, ret, throw.
  destruct (tpaConfig s) as [c|]; cbn [fst snd]; [|done].
  split; [by eexists|]. split; [apply default_of_schema|].
  apply Forall_forall. intros x Hx. apply list_elem_of_fmap in Hx as (y & -> & _).
  reflexivity.
Qed.

End ConfigurationProperties.

(** * The sanitizer once more *)

Section SanitizerFixpoint.
Import Sanitizer.

(** X28: a sanitized payload passes through the sanitizer unchanged, at
    whatever time it is sanitized again: for every stream and every
    payload other than [null] and [undefined], sanitizing twice gives what
    sanitizing once gives. *)
Theorem sanitizeEventData_idempotent now now' t data :
  is_nullish data = false ->
  sanitizeEventData now' t (sanitizeEventData now t data) = sanitizeEventData now t data.
Proof.
  intros N.
  destruct t;
    try (rewrite (sanitize_passes_through now t data N I) ||
         (unfold sanitizeEventData, sanitize_body; rewrite N; cbn;
          unfold sanitizeEventData, sanitize_body; by rewrite N)).
  - rewrite (sanitize_button_press now), N.
    destruct (has_truthy_prop "buttonId" data && has_truthy_prop "pressType" data) eqn:B.
    + by rewrite sanitize_button_press, N, B.
    + reflexivity.
  - rewrite (sanitize_head_position now), N.
    destruct (has_string_prop "position" data) eqn:P.
    + by rewrite sanitize_head_position, N, P.
    + reflexivity.
  - rewrite (sanitize_transcription now), N.
    destruct (has_string_prop "text" data) eqn:P.
    + by rewrite sanitize_transcription, N, P.
    + reflexivity.
Qed.

End SanitizerFixpoint.

(** * The copy of [getSettings] is shallow *)

Section AliasingShallow.
Import Session Aliasing.

(** X29: the array [getSettings] returns holds the session's own setting
    objects. A write to the [value] of element [i] of the returned array
    leaves the session's array as it was and changes the setting object
    that the session's element [i] refers to, and no other object. *)
Theorem getSettings_copy_is_shallow (s : RefSession) (h : heap) i r s0 v :
  array_at h (settings s) !! i = Some r -> setting_at h r = Some s0 ->
  let a := snd (getSettings s h) in
  let h1 := snd (fst (getSettings s h)) in
  let h2 := element_write a i v h1 in
  array_at h2 (settings s) = array_at h (settings s) /\
  array_at h2 (settings s) !! i = Some r /\
  setting_at h2 r =
    Some {| key := key s0; stype := stype s0; value := v;
            defaultValue := defaultValue s0 |} /\
  (forall r', r' <> r -> setting_at h2 r' = setting_at h r').
Proof.
  intros Hi Hr. unfold getSettings. cbn [fst snd].
  set (a := fresh (dom h)).
  assert (Ha : h !! a = None) by apply fresh_not_allocated.
  assert (Har : a <> r).
  { intros ->. unfold setting_at in Hr. by rewrite Ha in Hr. }
  assert (Hsa : settings s <> a).
  { intros E. rewrite E in Hi. unfold array_at in Hi. by rewrite Ha in Hi. }
  assert (Hsr : settings s <> r).
  { intros E. rewrite E in Hi. unfold array_at, setting_at in *.
    destruct (h !! r) as [[]|]; done. }
  assert (Hw : element_write a i v (<[a := ArrayCell (array_at h (settings s))]> h) =
               <[r := SettingCell {| key := key s0; stype := stype s0; value := v;
                                     defaultValue := defaultValue s0 |}]>
                 (<[a := ArrayCell (array_at h (settings s))]> h)).
  { unfold element_write. rewrite array_at_insert_eq, Hi.
    assert (setting_at (<[a := ArrayCell (array_at h (settings s))]> h) r = Some s0) as ->;
      [|reflexivity].
    unfold setting_at. rewrite lookup_insert_ne by done. exact Hr. }
  cbn zeta. rewrite Hw.
  assert (Harr : array_at
                   (<[r := SettingCell {| key := key s0; stype := stype s0; value := v;
                                          defaultValue := defaultValue s0 |}]>
                      (<[a := ArrayCell (array_at h (settings s))]> h)) (settings s) =
                 array_at h (settings s)).
  { unfold array_at. rewrite !lookup_insert_ne by done. reflexivity. }
  split; [exact Harr|]. split; [by rewrite Harr|]. split.
  - unfold setting_at. by rewrite lookup_insert_eq.
  - intros r' Hne. unfold setting_at. rewrite lookup_insert_ne by done.
    destruct (decide (a = r')) as [<-|Hne'].
    + by rewrite lookup_insert_eq, Ha.
    + by rewrite lookup_insert_ne.
Qed.

Lemma getSettings_copy_is_shallow_witness :
  (array_at example_heap (settings example_ref_session) !! 0%nat = Some 2%positive /\
   setting_at example_heap 2%positive = Some vol_setting) /\
  setting_at
    (element_write (snd (getSettings example_ref_session example_heap)) 0 (PNum 9)
       (snd (fst (getSettings example_ref_session example_heap)))) 2%positive =
  Some {| key := "vol"; stype := "slider"; value := PNum 9; defaultValue := PNum 1 |}.
Proof.
  split; [split; reflexivity|].
  exact (proj1 (proj2 (proj2
           (getSettings_copy_is_shallow example_ref_session example_heap 0 2%positive
              vol_setting (PNum 9) eq_refl eq_refl)))).
Defined.

End AliasingShallow.

(** * Instances *)

Section LifecycleWitnesses.
Import Events Session Lifecycle Configuration.

Lemma handleMessage_data_stream_delivers_witness :
  (TRANSCRIPTION ∈ subscriptions example_session /\ is_nullish (JObj []) = false) /\
  Sanitizer.min_shape TRANSCRIPTION
    (Sanitizer.sanitizeEventData 0 TRANSCRIPTION (JObj [])) = true.
Proof.
  assert (Hin : TRANSCRIPTION ∈ subscriptions example_session)
    by apply list_elem_of_here.
  split; [split; [exact Hin | reflexivity]|].
  exact (proj2 (handleMessage_data_stream_delivers 0 (fun _ => true) TRANSCRIPTION
                  (JObj []) example_session Hin eq_refl)).
Defined.

Lemma send_stamps_the_frame_witness :
  is_ok (fst (fst (send 0 (JObj [("type", JStr "display_event")]) example_session)))
    = true /\
  exists props props',
    JObj [("type", JStr "display_event")] = JObj props /\
    send 0 (JObj [("type", JStr "display_event")]) example_session =
      (Ok tt, example_session, [WsSend (JObj props')]) /\
    (forall k, k <> "timestamp" -> assoc k props' = assoc k props) /\
    assoc "timestamp" props' =
      match assoc "timestamp" props with
      | Some (JDate ms) => Some (JDate ms)
      | _ => Some (JDate 0)
      end /\
    is_Some (assoc "type" props).
Proof.
  split; [reflexivity|].
  exact (send_stamps_the_frame 0 (JObj [("type", JStr "display_event")])
           example_session eq_refl).
Defined.

Lemma subscribe_on_open_channel_witness :
  (ws example_session = Some open_socket /\ readyState open_socket = 1) /\
  subscribe 0 VAD example_session =
    (Ok tt, set_subscriptions [TRANSCRIPTION; VAD] example_session,
     [WsSend (JObj [("type", JStr SUBSCRIPTION_UPDATE);
                    ("packageName", JStr "org.example.myapp");
                    ("subscriptions", JArr [JStr (stream_name TRANSCRIPTION); JStr (stream_name VAD)]);
                    ("sessionId", JStr "session_123");
                    ("timestamp", JDate 0)])]).
Proof.
  split; [split; reflexivity|].
  exact (proj1 (subscribe_on_open_channel 0 VAD example_session open_socket
                  eq_refl eq_refl)).
Defined.

Lemma disconnect_does_not_cancel_reconnection_witness :
  reconnection_blocked example_session = false /\
  sessionId (snd (fst (disconnect (snd (fst (handleReconnection_arm example_session))))))
    = None.
Proof.
  split; [reflexivity|].
  exact (proj1 (proj2 (disconnect_does_not_cancel_reconnection resolving_connect
                         example_session eq_refl))).
Defined.

Lemma updateSubscriptionsFromSettings_replaces_witness :
  (subscriptionSettingsHandler
     (set_subscriptionSettings ["captions"] captions_handler
        (set_settings [captions_setting true] example_session)) = Some captions_handler /\
   captions_handler [captions_setting true] = Ok [TRANSCRIPTION]) /\
  fst (fst (updateSubscriptionsFromSettings 0
              (set_subscriptionSettings ["captions"] captions_handler
                 (set_settings [captions_setting true] example_session)))) = Ok tt.
Proof.
  split; [split; reflexivity|].
  exact (proj1 (updateSubscriptionsFromSettings_replaces 0 captions_handler
                  [TRANSCRIPTION]
                  (set_subscriptionSettings ["captions"] captions_handler
                     (set_settings [captions_setting true] example_session))
                  eq_refl eq_refl)).
Defined.

Lemma updateSubscriptionsFromSettings_reports_failures_witness :
  subscriptionSettingsHandler
    (set_subscriptionSettings ["captions"] captions_handler
       (set_ws (Some {| readyState := 1; sendError := Some "socket gone" |})
          example_session)) = Some captions_handler /\
  snd (updateSubscriptionsFromSettings 0
         (set_subscriptionSettings ["captions"] captions_handler
            (set_ws (Some {| readyState := 1; sendError := Some "socket gone" |})
               example_session))) =
  [Emit error (PError (Error "Failed to send message: socket gone"));
   Emit error (PError (Error
     "Failed to update subscriptions: Failed to send message: socket gone"))].
Proof.
  split; [reflexivity|].
  exact (f_equal snd
           (updateSubscriptionsFromSettings_reports_failures 0 captions_handler
              (set_subscriptionSettings ["captions"] captions_handler
                 (set_ws (Some {| readyState := 1; sendError := Some "socket gone" |})
                    example_session))
              eq_refl)).
Defined.

Lemma updateSettingsForTesting_as_settings_update_witness :
  shouldUpdateSubscriptionsOnSettingsChange example_session = false /\
  updateSettingsForTesting 0 [vol_setting] example_session =
  handleMessage 0 (fun _ => true) (SettingsUpdate (Some [vol_setting])) example_session.
Proof.
  split; [reflexivity|].
  exact (updateSettingsForTesting_as_settings_update 0 (fun _ => true) [vol_setting]
           example_session (or_introl eq_refl)).
Defined.

Lemma connection_ack_with_failed_push_witness :
  (ws (set_ws (Some connecting_socket) example_session) = Some connecting_socket /\
   readyState connecting_socket <> 1) /\
  snd (handleMessage 0 (fun _ => true) (TpaConnectionAck (Some [vol_setting]) None)
         (set_ws (Some connecting_socket) example_session)) =
  [Emit connected (PSettings [vol_setting]);
   Emit error (PError (Error "WebSocket not connected (current state: CONNECTING)"));
   Emit error (PError (Error
     "Error processing message: WebSocket not connected (current state: CONNECTING)"))].
Proof.
  assert (Hclosed : readyState connecting_socket <> 1) by discriminate.
  split; [split; [reflexivity | exact Hclosed]|].
  exact (f_equal snd
           (connection_ack_with_failed_push 0 (fun _ => true) (Some [vol_setting]) None
              (set_ws (Some connecting_socket) example_session) connecting_socket
              eq_refl (or_introl Hclosed))).
Defined.

Lemma setSubscriptionSettings_applies_at_once_witness :
  captions_handler (settings (set_settings [captions_setting true] example_session))
    = Ok [TRANSCRIPTION] /\
  subscriptionSettingsHandler
    (snd (fst (setSubscriptionSettings 0 ["captions"] captions_handler
                 (set_settings [captions_setting true] example_session))))
    = Some captions_handler.
Proof.
  split; [reflexivity|].
  exact (proj1 (proj2 (proj2
           (setSubscriptionSettings_applies_at_once 0 ["captions"] captions_handler
              [TRANSCRIPTION] (set_settings [captions_setting true] example_session)
              eq_refl)))).
Defined.

Lemma sanitizeEventData_idempotent_witness :
  is_nullish (JObj []) = false /\
  Sanitizer.sanitizeEventData 5 HEAD_POSITION
    (Sanitizer.sanitizeEventData 3 HEAD_POSITION (JObj [])) =
  Sanitizer.sanitizeEventData 3 HEAD_POSITION (JObj []).
Proof.
  split; [reflexivity|].
  exact (sanitizeEventData_idempotent 3 5 HEAD_POSITION (JObj []) eq_refl).
Defined.

End LifecycleWitnesses.
